(** * snafu: version lifecycle and shim-based command reconciler

    A shallow embedding of [snafu/versions.py], [snafu/operations.py] and
    [snafu/metadata.py] and the properties of the version catalog, the
    installer integrity check, the shim publisher, the active-set
    reconciler and the registry queries.

    Python code that touches the file system or the console is a
    computation in the monad [M]: it threads a [state] (the file system
    and the persisted list of active versions), may raise an exception,
    and appends to a log of the externally visible events it performed
    (console lines and file-system mutations, in order).

    Conventions of the model. File contents and console lines are
    strings of ASCII text, so that reading a text file decodes it as it
    is and the blanks of [str.split] are the ASCII ones; file names are
    compared exactly, character by character. A file-system operation
    fails the way [pathlib] and [shutil] do on a missing file, a
    directory or a read-only file, and otherwise succeeds; a file is
    writable or read-only, and files held open by a running process are
    not modelled. The file that persists the list of active
    versions is a cell of its own, apart from the file system the
    reconciler walks. What the sources at hand call but do not define
    ([configs], parts of [metadata] and of [Version]) is a parameter,
    collected in the class [Host]. *)

From Stdlib Require Import Ascii.
From stdpp Require Import gmap strings list fin_maps.

(** ** Python strings *)

Module str.

(** [s.startswith(prefix)] *)
Fixpoint startswith (s prefix : string) : bool :=
  match prefix, s with
  | "", _ => true
  | String a p, String b s' => bool_decide (a = b) && startswith s' p
  | String _ _, "" => false
  end.

(** [s.endswith(suffix)] *)
Definition endswith (s suffix : string) : bool :=
  startswith (String.rev s) (String.rev suffix).

(** [s.rfind(c)] for a one-character [c]: the greatest index holding [c]. *)
Fixpoint rfind_go (c : ascii) (s : string) (i : nat) (last : option nat) : option nat :=
  match s with
  | "" => last
  | String a s' => rfind_go c s' (S i) (if decide (a = c) then Some i else last)
  end.

Definition rfind (c : ascii) (s : string) : option nat := rfind_go c s 0 None.

(** The one-character string ["\n"]. *)
Definition newline : string := String "010" "".

(** [sep.join(l)] *)
Fixpoint join (sep : string) (l : list string) : string :=
  match l with
  | [] => ""
  | [x] => x
  | x :: l' => x +:+ sep +:+ join sep l'
  end.

(** [c.isspace()] on the ASCII range. *)
Definition isspace (c : ascii) : bool :=
  match c with
  | "009" | "010" | "011" | "012" | "013" | "028" | "029" | "030" | "031" | " " => true
  | _ => false
  end%char.

(** [s.split()]: the maximal runs of non-blank characters, in order.
    [cur] is the run being read, reversed. *)
Fixpoint split_go (cur : option string) (s : string) : list string :=
  match s with
  | "" => option_list (String.rev <$> cur)
  | String a s' =>
      if isspace a
      then option_list (String.rev <$> cur) ++ split_go None s'
      else split_go (Some (String a (default "" cur))) s'
  end.

Definition split (s : string) : list string := split_go None s.

End str.

(** ** Paths ([pathlib])

    A path is its final component together with the components of its
    parent, innermost first: [("python3.exe", ["Scripts"; "snafu"])] is
    [snafu\Scripts\python3.exe]. Every path has a final component, as
    every path the program handles does, so the [ValueError] that
    [with_suffix] raises on a path without a name does not arise. *)

Abbreviation path := (string * list string)%type.

Module pathlib.

Definition name (p : path) : string := p.1.

Definition joinpath (d : path) (n : string) : path := (n, d.1 :: d.2).

(** [p] is an entry of directory [d]. *)
Definition child_of (d p : path) : Prop := p.2 = d.1 :: d.2.

Global Instance child_of_dec d p : Decision (child_of d p).
Proof. unfold child_of. apply _. Defined.

(** The parent of [p], or [None] when [p] lies directly under the root. *)
Definition parent (p : path) : option path :=
  match p.2 with
  | [] => None
  | n :: d => Some (n, d)
  end.

(** [PurePath.stem] and [PurePath.suffix] of a file name: the name is cut
    at its last dot, unless that dot is the first or the last character. *)
Definition split_suffix (n : string) : string * string :=
  match str.rfind "." n with
  | Some i =>
      if bool_decide (0 < i ∧ i < String.length n - 1)
      then (String.substring 0 i n, String.substring i (String.length n - i) n)
      else (n, "")
  | None => (n, "")
  end.

Definition stem (p : path) : string := (split_suffix p.1).1.
Definition suffix (p : path) : string := (split_suffix p.1).2.

(** [p.with_suffix(suffix)] *)
Definition with_suffix (p : path) (suffix : string) : path :=
  ((split_suffix p.1).1 +:+ suffix, p.2).

(** [str(p)] on Windows. *)
Definition to_str (p : path) : string := str.join "\" (reverse (p.1 :: p.2)).

End pathlib.

(** ** The world the program runs in *)

(** An entry of the file system. A [locked] file carries the read-only
    attribute: the host refuses to remove it or to open it for writing,
    and [shutil.copy2] hands the attribute on to the copy. *)
Inductive node :=
| File (data : string) (locked : bool)
| Dir.

Global Instance node_eq_dec : EqDecision node.
Proof. solve_decision. Defined.

Record state := State {
  fs : gmap path node;
  (** the file at [configs.get_python_versions_path()], when it exists *)
  python_versions : option string;
}.

Definition set_fs (f : gmap path node → gmap path node) (s : state) : state :=
  State (f (fs s)) (python_versions s).

Inductive event :=
| Stdout (line : string)
| Stderr (line : string)
| Unlinked (p : path)
| Written (p : path) (data : string)
| Persisted (data : string).

Inductive exn :=
| Exit (code : nat)
| FileNotFoundError (p : path)
| NotADirectoryError (p : path)
| PermissionError (p : path)
| SameFileError (p : path)
| VersionNotFoundError (name : string)
| DownloadIntegrityError (msg : string)
| ValueError (msg : string).

(** [isinstance(e, OSError)] *)
Definition is_OSError (e : exn) : bool :=
  match e with
  | FileNotFoundError _ | NotADirectoryError _ | PermissionError _ | SameFileError _ => true
  | _ => false
  end.

Inductive result (A : Type) :=
| Ok (a : A)
| Raise (e : exn).
Arguments Ok {A} a.
Arguments Raise {A} e.

(** ** The monad of effectful code *)

Definition M (A : Type) : Type := state → result A * state * list event.

Global Instance M_ret : MRet M := λ A a s, (Ok a, s, []).

Global Instance M_bind : MBind M := λ A B k m s,
  match m s with
  | (Ok a, s', l) => let '(r, s'', l') := k a s' in (r, s'', l ++ l')
  | (Raise e, s', l) => (Raise e, s', l)
  end.

Definition raise {A} (e : exn) : M A := λ s, (Raise e, s, []).

(** [try: m except E: h], where [handler e] is [Some h] when [E] matches. *)
Definition try_except {A} (m : M A) (handler : exn → option (M A)) : M A := λ s,
  match m s with
  | (Raise e, s', l) =>
      match handler e with
      | Some h => let '(r, s'', l') := h s' in (r, s'', l ++ l')
      | None => (Raise e, s', l)
      end
  | r => r
  end.

Definition get_state : M state := λ s, (Ok s, s, []).
Definition emit (e : event) : M unit := λ s, (Ok tt, s, [e]).
Definition modify (f : state → state) : M unit := λ s, (Ok tt, f s, []).

Definition when (b : bool) (m : M unit) : M unit := if b then m else mret tt.

(** [for x in l: body(x)] *)
Fixpoint for_ {A} (l : list A) (body : A → M unit) : M unit :=
  match l with
  | [] => mret tt
  | x :: l' => body x ;; for_ l' body
  end.

(** [[f(x) for x in l]] *)
Fixpoint for_list {A B} (l : list A) (f : A → M B) : M (list B) :=
  match l with
  | [] => mret []
  | x :: l' => y ← f x; ys ← for_list l' f; mret (y :: ys)
  end.

(** ** Console ([click]) *)

Module click.

Definition echo (line : string) : M unit := emit (Stdout line).
Definition echo_err (line : string) : M unit := emit (Stderr line).

(** [click.get_current_context().exit(code)] *)
Definition exit {A} (code : nat) : M A := raise (Exit code).

End click.

(** ** File-system primitives ([pathlib.Path], [shutil]) *)

Module os.

Definition exists_in (m : gmap path node) (p : path) : bool := bool_decide (is_Some (m !! p)).

Definition is_file_in (m : gmap path node) (p : path) : bool :=
  match m !! p with Some (File _ _) => true | _ => false end.

Definition is_dir_in (m : gmap path node) (p : path) : bool :=
  match m !! p with Some Dir => true | _ => false end.

(** [p.exists()], [p.is_file()], [p.is_dir()] *)
Definition exists_ (p : path) : M bool := s ← get_state; mret (exists_in (fs s) p).
Definition is_file (p : path) : M bool := s ← get_state; mret (is_file_in (fs s) p).
Definition is_dir (p : path) : M bool := s ← get_state; mret (is_dir_in (fs s) p).

(** The entries of directory [d], in the order the host lists them. *)
Definition listdir (m : gmap path node) (d : path) : list path :=
  (map_to_list (filter (λ kv, pathlib.child_of d kv.1) m)).*1.

(** [d.iterdir()]: listing a path that is a file raises
    [NotADirectoryError], listing a missing one [FileNotFoundError]. *)
Definition iterdir (d : path) : M (list path) :=
  s ← get_state;
  match fs s !! d with
  | Some Dir => mret (listdir (fs s) d)
  | Some (File _ _) => raise (NotADirectoryError d)
  | None => raise (FileNotFoundError d)
  end.

(** [p.unlink()] *)
Definition unlink (p : path) : M unit :=
  s ← get_state;
  match fs s !! p with
  | None => raise (FileNotFoundError p)
  | Some Dir | Some (File _ true) => raise (PermissionError p)
  | Some (File _ false) => modify (set_fs (delete p));; emit (Unlinked p)
  end.

(** The directory that is to hold [p] exists (the root always does). *)
Definition parent_is_dir (m : gmap path node) (p : path) : bool :=
  match pathlib.parent p with
  | None => true
  | Some d => is_dir_in m d
  end.

(** [open(p, 'w')] followed by a complete write of [data]: the parent
    must be a directory, and [p] neither a directory nor a read-only
    file; the file written is not read-only. *)
Definition write (p : path) (data : string) : M unit :=
  s ← get_state;
  if negb (parent_is_dir (fs s) p) then raise (FileNotFoundError p) else
  match fs s !! p with
  | Some Dir | Some (File _ true) => raise (PermissionError p)
  | _ => modify (set_fs <[p := File data false]>);; emit (Written p data)
  end.

(** [open(p, 'rb').read()] *)
Definition read (p : path) : M string :=
  s ← get_state;
  match fs s !! p with
  | None => raise (FileNotFoundError p)
  | Some Dir => raise (PermissionError p)
  | Some (File data _) => mret data
  end.

End os.

Module shutil.

(** [shutil.copystat(src, dst)], as far as the model sees it: the file
    [dst] takes the read-only attribute of the file [src]. *)
Definition copystat (src dst : path) : M unit :=
  s ← get_state;
  match fs s !! src, fs s !! dst with
  | Some (File _ locked), Some (File data _) =>
      modify (set_fs <[dst := File data locked]>)
  | None, _ => raise (FileNotFoundError src)
  | _, None => raise (FileNotFoundError dst)
  | _, _ => mret tt
  end.

(** [shutil.copy2(src, dst)]: a directory [dst] receives the file under
    the source's name; the data is copied first ([copyfile]), the
    attributes after it ([copystat]). *)
Definition copy2 (src dst : path) : M unit :=
  s ← get_state;
  let dst := if os.is_dir_in (fs s) dst then pathlib.joinpath dst (pathlib.name src) else dst in
  if bool_decide (src = dst) then raise (SameFileError src) else
  data ← os.read src;
  os.write dst data;;
  copystat src dst.

End shutil.

(** ** The registry ([winreg], [snafu/metadata.py])

    A registry key is its name, its unnamed value and its subkeys, in
    the order [EnumKey] lists them. Key names are compared exactly. Handles are not
    modelled: [CloseKey] has no counterpart here. *)

Module winreg.

#[local] Set Warnings "-register-all".

Inductive key :=
| Key (name value : string) (subkeys : list key).

Definition name (k : key) : string := match k with Key n _ _ => n end.
Definition value (k : key) : string := match k with Key _ v _ => v end.
Definition subkeys (k : key) : list key := match k with Key _ _ l => l end.

(** What [winreg] raises: [FileNotFoundError] from [OpenKey] on a key
    that does not exist, [OSError] from [EnumKey] past the last subkey. *)
Inductive error :=
| KeyNotFound (sub_key : string)
| NoMoreData (index : nat).

(** The key names of a [sub_key] string, which are separated by
    backslashes; [cur] is the name being read, reversed. *)
Fixpoint components_go (cur : string) (s : string) : list string :=
  match s with
  | "" => [String.rev cur]
  | String a s' =>
      if decide (a = "\"%char) then String.rev cur :: components_go "" s'
      else components_go (String a cur) s'
  end.

Definition components (sub_key : string) : list string := components_go "" sub_key.

Fixpoint lookup_subkey (n : string) (l : list key) : option key :=
  match l with
  | [] => None
  | k :: l' => if decide (name k = n) then Some k else lookup_subkey n l'
  end.

Fixpoint descend (k : key) (names : list string) : option key :=
  match names with
  | [] => Some k
  | n :: names' =>
      match lookup_subkey n (subkeys k) with
      | Some k' => descend k' names'
      | None => None
      end
  end.

(** [winreg.OpenKey(key, sub_key)] *)
Definition OpenKey (k : key) (sub_key : string) : error + key :=
  match descend k (components sub_key) with
  | Some k' => inr k'
  | None => inl (KeyNotFound sub_key)
  end.

(** The first component of [winreg.QueryInfoKey(key)]: the number of
    subkeys. *)
Definition QueryInfoKey (k : key) : nat := length (subkeys k).

(** [winreg.EnumKey(key, index)] *)
Definition EnumKey (k : key) (index : nat) : error + string :=
  match subkeys k !! index with
  | Some k' => inr (name k')
  | None => inl (NoMoreData index)
  end.

(** [winreg.QueryValue(key, '')] *)
Definition QueryValue (k : key) : string := value k.

End winreg.

Module metadata.
Import winreg.

(** [open_python_key()]; [hkcu] is the key [HKEY_CURRENT_USER]. *)
Definition open_python_key (hkcu : key) : error + key :=
  OpenKey hkcu "Software\Python\PythonCore".

(** [[winreg.EnumKey(python_key, i) for i in range(count)]] *)
Fixpoint enum_keys (python_key : key) (indices : list nat) : error + list string :=
  match indices with
  | [] => inr []
  | i :: indices' =>
      match EnumKey python_key i with
      | inl e => inl e
      | inr n =>
          match enum_keys python_key indices' with
          | inl e => inl e
          | inr names => inr (n :: names)
          end
      end
  end.

Definition get_installed_version_names (hkcu : key) : error + list string :=
  match open_python_key hkcu with
  | inl e => inl e
  | inr python_key =>
      let count := QueryInfoKey python_key in
      enum_keys python_key (seq 0 count)
  end.

Definition is_installed (hkcu : key) (name : string) : error + bool :=
  match open_python_key hkcu with
  | inl e => inl e
  | inr python_key =>
      match OpenKey python_key (name +:+ "\InstallPath") with
      | inl (KeyNotFound _) => inr false
      | inl e => inl e
      | inr key =>
          let install_path := QueryValue key in
          inr (bool_decide (install_path ≠ ""))
      end
  end.

End metadata.

(** ** Version descriptors ([snafu/versions.py]) *)

Inductive InstallerType :=
| cpython_msi
| cpython.

(** [InstallerType(value)] *)
Definition InstallerType_of (value : string) : option InstallerType :=
  if decide (value = "cpython_msi") then Some cpython_msi
  else if decide (value = "cpython") then Some cpython
  else None.

(** [class Version]; [klass] records which of the two subclasses
    ([CPythonMSIVersion], [CPythonVersion]) the object belongs to. *)
Record Version := {
  name : string;
  url : string;
  md5_sum : string;
  version_info : list Z;
  klass : InstallerType;
}.

(** The contents of one [versions/<name>.json] file. *)
Record descriptor := {
  installer_type : string;
  json_url : string;
  json_md5_sum : string;
  json_version_info : list Z;
}.

(** Modelled from the spec: [Version.get_installation] is not part of the
    sources at hand; the specification describes its result as the record
    of a version's interpreter path, package-manager path and scripts
    directory. *)
Record Installation := {
  python : path;
  pip : path;
  scripts_dir : path;
}.

(** What the sources at hand take from their surroundings: module
    [configs], [metadata.can_install_64bit], the members of [Version]
    used by [operations.py] and absent from [versions.py], the catalog
    directory, and the behaviour of the Python runtime that the language
    leaves open (the iteration order of a [set], the text of an
    [OSError], the MD5 digest). *)
Class Host := {
  get_scripts_dir_path : path;
  get_generic_shim_path : path;
  can_install_64bit : bool;
  versions_dir : gmap string descriptor;
  major_version : Version → string;
  get_installation : Version → Installation;
  python_commands : Version → list path;
  pip_commands : Version → list path;
  version_str : Version → string;
  exn_str : exn → string;
  md5_hexdigest : string → string;
  set_iter : gset string → list string;
  set_iter_perm : ∀ X, set_iter X ≡ₚ elements X;
}.

Module versions.
Section with_host.
Context `{!Host}.

(** [Version.save_installer] *)
Definition save_installer (self : Version) (data : string) (into_path : path) : M unit :=
  let checksum := md5_hexdigest data in
  if bool_decide (checksum ≠ md5_sum self) then
    raise (DownloadIntegrityError ("expect " +:+ md5_sum self +:+ ", got " +:+ checksum))
  else
    os.write into_path data.

(** [get_version(name)]: the exact lookup in the catalog directory. *)
Definition get_version (name : string) : M Version :=
  match versions_dir !! name with
  | None => raise (VersionNotFoundError name)
  | Some data =>
      match InstallerType_of (installer_type data) with
      | None => raise (ValueError (installer_type data))
      | Some installer_type =>
          mret {| name := name; url := json_url data; md5_sum := json_md5_sum data;
                  version_info := json_version_info data; klass := installer_type |}
      end
  end.

(** Modelled from the spec: the catalog lookup with architecture
    fallback, called as [versions.get_version(name, force_32=...)] by
    [operations.get_version], is not part of the sources at hand (the
    [get_version] above takes a name only). Following the specification,
    when 32-bit is forced, the requested name has no [-32] suffix and a
    [<name>-32] entry exists, that entry is looked up instead. *)
Definition get_version_force_32 (name : string) (force_32 : bool) : M Version :=
  if force_32 && negb (str.endswith name "-32") &&
     bool_decide (is_Some (versions_dir !! (name +:+ "-32")))
  then get_version (name +:+ "-32")
  else get_version name.


End with_host.
End versions.

(** ** Operations ([snafu/operations.py]) *)

Module operations.
Section with_host.
Context `{!Host}.

(** The parameter is [name] in the source; it is [requested] here to keep
    the field [name] of the resolved version in sight. *)
Definition get_version (requested : string) : M Version :=
  let force_32 := negb can_install_64bit in
  version ← try_except (versions.get_version_force_32 requested force_32) (λ e,
    match e with
    | VersionNotFoundError _ =>
        Some (click.echo_err ("No such version: " +:+ requested);; click.exit 1)
    | _ => None
    end);
  when (bool_decide (name version ≠ requested))
    (click.echo ("Note: Selecting " +:+ name version +:+ " instead of " +:+ requested));;
  mret version.

Definition publish_shim (target content : path) (overwrite quiet : bool) : M unit :=
  e ← os.exists_ target;
  if negb overwrite && e then mret tt else
  when (negb quiet) (click.echo ("  " +:+ pathlib.name target));;
  os.write (pathlib.with_suffix target ".shim") (pathlib.to_str content);;
  shutil.copy2 get_generic_shim_path target.

Definition publish_file (source target : path) (overwrite quiet : bool) : M unit :=
  e ← os.exists_ target;
  if negb overwrite && e then mret tt else
  when (negb quiet) (click.echo ("  " +:+ pathlib.name target));;
  shutil.copy2 source target.

Definition publish_python_command (installation : Installation) (target : path)
    (overwrite quiet : bool) : M unit :=
  publish_shim target (python installation) overwrite quiet.

Definition publish_pip_command (installation : Installation) (target : path)
    (overwrite quiet : bool) : M unit :=
  publish_file (pip installation) target overwrite quiet.

Definition publish_version_scripts (version : Version) (target_dir : path)
    (quiet overwrite : bool) : M unit :=
  when (negb quiet) (click.echo ("Publishing " +:+ version_str version +:+ "..."));;
  let installation := get_installation version in
  let scripts_dir := scripts_dir installation in
  let target := pathlib.joinpath target_dir ("python" +:+ major_version version +:+ ".exe") in
  publish_python_command installation target overwrite quiet;;
  is_dir ← os.is_dir scripts_dir;
  if (is_dir : bool) then
    paths ← os.iterdir scripts_dir;
    for_ paths (λ path,
      if bool_decide (pathlib.stem path ∈ ["easy_install"; "pip"]) then mret tt else
      is_file ← os.is_file path;
      if negb is_file then mret tt else
      let target := pathlib.joinpath target_dir (pathlib.name path) in
      publish_file path target overwrite quiet)
  else mret tt.

(** [configs.get_python_versions_path().write_text(content)] *)
Definition write_python_versions (content : string) : M unit :=
  modify (λ s, State (fs s) (Some content));; emit (Persisted content).

Definition activate (versions : list Version) (allow_empty quiet : bool) : M unit :=
  (if negb allow_empty && bool_decide (versions = []) then
     click.echo_err "No active versions.";; click.exit 1
   else mret tt);;
  let scripts_dir := get_scripts_dir_path in
  when (negb quiet) (click.echo "Removing scripts.");;
  ps ← os.iterdir scripts_dir;
  for_ ps os.unlink;;
  for_ versions (λ version, publish_version_scripts version scripts_dir quiet false);;
  write_python_versions (str.join str.newline (name <$> versions)).

Definition link_commands (version : Version) : M unit :=
  let installation := get_installation version in
  for_ (python_commands version) (λ path,
    click.echo ("Publishing " +:+ pathlib.name path);;
    publish_python_command installation path true true);;
  for_ (pip_commands version) (λ path,
    click.echo ("Publishing " +:+ pathlib.name path);;
    publish_pip_command installation path true true).

Definition safe_unlink (p : path) : M unit :=
  e ← os.exists_ p;
  if (e : bool) then
    try_except (os.unlink p) (λ e,
      if is_OSError e then
        Some (click.echo_err
                ("Failed to remove " +:+ pathlib.to_str p +:+ " (" +:+ exn_str e +:+ ")"))
      else None)
  else mret tt.

Definition unlink_commands (version : Version) : M unit :=
  for_ (python_commands version ++ pip_commands version) (λ p,
    click.echo ("Unlinking " +:+ pathlib.name p);;
    safe_unlink p;;
    safe_unlink (pathlib.with_suffix p ".shim")).

Definition get_active_names : M (list string) :=
  s ← get_state;
  match python_versions s with
  | None => mret []
  | Some content => mret (filter (λ v, v ≠ "") (str.split content))
  end.

(** [l.remove(x)]: [None] stands for the [ValueError] of an absent [x]. *)
Fixpoint list_remove (x : string) (l : list string) : option (list string) :=
  match l with
  | [] => None
  | y :: l' => if decide (y = x) then Some l' else (y ::.) <$> list_remove x l'
  end.

(** The loop of [update_active_versions], threading the list it mutates. *)
Fixpoint remove_loop (remove : list Version) (active_names : list string) : M (list string) :=
  match remove with
  | [] => mret active_names
  | version :: remove' =>
      match list_remove (name version) active_names with
      | None => remove_loop remove' active_names
      | Some active_names' =>
          click.echo ("Deactivating " +:+ version_str version);;
          remove_loop remove' active_names'
      end
  end.

(** [remove] is the frozenset of versions, in the order it is iterated. *)
Definition update_active_versions (remove : list Version) : M unit :=
  names ← get_active_names;
  let current_active_names : gset string := list_to_set names in
  active_names ← remove_loop remove (set_iter current_active_names);
  if bool_decide (size current_active_names ≠ length active_names) then
    versions ← for_list active_names get_version;
    activate versions true false
  else mret tt.


(** [get_versions(installed_only)]; [vers] is the result of
    [versions.get_versions()] and [is_installed] the method
    [Version.is_installed], neither of which is part of the sources at
    hand. *)
Definition get_versions (vers : list Version) (is_installed : Version → bool)
    (installed_only : bool) : list Version :=
  let names : gset string := list_to_set (name <$> vers) in
  let should_include (version : Version) : bool :=
    if installed_only && negb (is_installed version) then false
    else if negb can_install_64bit && negb (str.endswith (name version) "-32") &&
            bool_decide (name version +:+ "-32" ∈ names) then false
    else true in
  filter (λ v, should_include v) vers.
End with_host.
End operations.

(** * Vocabulary of the properties *)

(** [m] returns normally from state [s]. *)
Definition succeeds {A} (m : M A) (s : state) : Prop :=
  ∃ a s' l, m s = (Ok a, s', l).

(** ** Partial-correctness triples

    [hoare P m Q]: when [m] starts in a state and after a log satisfying
    [P] and returns normally, its result, final state and extended log
    satisfy [Q]. *)

Definition hoare {A} (P : state → list event → Prop) (m : M A)
    (Q : A → state → list event → Prop) : Prop :=
  ∀ s l0, P s l0 → ∀ a s' l, m s = (Ok a, s', l) → Q a s' (l0 ++ l).

Section vocabulary.
Context `{!Host}.

(** A path the host lets [unlink] remove: a file that is not read-only. *)
Definition removable (m : gmap path node) (q : path) : Prop :=
  ∃ data, m !! q = Some (File data false).

Global Instance removable_dec m q : Decision (removable m q).
Proof.
  unfold removable. destruct (m !! q) as [[data [|]|]|].
  - right. by intros [? [=]].
  - left. eauto.
  - right. by intros [? [=]].
  - right. by intros [? [=]].
Defined.

(** The line [safe_unlink] prints when [p.unlink()] raises [e]. *)
Definition failed_to_remove (p : path) (e : exn) : event :=
  Stderr ("Failed to remove " +:+ pathlib.to_str p +:+ " (" +:+ exn_str e +:+ ")").

(** The paths [unlink_commands] tries to remove: each declared command
    followed by its sidecar. *)
Definition unlink_targets (version : Version) : list path :=
  p ← python_commands version ++ pip_commands version;
  [p; pathlib.with_suffix p ".shim"].

(** What [safe_unlink q] does to the file system, and what it logs. *)
Definition unlink_if_removable (q : path) (m : gmap path node) : gmap path node :=
  if decide (removable m q) then delete q m else m.

Definition safe_unlink_log (q : path) (m : gmap path node) : list event :=
  match m !! q with
  | None => []
  | Some (File _ false) => [Unlinked q]
  | Some _ => [failed_to_remove q (PermissionError q)]
  end.

Definition unlink_all (qs : list path) (m : gmap path node) : gmap path node :=
  foldl (λ m q, unlink_if_removable q m) m qs.

(** The sidecar of a published command. *)
Definition sidecar (target : path) : path := pathlib.with_suffix target ".shim".


Definition is_stdout (e : event) : bool :=
  match e with Stdout _ => true | _ => false end.

(** The log with the standard-output lines dropped. *)
Definition silent (l : list event) : list event :=
  filter (λ e, negb (is_stdout e)) l.

(** Two computations that differ in standard output only: from every
    state they give the same result, the same final state and, apart
    from standard-output lines, the same log. *)
Definition quiet_eq {A} (m1 m2 : M A) : Prop :=
  ∀ s, (m1 s).1.1 = (m2 s).1.1 ∧ (m1 s).1.2 = (m2 s).1.2 ∧ silent (m1 s).2 = silent (m2 s).2.

(** The interpreter command [publish_version_scripts] publishes. *)
Definition python_command (version : Version) : string :=
  "python" +:+ major_version version +:+ ".exe".

(** What a version offers under a command name: a shim resolving to its
    interpreter, or a copy of one of its scripts, with the script's
    read-only attribute. *)
Inductive offer :=
| Shim (content : path)
| Copy (data : string) (locked : bool).

(** What [publish_version_scripts] publishes as [n] for [version], read
    off the file system [m]: the interpreter shim when [n] is the
    version's interpreter command; otherwise the file [n] of the
    version's scripts directory, unless its stem is [easy_install] or
    [pip]. *)
Definition offers (m : gmap path node) (version : Version) (n : string) : option offer :=
  if decide (n = python_command version) then
    Some (Shim (python (get_installation version)))
  else
    let scripts_dir := scripts_dir (get_installation version) in
    if os.is_dir_in m scripts_dir &&
       negb (bool_decide ((pathlib.split_suffix n).1 ∈ ["easy_install"; "pip"]))
    then
      match m !! pathlib.joinpath scripts_dir n with
      | Some (File data locked) => Some (Copy data locked)
      | _ => None
      end
    else None.

(** The command [n] of the shared scripts directory in [m'] is the one
    offered as [o]; the dispatcher is read from [m], and its copy has
    its read-only attribute. *)
Definition owned (m m' : gmap path node) (n : string) (o : offer) : Prop :=
  let target := pathlib.joinpath get_scripts_dir_path n in
  match o with
  | Shim content =>
      ∃ data locked,
        m !! get_generic_shim_path = Some (File data locked) ∧
        m' !! target = Some (File data locked) ∧
        m' !! sidecar target = Some (File (pathlib.to_str content) false)
  | Copy data locked => m' !! target = Some (File data locked)
  end.

(** The data written to [p], in order, according to a log. *)
Definition written_data (p : path) (l : list event) : list string :=
  omap (λ e, match e with
             | Written q data => if decide (q = p) then Some data else None
             | _ => None
             end) l.

(** The file system [m] with the paths [ps] removed. *)
Definition delete_all (ps : list path) (m : gmap path node) : gmap path node :=
  foldl (λ m p, delete p m) m ps.

(** The line [publish_shim] and [publish_file] print unless [quiet]. *)
Definition echo_log (quiet : bool) (line : string) : list event :=
  if quiet then [] else [Stdout line].

(** An assertion on the state and the log that survives console output
    and any write of a file into the shared scripts directory outside
    the protected paths [X]. *)
Definition stable (X : path → Prop) (I : state → list event → Prop) : Prop :=
  (∀ s l line, I s l → I s (l ++ [Stdout line])) ∧
  (∀ s l q data locked, I s l → pathlib.child_of get_scripts_dir_path q → ¬ X q →
     I (set_fs <[q := File data locked]> s) (l ++ [Written q data])).

(** The body of the loop of [publish_version_scripts]. *)
Definition publish_script (target_dir : path) (quiet overwrite : bool) (path : path) : M unit :=
  if bool_decide (pathlib.stem path ∈ ["easy_install"; "pip"]) then mret tt else
  is_file ← os.is_file path;
  if negb is_file then mret tt else
  let target := pathlib.joinpath target_dir (pathlib.name path) in
  operations.publish_file path target overwrite quiet.

(** The second half of [publish_version_scripts]: the scripts of the
    version's installation. *)
Definition publish_scripts (version : Version) (target_dir : path)
    (quiet overwrite : bool) : M unit :=
  let scripts_dir := scripts_dir (get_installation version) in
  is_dir ← os.is_dir scripts_dir;
  if (is_dir : bool) then
    paths ← os.iterdir scripts_dir;
    for_ paths (publish_script target_dir quiet overwrite)
  else mret tt.

(** The state with the persisted list of active versions replaced. *)
Definition set_pv (pv : option string) (s : state) : state := State (fs s) pv.

(** A computation that neither reads nor writes the persisted list of
    active versions. *)
Definition pv_indep {A} (m : M A) : Prop :=
  ∀ s pv, m (set_pv pv s) = let '(r, s', l) := m s in (r, set_pv pv s', l).

(** While a rebuild is under way from the emptied file system [m0]:
    nothing outside the shared scripts directory has changed, and the
    directory holds files only. *)
Definition rebuilt_from (m0 : gmap path node) (s : state) (l : list event) : Prop :=
  (∀ q, ¬ pathlib.child_of get_scripts_dir_path q → fs s !! q = m0 !! q) ∧
  (∀ q, pathlib.child_of get_scripts_dir_path q →
     fs s !! q = None ∨ os.is_file_in (fs s) q = true).

(** During a rebuild, no version has published [target] yet. *)
Definition unclaimed (m0 : gmap path node) (target : path)
    (s : state) (l : list event) : Prop :=
  rebuilt_from m0 s l ∧ fs s !! target = None ∧ written_data target l = [].

(** During a rebuild, [target] has been written once, with [data], and
    still holds it, with the read-only attribute [locked]; [sc] is the
    content of its sidecar, if it has one. *)
Definition claimed (m0 : gmap path node) (target : path) (data : string) (locked : bool)
    (sc : option string) (s : state) (l : list event) : Prop :=
  rebuilt_from m0 s l ∧ fs s !! target = Some (File data locked) ∧
  written_data target l = [data] ∧
  (∀ c, sc = Some c → fs s !! sidecar target = Some (File c false)).


(** A string of ASCII characters: the top bit of every byte is clear. *)
Fixpoint is_ascii (x : string) : bool :=
  match x with
  | "" => true
  | String (Ascii _ _ _ _ _ _ _ b7) x' => negb b7 && is_ascii x'
  end.

(** A string holds a blank character. *)
Fixpoint has_space (x : string) : bool :=
  match x with
  | "" => false
  | String a x' => str.isspace a || has_space x'
  end.

(** A word: a non-empty string without blank characters, as a version
    name is. *)
Definition word (x : string) : Prop := x ≠ "" ∧ has_space x = false.

Global Instance word_dec x : Decision (word x).
Proof. unfold word. apply _. Defined.

(** During a rebuild from [m0]: nothing outside the shared scripts
    directory has changed, and every entry of the directory is a file
    holding the data the log shows as last written to it. *)
Definition written_entries (m0 : gmap path node) (s : state) (l : list event) : Prop :=
  (∀ q, ¬ pathlib.child_of get_scripts_dir_path q → fs s !! q = m0 !! q) ∧
  (∀ q, pathlib.child_of get_scripts_dir_path q →
     fs s !! q = None ∨
     ∃ data locked,
       fs s !! q = Some (File data locked) ∧ last (written_data q l) = Some data).

(** During a rebuild from [m0], [target] is present. *)
Definition published (m0 : gmap path node) (target : path)
    (s : state) (l : list event) : Prop :=
  rebuilt_from m0 s l ∧ is_Some (fs s !! target).

(** A read-only file. *)
Definition read_only (m : gmap path node) (q : path) : Prop :=
  ∃ data, m !! q = Some (File data true).

(** Neither the dispatcher nor any entry of the scripts directory of a
    listed version is read-only. *)
Definition unlocked_sources (versions : list Version) (m : gmap path node) : Prop :=
  ∀ q, (q = get_generic_shim_path ∨
        ∃ v, v ∈ versions ∧ pathlib.child_of (scripts_dir (get_installation v)) q) →
       ¬ read_only m q.

(** While a rebuild is under way from [m0], moreover, every entry of
    the shared scripts directory can be removed. *)
Definition rebuilt_removable (m0 : gmap path node) (s : state) (l : list event) : Prop :=
  rebuilt_from m0 s l ∧
  (∀ q, pathlib.child_of get_scripts_dir_path q → fs s !! q = None ∨ removable (fs s) q).

(** While the commands of [version] are being linked from state [s0]:
    the persisted list and every path that is not a declared command or
    sidecar are as in [s0], and no declared command or sidecar is a
    directory. *)
Definition linking (version : Version) (s0 s : state) (l : list event) : Prop :=
  python_versions s = python_versions s0 ∧
  (∀ q, q ∉ unlink_targets version → fs s !! q = fs s0 !! q) ∧
  (∀ q, q ∈ unlink_targets version → fs s !! q ≠ Some Dir).

(** While linking, moreover, every declared command and sidecar that
    exists can be removed. *)
Definition linking_unlocked (version : Version) (s0 s : state) (l : list event) : Prop :=
  linking version s0 s l ∧
  (∀ q, q ∈ unlink_targets version → fs s !! q = None ∨ removable (fs s) q).

(** While linking, the path [q] holds the node [n]. *)
Definition linked (version : Version) (s0 : state) (q : path) (n : node)
    (s : state) (l : list event) : Prop :=
  linking version s0 s l ∧ fs s !! q = Some n.

(** The character [c] occurs in [s]. *)
Fixpoint mentions (c : ascii) (s : string) : bool :=
  match s with
  | "" => false
  | String a s' => bool_decide (a = c) || mentions c s'
  end.

(** During a rebuild from [m0], the shared scripts directory holds no
    entry whose stem is [easy_install] or [pip]. *)
Definition no_installer_scripts (m0 : gmap path node) (s : state) (l : list event) : Prop :=
  rebuilt_from m0 s l ∧
  ∀ q, pathlib.child_of get_scripts_dir_path q → is_Some (fs s !! q) →
       pathlib.stem q ∉ ["easy_install"; "pip"].
End vocabulary.

(** * A concrete host

    A small installation used to run the operations on explicit inputs:
    two installed versions whose scripts directories both hold
    [wheel.exe] and [python3.shim], a dispatcher, a shared scripts
    directory with a stale entry, and a directory of pinned commands. *)

Module scenario.

Definition root : path := ("snafu", []).
Definition scripts : path := pathlib.joinpath root "scripts".
Definition cmd : path := pathlib.joinpath root "cmd".
Definition generic_shim : path := pathlib.joinpath root "shim.exe".
Definition install_dir (name : string) : path := pathlib.joinpath root ("Python" +:+ name).
Definition install_scripts (name : string) : path := pathlib.joinpath (install_dir name) "Scripts".

(** The MD5 digest of the empty payload. *)
Definition md5_empty : string := "d41d8cd98f00b204e9800998ecf8427e".

Definition entry (installer_type : string) (info : list Z) : descriptor :=
  {| installer_type := installer_type; json_url := "https://www.python.org/ftp/python/";
     json_md5_sum := md5_empty; json_version_info := info |}.

Definition catalog : gmap string descriptor :=
  list_to_map [
    ("2.7", entry "cpython_msi" [2; 7]%Z);
    ("3.5", entry "cpython" [3; 5]%Z);
    ("3.6", entry "cpython" [3; 6]%Z);
    ("3.6.3", entry "cpython" [3; 6; 3]%Z);
    ("3.6.3-32", entry "cpython" [3; 6; 3]%Z)
  ].

Definition version (name : string) (klass : InstallerType) (info : list Z) : Version :=
  {| name := name; url := "https://www.python.org/ftp/python/"; md5_sum := md5_empty;
     version_info := info; klass := klass |}.

Definition v27 : Version := version "2.7" cpython_msi [2; 7]%Z.
Definition v35 : Version := version "3.5" cpython [3; 5]%Z.
Definition v36 : Version := version "3.6" cpython [3; 6]%Z.

(** The digest is tabulated for the one payload used below; sets are
    iterated in the order of [elements]. *)
Definition host : Host := {|
  get_scripts_dir_path := scripts;
  get_generic_shim_path := generic_shim;
  can_install_64bit := false;
  versions_dir := catalog;
  major_version v := String.substring 0 1 (name v);
  get_installation v :=
    {| python := pathlib.joinpath (install_dir (name v)) "python.exe";
       pip := pathlib.joinpath (install_scripts (name v)) "pip.exe";
       scripts_dir := install_scripts (name v) |};
  python_commands v := [pathlib.joinpath cmd ("python" +:+ name v +:+ ".exe")];
  pip_commands v := [pathlib.joinpath cmd ("pip" +:+ name v +:+ ".exe")];
  version_str v := "Python " +:+ name v;
  exn_str e := "[WinError 5] Access is denied";
  md5_hexdigest data := if decide (data = "") then md5_empty else "";
  set_iter X := elements X;
  set_iter_perm X := Permutation_refl (elements X);
|}.

Definition installed : gmap path node :=
  list_to_map [
    (root, Dir); (scripts, Dir); (cmd, Dir);
    (generic_shim, File "dispatcher" false);
    (pathlib.joinpath scripts "stale.exe", File "stale" false);
    (install_dir "2.7", Dir); (install_scripts "2.7", Dir);
    (pathlib.joinpath (install_dir "2.7") "python.exe", File "python-2.7" false);
    (pathlib.joinpath (install_scripts "2.7") "pip.exe", File "pip-2.7" false);
    (pathlib.joinpath (install_scripts "2.7") "pip2.7.exe", File "pip-2.7" false);
    (pathlib.joinpath (install_scripts "2.7") "wheel.exe", File "wheel-2.7" false);
    (pathlib.joinpath (install_scripts "2.7") "python3.shim", File "notes-2.7" false);
    (install_dir "3.6", Dir); (install_scripts "3.6", Dir);
    (pathlib.joinpath (install_dir "3.6") "python.exe", File "python-3.6" false);
    (pathlib.joinpath (install_scripts "3.6") "pip.exe", File "pip-3.6" false);
    (pathlib.joinpath (install_scripts "3.6") "pip3.6.exe", File "pip-3.6" false);
    (pathlib.joinpath (install_scripts "3.6") "wheel.exe", File "wheel-3.6" false);
    (pathlib.joinpath (install_scripts "3.6") "python3.shim", File "notes-3.6" false)
  ].

(** Nothing is active yet. *)
Definition fresh : state := State installed None.

(** Three versions are active, in this order of precedence. *)
Definition three_active : state :=
  State installed (Some (str.join str.newline ["3.6"; "3.5"; "2.7"])).


(** The script [pip3.6.exe] of 3.6 is read-only. *)
Definition read_only_script : state :=
  State (<[pathlib.joinpath (install_scripts "3.6") "pip3.6.exe" := File "pip-3.6" true]>
           installed) None.

(** Two versions are active. *)
Definition two_active : state :=
  State installed (Some (str.join str.newline ["3.6"; "2.7"])).


End scenario.

(** ** More of the concrete host

    The same installation on a host that can install 64-bit builds, a
    shared scripts directory with a read-only entry and a registry. *)

Module examples.
Import scenario.

Definition host64 : Host := {|
  get_scripts_dir_path := scripts;
  get_generic_shim_path := generic_shim;
  can_install_64bit := true;
  versions_dir := catalog;
  major_version := @major_version host;
  get_installation := @get_installation host;
  python_commands := @python_commands host;
  pip_commands := @pip_commands host;
  version_str := @version_str host;
  exn_str := @exn_str host;
  md5_hexdigest := @md5_hexdigest host;
  set_iter X := elements X;
  set_iter_perm X := Permutation_refl (elements X);
|}.


Definition v363 : Version := version "3.6.3" cpython [3; 6; 3]%Z.
Definition v363_32 : Version := version "3.6.3-32" cpython [3; 6; 3]%Z.

(** The catalog as [versions.get_versions()] lists it. *)
Definition listed : list Version := [v27; v35; v36; v363; v363_32].

(** Only 3.6 is installed. *)
Definition only_36 (v : Version) : bool := bool_decide (name v = "3.6").

(** [HKEY_CURRENT_USER], with 3.6 installed and a leftover key of 3.5
    that has lost its install path. *)
Definition hkcu : winreg.key :=
  winreg.Key "HKEY_CURRENT_USER" "" [
    winreg.Key "Software" "" [
      winreg.Key "Python" "" [
        winreg.Key "PythonCore" "" [
          winreg.Key "3.5" "" [];
          winreg.Key "3.6" "" [winreg.Key "InstallPath" "snafu\Python3.6" []]
        ]]]].

End examples.

(** * Reasoning about computations *)

(** ** Strings *)

Lemma length_app (a b : string) :
  String.length (a +:+ b) = String.length a + String.length b.
Proof. induction a as [|c a IH]; simpl; [done | by rewrite IH]. Qed.

Lemma app_ne_self (a b : string) : b ≠ "" → a +:+ b ≠ a.
Proof.
  intros Hb Heq. apply (f_equal String.length) in Heq.
  rewrite length_app in Heq. destruct b; [done | simpl in Heq; lia].
Qed.

(** ** Running a computation *)

Lemma run_bind {A B} (m : M A) (k : A → M B) s :
  (m ≫= k) s =
    match m s with
    | (Ok a, s', l) => let '(r, s'', l') := k a s' in (r, s'', l ++ l')
    | (Raise e, s', l) => (Raise e, s', l)
    end.
Proof. reflexivity. Qed.

Lemma run_bind_Ok {A B} (m : M A) (k : A → M B) s a s' l :
  m s = (Ok a, s', l) →
  (m ≫= k) s = let '(r, s'', l') := k a s' in (r, s'', l ++ l').
Proof. intros Hm. by rewrite run_bind, Hm. Qed.

Lemma run_bind_Raise {A B} (m : M A) (k : A → M B) s e s' l :
  m s = (Raise e, s', l) → (m ≫= k) s = (Raise e, s', l).
Proof. intros Hm. by rewrite run_bind, Hm. Qed.

Lemma run_bind_inv {A B} (m : M A) (k : A → M B) s b s2 l :
  (m ≫= k) s = (Ok b, s2, l) →
  ∃ a s1 l1 l2, m s = (Ok a, s1, l1) ∧ k a s1 = (Ok b, s2, l2) ∧ l = l1 ++ l2.
Proof.
  rewrite run_bind. destruct (m s) as [[[a|e] s1] l1]; [|done].
  destruct (k a s1) as [[r s1'] l2] eqn:Hk. intros [= -> -> <-]. eauto 10.
Qed.

Lemma run_for_app {A} (l1 l2 : list A) (body : A → M unit) s :
  for_ (l1 ++ l2) body s = (for_ l1 body ;; for_ l2 body) s.
Proof.
  revert s. induction l1 as [|x l1 IH]; intros s; simpl.
  - rewrite run_bind. simpl. by destruct (for_ l2 body s) as [[??]?].
  - rewrite !run_bind. destruct (body x s) as [[[[]|e] s1] l]; [|done].
    rewrite IH, run_bind. destruct (for_ l1 body s1) as [[[[]|e1] s2] l']; [|done].
    destruct (for_ l2 body s2) as [[? ?] ?]. by rewrite (assoc_L (++)).
Qed.

Lemma hoare_conseq {A} (P P' : state → list event → Prop) (m : M A)
    (Q Q' : A → state → list event → Prop) :
  hoare P' m Q' → (∀ s l, P s l → P' s l) → (∀ a s l, Q' a s l → Q a s l) →
  hoare P m Q.
Proof. intros Hm HP HQ s l0 HPs a s' l Hrun. eapply HQ, Hm; eauto. Qed.

Lemma hoare_ret {A} (a : A) (Q : A → state → list event → Prop) :
  hoare (Q a) (mret a) Q.
Proof. intros s l0 HQ a' s' l [= <- <- <-]. by rewrite (right_id_L [] (++)). Qed.

Lemma hoare_bind {A B} (P : state → list event → Prop) (m : M A) (k : A → M B)
    (R : A → state → list event → Prop) (Q : B → state → list event → Prop) :
  hoare P m R → (∀ a, hoare (R a) (k a) Q) → hoare P (m ≫= k) Q.
Proof.
  intros Hm Hk s l0 HP b s2 l (a & s1 & l1 & l2 & Hm1 & Hk1 & ->)%run_bind_inv.
  rewrite (assoc_L (++)). eapply Hk; [|done]. eapply Hm; done.
Qed.

Lemma hoare_for {A} (I : state → list event → Prop) (l : list A) (body : A → M unit) :
  (∀ x, x ∈ l → hoare I (body x) (λ _, I)) →
  hoare I (for_ l body) (λ _, I).
Proof.
  induction l as [|x l IH]; intros Hbody; simpl.
  - apply (hoare_ret tt (λ _, I)).
  - eapply hoare_bind; [apply Hbody; left|].
    intros []. apply IH. intros y Hy. apply Hbody. by right.
Qed.

Lemma hoare_get_state (Q : state → state → list event → Prop) :
  hoare (λ s l, Q s s l) get_state Q.
Proof. intros s l0 HQ a s' l [= <- <- <-]. by rewrite (right_id_L [] (++)). Qed.

Lemma hoare_emit (e : event) (Q : unit → state → list event → Prop) :
  hoare (λ s l, Q tt s (l ++ [e])) (emit e) Q.
Proof. by intros s l0 HQ a s' l [= <- <- <-]. Qed.

Lemma hoare_when (b : bool) (m : M unit) (P : state → list event → Prop)
    (Q : unit → state → list event → Prop) :
  (b = true → hoare P m Q) → (b = false → ∀ s l, P s l → Q tt s l) →
  hoare P (when b m) Q.
Proof.
  destruct b; simpl; intros Ht Hf; [by apply Ht|].
  eapply hoare_conseq; [apply hoare_ret| |done]. intros; by apply Hf.
Qed.

(** * The claims *)

Section claims.
Context `{!Host}.

(** C6. [activate] with an empty version list and [allow_empty] false
    fails (it exits with code 1 after one line on standard error), and
    the failure modifies nothing: the final state is the initial state
    and the log holds no file-system event, so the teardown of the
    shared scripts directory never begins. *)
Theorem activate_empty_fails (quiet : bool) (s : state) :
  operations.activate [] false quiet s =
    (Raise (Exit 1), s, [Stderr "No active versions."]).
Proof. reflexivity. Qed.

(** C2, amended. [save_installer] succeeds if and only if the MD5
    digest of the payload equals the descriptor's stored checksum and
    the target path can be written, that is, its directory exists and
    the path itself is neither a directory nor a read-only file. On a
    mismatch, whatever the target path, it raises
    [DownloadIntegrityError], leaves the state (hence the target path)
    as it was and performs no file-system event. *)
Theorem save_installer_integrity (self : Version) (data : string) (into_path : path) (s : state) :
  (succeeds (versions.save_installer self data into_path) s ↔
     md5_hexdigest data = md5_sum self ∧
     os.parent_is_dir (fs s) into_path = true ∧
     (fs s !! into_path = None ∨ ∃ old, fs s !! into_path = Some (File old false))) ∧
  (md5_hexdigest data ≠ md5_sum self →
     ∃ msg, versions.save_installer self data into_path s =
              (Raise (DownloadIntegrityError msg), s, [])).
Proof.
  unfold versions.save_installer. split.
  - case_bool_decide as Hsum.
    + split; [by intros (? & ? & ? & ?) | by intros [? _]].
    + unfold succeeds, os.write. rewrite run_bind. simpl.
      destruct (os.parent_is_dir (fs s) into_path); simpl.
      * destruct (fs s !! into_path) as [[old [|]|]|]; simpl.
        -- split; [by intros (? & ? & ? & ?) | by intros (_ & _ & [[=] | [? [=]]])].
        -- split; [|by eauto]. intros _. eauto 10.
        -- split; [by intros (? & ? & ? & ?) | by intros (_ & _ & [[=] | [? [=]]])].
        -- split; [|by eauto]. intros _. eauto 10.
      * split; [by intros (? & ? & ? & ?) | by intros (_ & [=] & _)].
  - intros Hsum. rewrite bool_decide_true by done. eauto.
Qed.

(** C3. On a host that cannot run 64-bit binaries, resolving a name
    without the [-32] suffix for which the catalog holds a [<name>-32]
    entry returns that entry's descriptor, does not fail, and reports
    the substitution with one notice on standard output. *)
Theorem get_version_selects_32 (requested : string) (d : descriptor)
    (ty : InstallerType) (s : state) :
  can_install_64bit = false →
  str.endswith requested "-32" = false →
  versions_dir !! (requested +:+ "-32") = Some d →
  InstallerType_of (installer_type d) = Some ty →
  operations.get_version requested s =
    (Ok {| name := requested +:+ "-32"; url := json_url d; md5_sum := json_md5_sum d;
           version_info := json_version_info d; klass := ty |},
     s,
     [Stdout ("Note: Selecting " +:+ (requested +:+ "-32") +:+ " instead of " +:+ requested)]).
Proof.
  intros H64 Hsuffix Hentry Hty.
  unfold operations.get_version, versions.get_version_force_32, versions.get_version.
  rewrite H64, Hsuffix, Hentry, Hty. simpl.
  rewrite run_bind. unfold try_except. simpl.
  rewrite bool_decide_true by (by apply app_ne_self). reflexivity.
Qed.

Lemma list_remove_absent (x : string) (l : list string) :
  x ∉ l → operations.list_remove x l = None.
Proof.
  induction l as [|y l IH]; [done|]. intros [Hne Hnot]%not_elem_of_cons. simpl.
  rewrite decide_False by done. by rewrite IH.
Qed.

Lemma remove_loop_absent (remove : list Version) (active_names : list string) (s : state) :
  (∀ v, v ∈ remove → name v ∉ active_names) →
  operations.remove_loop remove active_names s = (Ok active_names, s, []).
Proof.
  induction remove as [|v remove IH]; intros Habsent; [done|]. simpl.
  rewrite list_remove_absent by (apply Habsent; left).
  apply IH. intros v' Hv'. apply Habsent. by right.
Qed.

Lemma set_iter_length (X : gset string) : length (set_iter X) = size X.
Proof. by rewrite set_iter_perm. Qed.

Lemma elem_of_set_iter (x : string) (X : gset string) : x ∈ set_iter X ↔ x ∈ X.
Proof. by rewrite set_iter_perm, elem_of_elements. Qed.

(** C7. When no version of the removal request is a member of the
    persisted ActiveSet, [update_active_versions] returns without
    touching anything: the state (shared scripts directory and persisted
    list) is unchanged and the log is empty, so no file is written or
    removed and [activate] is not run. *)
Theorem update_active_versions_noop (remove : list Version) (names : list string) (s : state) :
  operations.get_active_names s = (Ok names, s, []) →
  (∀ v, v ∈ remove → name v ∉ names) →
  operations.update_active_versions remove s = (Ok tt, s, []).
Proof.
  intros Hnames Habsent. unfold operations.update_active_versions.
  rewrite (run_bind_Ok _ _ _ _ _ _ Hnames).
  rewrite run_bind, remove_loop_absent.
  - rewrite set_iter_length, bool_decide_false by (intros Hne; by apply Hne). done.
  - intros v Hv. rewrite elem_of_set_iter, elem_of_list_to_set. by apply Habsent.
Qed.

End claims.

Section unlink.
Context `{!Host}.

Lemma run_safe_unlink (q : path) (s : state) :
  operations.safe_unlink q s =
    (Ok tt, set_fs (unlink_if_removable q) s, safe_unlink_log q (fs s)).
Proof.
  unfold operations.safe_unlink, os.exists_, os.exists_in, try_except, os.unlink.
  unfold unlink_if_removable, safe_unlink_log, set_fs.
  rewrite !run_bind. simpl.
  destruct (fs s !! q) as [[data [|]|]|] eqn:Hq; simpl;
    rewrite ?run_bind; simpl; rewrite ?Hq; destruct s as [m pv]; simpl in *.
  all: destruct (decide (removable m q)) as [[d Hd]|Hn]; try congruence.
  all: try reflexivity.
  all: exfalso; apply Hn; by eexists.
Qed.

Lemma lookup_unlink_if_removable (q q' : path) (m : gmap path node) :
  unlink_if_removable q m !! q' =
    if decide (q' = q ∧ removable m q') then None else m !! q'.
Proof.
  unfold unlink_if_removable. destruct (decide (q' = q)) as [->|Hne].
  - destruct (decide (removable m q)) as [Hr|Hr].
    + rewrite lookup_delete_eq, decide_True; done.
    + rewrite decide_False; [done | by intros [_ ?]].
  - rewrite (decide_False (P := _ ∧ _)) by (by intros [? _]).
    case_decide; [by rewrite lookup_delete_ne | done].
Qed.

Lemma removable_unlink_if_removable (q q' : path) (m : gmap path node) :
  removable (unlink_if_removable q m) q' ↔ removable m q' ∧ q' ≠ q.
Proof.
  unfold removable at 1. rewrite lookup_unlink_if_removable. case_decide as Hd.
  - split; [by intros [? ?] | intros [_ Hne]; by destruct Hd].
  - split.
    + intros Hr. split; [done | intros ->; by apply Hd].
    + by intros [Hr _].
Qed.

Lemma lookup_unlink_all (qs : list path) (q' : path) (m : gmap path node) :
  unlink_all qs m !! q' = if decide (q' ∈ qs ∧ removable m q') then None else m !! q'.
Proof.
  revert m. induction qs as [|q qs IH]; intros m.
  - case_decide as Hd; [|done]. destruct Hd as [Hin _]. by apply not_elem_of_nil in Hin.
  - change (unlink_all (q :: qs) m) with (unlink_all qs (unlink_if_removable q m)).
    rewrite IH.
    rewrite lookup_unlink_if_removable.
    destruct (decide (q' ∈ qs ∧ removable (unlink_if_removable q m) q')) as [[Hin Hr]|Hn].
    + apply removable_unlink_if_removable in Hr as [Hr _].
      rewrite decide_True; [done | split; [by right | done]].
    + destruct (decide (q' = q ∧ removable m q')) as [[-> Hr]|Hn'].
      * rewrite decide_True; [done | split; [by left | done]].
      * rewrite decide_False; [done|]. intros [Hin Hr].
        apply elem_of_cons in Hin as [->|Hin]; [by apply Hn'|].
        apply Hn. split; [done|]. apply removable_unlink_if_removable. split; [done|].
        intros ->. by apply Hn'.
Qed.

Lemma unlink_all_absent (qs : list path) (m : gmap path node) :
  (∀ q, q ∈ qs → m !! q = None) → unlink_all qs m = m.
Proof.
  intros Habsent. apply map_eq. intros q'. rewrite lookup_unlink_all.
  case_decide as Hd; [|done]. destruct Hd as [Hin _]. by rewrite Habsent.
Qed.

Lemma set_fs_id (s : state) : set_fs (λ m, m) s = s.
Proof. by destruct s. Qed.

Lemma set_fs_unlink_absent (q : path) (s : state) :
  fs s !! q = None → set_fs (unlink_if_removable q) s = s.
Proof.
  destruct s as [m pv]. unfold set_fs, unlink_if_removable. simpl. intros Hq.
  rewrite decide_False; [done|]. intros [? ?]. congruence.
Qed.

(** The loop of [unlink_commands] over any list of commands. *)
Lemma run_unlink_loop (cmds : list path) (s : state) :
  let targets := p ← cmds; [p; pathlib.with_suffix p ".shim"] in
  ∃ l,
    for_ cmds (λ p,
      click.echo ("Unlinking " +:+ pathlib.name p);;
      operations.safe_unlink p;;
      operations.safe_unlink (pathlib.with_suffix p ".shim")) s
      = (Ok tt, set_fs (unlink_all targets) s, l) ∧
    (∀ q, q ∈ targets → is_Some (fs s !! q) → ¬ removable (fs s) q →
          failed_to_remove q (PermissionError q) ∈ l) ∧
    ((∀ q, q ∈ targets → fs s !! q = None) → ∀ e, e ∈ l → ∃ line, e = Stdout line).
Proof.
  revert s. induction cmds as [|p cmds IH]; intros s; simpl.
  - exists []. split; [by rewrite set_fs_id|]. split; [|by intros _ e ?%not_elem_of_nil].
    by intros q ?%not_elem_of_nil.
  - set (sc := pathlib.with_suffix p ".shim").
    set (s1 := set_fs (unlink_if_removable p) s).
    set (s2 := set_fs (unlink_if_removable sc) s1).
    destruct (IH s2) as (l & Hrun & Hfail & Hquiet).
    eexists. split; [|split].
    + cbn [for_]. rewrite run_bind, (run_bind (click.echo _)).
      unfold click.echo at 1, emit at 1. cbn iota beta.
      rewrite run_bind, run_safe_unlink, run_safe_unlink. fold s1 s2. cbn iota beta.
      rewrite Hrun. reflexivity.
    + intros q Hq Hsome Hnr.
      assert (Hkeep1 : fs s1 !! q = fs s !! q).
      { simpl. rewrite lookup_unlink_if_removable. rewrite decide_False; [done | by intros [_ ?]]. }
      assert (Hkeep2 : fs s2 !! q = fs s !! q).
      { simpl. rewrite lookup_unlink_if_removable.
        rewrite decide_False; [done|]. intros [_ [Hr _]%removable_unlink_if_removable]. done. }
      assert (Hlogged : ∀ m, m !! q = fs s !! q →
                failed_to_remove q (PermissionError q) ∈ safe_unlink_log q m).
      { intros m Hm. unfold safe_unlink_log. rewrite Hm. destruct Hsome as [n Hn]. rewrite Hn.
        destruct n as [data [|]|]; [by left | | by left]. exfalso. apply Hnr. by exists data. }
      apply elem_of_cons in Hq as [->|Hq]; [|apply elem_of_cons in Hq as [->|Hq]].
      * specialize (Hlogged (fs s) eq_refl).
        rewrite ?elem_of_cons, ?elem_of_app. tauto.
      * specialize (Hlogged (fs s1) Hkeep1).
        rewrite ?elem_of_cons, ?elem_of_app. tauto.
      * assert (failed_to_remove q (PermissionError q) ∈ l) as Hl;
          [|rewrite ?elem_of_cons, ?elem_of_app; tauto].
        apply Hfail; [done | by rewrite Hkeep2 |].
        unfold removable. by rewrite Hkeep2.
    + intros Habsent e He.
      assert (Hp : fs s !! p = None) by (apply Habsent; by left).
      assert (Hsc : fs s !! sc = None) by (apply Habsent; right; by left).
      assert (Hs1 : s1 = s) by (by apply set_fs_unlink_absent).
      assert (Hs2 : s2 = s) by (unfold s2; rewrite Hs1; by apply set_fs_unlink_absent).
      assert (Hl1 : safe_unlink_log p (fs s) = []) by (unfold safe_unlink_log; by rewrite Hp).
      assert (Hl2 : safe_unlink_log sc (fs s1) = []).
      { rewrite Hs1. unfold safe_unlink_log. by rewrite Hsc. }
      rewrite Hl1, Hl2 in He. simpl in He.
      apply elem_of_cons in He as [->|He]; [by eexists|].
      apply Hquiet; [|done].
      intros q Hq. rewrite Hs2. apply Habsent. right. by right.
Qed.

(** C9. [unlink_commands] always completes without raising. It removes
    exactly the declared commands and sidecars that are removable files,
    and leaves every other path as it was; for each declared path that
    exists but resists removal, the failure is logged on standard error
    while the other removals are still carried out. When every declared
    command and sidecar is already absent, nothing is removed: the
    state is unchanged and the log holds standard-output lines only. *)
Theorem unlink_commands_tolerant (version : Version) (s : state) :
  ∃ s' l,
    operations.unlink_commands version s = (Ok tt, s', l) ∧
    python_versions s' = python_versions s ∧
    (∀ q, fs s' !! q =
            if decide (q ∈ unlink_targets version ∧ removable (fs s) q)
            then None else fs s !! q) ∧
    (∀ q, q ∈ unlink_targets version → is_Some (fs s !! q) → ¬ removable (fs s) q →
          failed_to_remove q (PermissionError q) ∈ l) ∧
    ((∀ q, q ∈ unlink_targets version → fs s !! q = None) →
       s' = s ∧ ∀ e, e ∈ l → ∃ line, e = Stdout line).
Proof.
  destruct (run_unlink_loop (python_commands version ++ pip_commands version) s)
    as (l & Hrun & Hfail & Hquiet).
  eexists _, l. split; [exact Hrun|]. split; [done|]. split; [|split; [done|]].
  - intros q. apply lookup_unlink_all.
  - intros Habsent. split; [|by apply Hquiet].
    unfold unlink_targets in Habsent.
    rewrite <-(set_fs_id s) at 2. destruct s as [m pv]. unfold set_fs. simpl in *.
    by rewrite unlink_all_absent.
Qed.

End unlink.

Section quiet.
Context `{!Host}.

Lemma silent_app (l1 l2 : list event) : silent (l1 ++ l2) = silent l1 ++ silent l2.
Proof. apply filter_app. Qed.

Lemma quiet_eq_refl {A} (m : M A) : quiet_eq m m.
Proof. by intros s. Qed.

Lemma quiet_eq_bind {A B} (m1 m2 : M A) (k1 k2 : A → M B) :
  quiet_eq m1 m2 → (∀ a, quiet_eq (k1 a) (k2 a)) → quiet_eq (m1 ≫= k1) (m2 ≫= k2).
Proof.
  intros Hm Hk s. rewrite !run_bind. specialize (Hm s).
  destruct (m1 s) as [[r1 s1] l1], (m2 s) as [[r2 s2] l2]. simpl in Hm.
  destruct Hm as (-> & -> & Hl). destruct r2 as [a|e]; [|done].
  specialize (Hk a s2).
  destruct (k1 a s2) as [[r1' s1'] l1'], (k2 a s2) as [[r2' s2'] l2']. simpl in *.
  destruct Hk as (-> & -> & Hl'). by rewrite !silent_app, Hl, Hl'.
Qed.

Lemma quiet_eq_echo (b1 b2 : bool) (line1 line2 : string) :
  quiet_eq (when b1 (click.echo line1)) (when b2 (click.echo line2)).
Proof. intros s. by destruct b1, b2. Qed.

Lemma quiet_eq_for {A} (l : list A) (f g : A → M unit) :
  (∀ x, quiet_eq (f x) (g x)) → quiet_eq (for_ l f) (for_ l g).
Proof.
  intros Hfg. induction l as [|x l IH]; simpl; [apply quiet_eq_refl|].
  apply quiet_eq_bind; [apply Hfg | intros _; apply IH].
Qed.

Lemma quiet_eq_publish_shim (target content : path) (overwrite q1 q2 : bool) :
  quiet_eq (operations.publish_shim target content overwrite q1)
           (operations.publish_shim target content overwrite q2).
Proof.
  unfold operations.publish_shim. apply quiet_eq_bind; [apply quiet_eq_refl|]. intros e.
  destruct (negb overwrite && e); [apply quiet_eq_refl|].
  apply quiet_eq_bind; [apply quiet_eq_echo | intros _; apply quiet_eq_refl].
Qed.

Lemma quiet_eq_publish_file (source target : path) (overwrite q1 q2 : bool) :
  quiet_eq (operations.publish_file source target overwrite q1)
           (operations.publish_file source target overwrite q2).
Proof.
  unfold operations.publish_file. apply quiet_eq_bind; [apply quiet_eq_refl|]. intros e.
  destruct (negb overwrite && e); [apply quiet_eq_refl|].
  apply quiet_eq_bind; [apply quiet_eq_echo | intros _; apply quiet_eq_refl].
Qed.

Lemma quiet_eq_publish_version_scripts (version : Version) (target_dir : path)
    (q1 q2 overwrite : bool) :
  quiet_eq (operations.publish_version_scripts version target_dir q1 overwrite)
           (operations.publish_version_scripts version target_dir q2 overwrite).
Proof.
  unfold operations.publish_version_scripts, operations.publish_python_command.
  apply quiet_eq_bind; [apply quiet_eq_echo | intros _].
  apply quiet_eq_bind; [apply quiet_eq_publish_shim | intros _].
  apply quiet_eq_bind; [apply quiet_eq_refl | intros is_dir].
  destruct is_dir; [|apply quiet_eq_refl].
  apply quiet_eq_bind; [apply quiet_eq_refl | intros paths].
  apply quiet_eq_for. intros p. case_bool_decide; [apply quiet_eq_refl|].
  apply quiet_eq_bind; [apply quiet_eq_refl | intros is_file].
  destruct (negb is_file); [apply quiet_eq_refl | apply quiet_eq_publish_file].
Qed.

Lemma quiet_eq_activate (versions : list Version) (allow_empty q1 q2 : bool) :
  quiet_eq (operations.activate versions allow_empty q1)
           (operations.activate versions allow_empty q2).
Proof.
  unfold operations.activate.
  apply quiet_eq_bind; [apply quiet_eq_refl | intros _].
  apply quiet_eq_bind; [apply quiet_eq_echo | intros _].
  apply quiet_eq_bind; [apply quiet_eq_refl | intros ps].
  apply quiet_eq_bind; [apply quiet_eq_refl | intros _].
  apply quiet_eq_bind; [|intros _; apply quiet_eq_refl].
  apply quiet_eq_for. intros v. apply quiet_eq_publish_version_scripts.
Qed.

(** C10. The [quiet] flag is output-only: from every state,
    [publish_shim], [publish_file] and [activate] run with [quiet] true
    and with [quiet] false return the same result and reach the same
    final state (same files, same sidecar contents, same persisted
    ActiveSet), and their logs agree once standard-output lines are
    dropped (same file-system events in the same order, same
    standard-error lines). *)
Theorem quiet_is_output_only :
  (∀ target content overwrite,
     quiet_eq (operations.publish_shim target content overwrite true)
              (operations.publish_shim target content overwrite false)) ∧
  (∀ source target overwrite,
     quiet_eq (operations.publish_file source target overwrite true)
              (operations.publish_file source target overwrite false)) ∧
  (∀ versions allow_empty,
     quiet_eq (operations.activate versions allow_empty true)
              (operations.activate versions allow_empty false)).
Proof.
  split; [|split]; intros.
  - apply quiet_eq_publish_shim.
  - apply quiet_eq_publish_file.
  - apply quiet_eq_activate.
Qed.

End quiet.

Lemma run_bind_Ok_inv {A B} (m : M A) (k : A → M B) s a s1 l1 b s2 l :
  m s = (Ok a, s1, l1) → (m ≫= k) s = (Ok b, s2, l) →
  ∃ l2, k a s1 = (Ok b, s2, l2) ∧ l = l1 ++ l2.
Proof.
  intros Hm (a' & s1' & l1' & l2 & Hm' & Hk & ->)%run_bind_inv.
  rewrite Hm in Hm'. injection Hm' as <- <- <-. eauto.
Qed.

(** ** File-system primitives *)

Lemma run_exists (p : path) (s : state) :
  os.exists_ p s = (Ok (os.exists_in (fs s) p), s, []).
Proof. reflexivity. Qed.

Lemma run_is_dir (p : path) (s : state) :
  os.is_dir p s = (Ok (os.is_dir_in (fs s) p), s, []).
Proof. reflexivity. Qed.

Lemma run_is_file (p : path) (s : state) :
  os.is_file p s = (Ok (os.is_file_in (fs s) p), s, []).
Proof. reflexivity. Qed.

Lemma exists_in_true (m : gmap path node) (p : path) :
  os.exists_in m p = true ↔ is_Some (m !! p).
Proof. unfold os.exists_in. by rewrite bool_decide_eq_true. Qed.

Lemma exists_in_false (m : gmap path node) (p : path) :
  os.exists_in m p = false ↔ m !! p = None.
Proof. unfold os.exists_in. by rewrite bool_decide_eq_false, eq_None_not_Some. Qed.

Lemma write_inv (p : path) (data : string) (s s' : state) (a : unit) (l : list event) :
  os.write p data s = (Ok a, s', l) →
  s' = set_fs <[p := File data false]> s ∧ l = [Written p data] ∧
  (fs s !! p = None ∨ ∃ old, fs s !! p = Some (File old false)).
Proof.
  unfold os.write. rewrite run_bind. simpl.
  destruct (os.parent_is_dir (fs s) p); simpl; [|done].
  destruct (fs s !! p) as [[old [|]|]|]; simpl; try done.
  - intros [= <- <-]. eauto.
  - intros [= <- <-]. eauto.
Qed.

Lemma read_inv (p : path) (s s' : state) (data : string) (l : list event) :
  os.read p s = (Ok data, s', l) →
  s' = s ∧ l = [] ∧ ∃ locked, fs s !! p = Some (File data locked).
Proof.
  unfold os.read. rewrite run_bind. simpl.
  destruct (fs s !! p) as [[old lk|]|]; simpl; try done.
  intros [= <- <- <-]. eauto.
Qed.

Lemma copy2_inv (src dst : path) (s s' : state) (a : unit) (l : list event) :
  shutil.copy2 src dst s = (Ok a, s', l) →
  ∃ data locked dst',
    dst' = (if os.is_dir_in (fs s) dst then pathlib.joinpath dst (pathlib.name src) else dst) ∧
    fs s !! src = Some (File data locked) ∧
    s' = set_fs <[dst' := File data locked]> s ∧ l = [Written dst' data].
Proof.
  unfold shutil.copy2. rewrite run_bind. simpl.
  set (dst' := if os.is_dir_in (fs s) dst then _ else dst).
  case_bool_decide as Hsame; simpl; [done|].
  rewrite run_bind. destruct (os.read src s) as [[[data|e] s1] l1] eqn:Hread; [|done].
  apply read_inv in Hread as (-> & -> & locked & Hsrc).
  rewrite run_bind.
  destruct (os.write dst' data s) as [[[[]|e] s2] l2] eqn:Hwrite; [|done].
  apply write_inv in Hwrite as (-> & -> & _).
  unfold shutil.copystat. rewrite run_bind. simpl.
  rewrite lookup_insert_ne, Hsrc, lookup_insert_eq by (intros Heq; by apply Hsame).
  intros [= <- <-]. exists data, locked, dst'. split; [done|]. split; [done|].
  split; [|done]. unfold set_fs. simpl. by rewrite insert_insert_eq.
Qed.

Section pairing.
Context `{!Host}.


End pairing.


(** ** Suffixes of file names *)

Lemma app_cons (x : ascii) (a b : string) : String x a +:+ b = String x (a +:+ b).
Proof. reflexivity. Qed.

Lemma app_nil_l (b : string) : "" +:+ b = b.
Proof. reflexivity. Qed.

Lemma app_assoc_str (a b c : string) : (a +:+ b) +:+ c = a +:+ (b +:+ c).
Proof. induction a as [|x a IH]; [done|]. by rewrite !app_cons, IH. Qed.

Lemma rfind_go_app (c : ascii) (a b : string) (i : nat) (last : option nat) :
  str.rfind_go c (a +:+ b) i last =
    str.rfind_go c b (i + String.length a) (str.rfind_go c a i last).
Proof.
  revert i last. induction a as [|x a IH]; intros i last.
  - rewrite app_nil_l. simpl. by rewrite Nat.add_0_r.
  - rewrite app_cons. simpl. rewrite IH. f_equal. lia.
Qed.

Lemma substring_app_l (a b : string) :
  String.substring 0 (String.length a) (a +:+ b) = a.
Proof.
  induction a as [|x a IH]; [by destruct b|]. rewrite app_cons. simpl. by rewrite IH.
Qed.

Lemma substring_all (b : string) : String.substring 0 (String.length b) b = b.
Proof. induction b as [|x b IH]; simpl; [done | by rewrite IH]. Qed.

Lemma substring_app_r (a b : string) :
  String.substring (String.length a) (String.length b) (a +:+ b) = b.
Proof.
  induction a as [|x a IH]; [apply substring_all|]. rewrite app_cons. simpl. done.
Qed.

(** A name [x.exe] with a non-empty [x] has stem [x] and suffix [.exe]. *)
Lemma split_suffix_exe (x : string) :
  x ≠ "" → pathlib.split_suffix (x +:+ ".exe") = (x, ".exe").
Proof.
  intros Hx. unfold pathlib.split_suffix, str.rfind.
  rewrite rfind_go_app. simpl. rewrite length_app. simpl.
  rewrite bool_decide_true.
  - replace (String.length x + 4 - String.length x) with (String.length ".exe") by (simpl; lia).
    by rewrite substring_app_l, substring_app_r.
  - destruct x; [done | simpl; lia].
Qed.

Lemma app_inj_r (a b c : string) : a +:+ c = b +:+ c → a = b.
Proof.
  revert b. induction a as [|x a IH]; intros [|y b] Heq.
  - done.
  - apply (f_equal String.length) in Heq. rewrite !length_app in Heq. simpl in Heq. lia.
  - apply (f_equal String.length) in Heq. rewrite !length_app in Heq. simpl in Heq. lia.
  - rewrite !app_cons in Heq. injection Heq as -> Heq. f_equal. by apply IH.
Qed.

(** ** Directory listings *)

Lemma elem_of_listdir (m : gmap path node) (d p : path) :
  p ∈ os.listdir m d ↔ pathlib.child_of d p ∧ is_Some (m !! p).
Proof.
  unfold os.listdir. rewrite list_elem_of_fmap. split.
  - intros [[q n] [-> Hin]]. apply elem_of_map_to_list in Hin.
    apply map_lookup_filter_Some in Hin as [Hq Hchild]. eauto.
  - intros [Hchild [n Hn]]. exists (p, n). split; [done|].
    apply elem_of_map_to_list. by apply map_lookup_filter_Some.
Qed.

Lemma NoDup_listdir (m : gmap path node) (d : path) : NoDup (os.listdir m d).
Proof. apply NoDup_fst_map_to_list. Qed.

Lemma child_of_joinpath (d : path) (n : string) : pathlib.child_of d (pathlib.joinpath d n).
Proof. done. Qed.

Lemma child_of_with_suffix (d p : path) (suffix : string) :
  pathlib.child_of d p → pathlib.child_of d (pathlib.with_suffix p suffix).
Proof. done. Qed.

Lemma child_of_name (d p : path) :
  pathlib.child_of d p → p = pathlib.joinpath d (pathlib.name p).
Proof. destruct p as [n ds]. unfold pathlib.child_of, pathlib.joinpath. simpl. by intros ->. Qed.

Lemma not_child_of_self (d : path) : ¬ pathlib.child_of d d.
Proof.
  destruct d as [n ds]. unfold pathlib.child_of. simpl. intros Heq.
  apply (f_equal length) in Heq. simpl in Heq. lia.
Qed.

Lemma child_of_inj (d d' p : path) :
  pathlib.child_of d p → pathlib.child_of d' p → d = d'.
Proof.
  destruct d, d'. unfold pathlib.child_of. simpl. intros -> [= -> ->]. done.
Qed.

(** ** The teardown loop *)

Lemma lookup_delete_all (ps : list path) (q : path) (m : gmap path node) :
  delete_all ps m !! q = if decide (q ∈ ps) then None else m !! q.
Proof.
  revert m. induction ps as [|p ps IH]; intros m.
  - by rewrite decide_False by apply not_elem_of_nil.
  - change (delete_all (p :: ps) m) with (delete_all ps (delete p m)). rewrite IH.
    destruct (decide (q ∈ ps)) as [Hin|Hnin].
    + rewrite decide_True; [done | by right].
    + destruct (decide (q = p)) as [->|Hne].
      * rewrite lookup_delete_eq, decide_True; [done | by left].
      * rewrite lookup_delete_ne by done. rewrite decide_False; [done|].
        by intros [?|?]%elem_of_cons.
Qed.

Lemma run_unlink (p : path) (s : state) :
  os.unlink p s =
    match fs s !! p with
    | Some (File _ false) => (Ok tt, set_fs (delete p) s, [Unlinked p])
    | None => (Raise (FileNotFoundError p), s, [])
    | Some _ => (Raise (PermissionError p), s, [])
    end.
Proof.
  unfold os.unlink. rewrite run_bind. simpl.
  by destruct (fs s !! p) as [[data [|]|]|].
Qed.

Lemma set_fs_set_fs (f g : gmap path node → gmap path node) (s : state) :
  set_fs f (set_fs g s) = set_fs (λ m, f (g m)) s.
Proof. done. Qed.

Lemma run_teardown (ps : list path) (s : state) :
  NoDup ps → (∀ p, p ∈ ps → removable (fs s) p) →
  for_ ps os.unlink s = (Ok tt, set_fs (delete_all ps) s, Unlinked <$> ps).
Proof.
  revert s. induction ps as [|p ps IH]; intros s Hnodup Hrem.
  - simpl. by rewrite set_fs_id.
  - apply NoDup_cons in Hnodup as [Hp Hnodup]. cbn [for_]. rewrite run_bind, run_unlink.
    destruct (Hrem p) as [data Hdata]; [by left|]. rewrite Hdata.
    rewrite IH; [done | done |].
    intros q Hq. destruct (Hrem q) as [d Hd]; [by right|]. exists d. simpl.
    rewrite lookup_delete_ne; [done | by intros ->].
Qed.

Lemma teardown_inv (ps : list path) (s s' : state) (a : unit) (l : list event) :
  for_ ps os.unlink s = (Ok a, s', l) →
  (∀ p, p ∈ ps → removable (fs s) p) ∧ s' = set_fs (delete_all ps) s.
Proof.
  revert s l. induction ps as [|p ps IH]; intros s l; cbn [for_].
  - intros [= <- <-]. split; [by intros p ?%not_elem_of_nil | by rewrite set_fs_id].
  - rewrite run_bind, run_unlink.
    destruct (fs s !! p) as [[data [|]|]|] eqn:Hp; try done.
    destruct (for_ ps os.unlink _) as [[r s1] l1] eqn:Hrest. intros [= -> -> <-].
    apply IH in Hrest as [Hrem ->]. split; [|done].
    intros q [->|Hq]%elem_of_cons; [by exists data|].
    destruct (Hrem q Hq) as [d Hd]. exists d. simpl in Hd.
    by apply lookup_delete_Some in Hd as [_ Hd].
Qed.

(** ** Publishing into the shared scripts directory *)

Section rebuild.
Context `{!Host}.

Lemma run_when_echo (quiet : bool) (line : string) (s : state) :
  when (negb quiet) (click.echo line) s = (Ok tt, s, echo_log quiet line).
Proof. by destruct quiet. Qed.

Lemma publish_file_inv (source target : path) (quiet : bool) (s s' : state)
    (a : unit) (l : list event) :
  operations.publish_file source target false quiet s = (Ok a, s', l) →
  (is_Some (fs s !! target) ∧ s' = s ∧ l = []) ∨
  (fs s !! target = None ∧
   ∃ data locked,
     fs s !! source = Some (File data locked) ∧
     s' = set_fs <[target := File data locked]> s ∧
     l = echo_log quiet ("  " +:+ pathlib.name target) ++ [Written target data]).
Proof.
  unfold operations.publish_file. intros Hrun.
  apply (run_bind_Ok_inv _ _ _ _ _ _ _ _ _ (run_exists target s)) in Hrun as (l0 & Hrun & ->).
  simpl in Hrun. destruct (os.exists_in (fs s) target) eqn:Hex.
  - injection Hrun as <- <-. left. by apply exists_in_true in Hex.
  - apply exists_in_false in Hex.
    apply (run_bind_Ok_inv _ _ _ _ _ _ _ _ _ (run_when_echo _ _ s)) in Hrun as (l1 & Hrun & ->).
    apply copy2_inv in Hrun as (data & locked & dst' & Hdst' & Hsrc & -> & ->).
    unfold os.is_dir_in in Hdst'. rewrite Hex in Hdst'. subst dst'. right. eauto 10.
Qed.

Lemma publish_shim_inv (target content : path) (quiet : bool) (s s' : state)
    (a : unit) (l : list event) :
  operations.publish_shim target content false quiet s = (Ok a, s', l) →
  (is_Some (fs s !! target) ∧ s' = s ∧ l = []) ∨
  (fs s !! target = None ∧
   ∃ data locked,
     <[sidecar target := File (pathlib.to_str content) false]> (fs s)
       !! get_generic_shim_path = Some (File data locked) ∧
     s' = set_fs <[target := File data locked]>
            (set_fs <[sidecar target := File (pathlib.to_str content) false]> s) ∧
     l = echo_log quiet ("  " +:+ pathlib.name target) ++
         [Written (sidecar target) (pathlib.to_str content); Written target data]).
Proof.
  unfold operations.publish_shim. intros Hrun.
  apply (run_bind_Ok_inv _ _ _ _ _ _ _ _ _ (run_exists target s)) in Hrun as (l0 & Hrun & ->).
  simpl in Hrun. destruct (os.exists_in (fs s) target) eqn:Hex.
  - injection Hrun as <- <-. left. by apply exists_in_true in Hex.
  - apply exists_in_false in Hex.
    apply (run_bind_Ok_inv _ _ _ _ _ _ _ _ _ (run_when_echo _ _ s)) in Hrun as (l1 & Hrun & ->).
    apply run_bind_inv in Hrun as ([] & s1 & l2 & l3 & Hwrite & Hcopy & ->).
    apply write_inv in Hwrite as (-> & -> & _).
    apply copy2_inv in Hcopy as (data & locked & dst' & Hdst' & Hsrc & -> & ->).
    assert (dst' = target) as ->.
    { rewrite Hdst'. unfold os.is_dir_in. simpl.
      destruct (decide (pathlib.with_suffix target ".shim" = target)) as [->|Hne].
      - by rewrite lookup_insert_eq.
      - rewrite lookup_insert_ne by done. by rewrite Hex. }
    right. split; [done|]. exists data, locked. done.
Qed.

Lemma stable_echo_log (X : path → Prop) (I : state → list event → Prop)
    (quiet : bool) (line : string) (s : state) (l : list event) :
  stable X I → I s l → I s (l ++ echo_log quiet line).
Proof.
  intros [Hecho _] HI. destruct quiet; simpl; [by rewrite (right_id_L [] (++)) | by apply Hecho].
Qed.

Lemma publish_file_stable (X : path → Prop) (I P : state → list event → Prop)
    (source target : path) (quiet : bool) :
  stable X I →
  pathlib.child_of get_scripts_dir_path target →
  (∀ s l, P s l → I s l) →
  (∀ s l, P s l → X target → is_Some (fs s !! target)) →
  hoare P (operations.publish_file source target false quiet) (λ _, I).
Proof.
  intros Hstable Hchild HPI HX s l0 HP a s' l Hrun.
  apply publish_file_inv in Hrun
    as [(Hsome & -> & ->) | (Hnone & data & locked & Hsrc & -> & ->)].
  - rewrite (right_id_L [] (++)). by apply HPI.
  - rewrite (assoc_L (++)). apply Hstable; [|done|].
    + eapply stable_echo_log; [done | by apply HPI].
    + intros HXt. destruct (HX s l0 HP HXt) as [? ?]. congruence.
Qed.

Lemma publish_shim_stable (X : path → Prop) (I : state → list event → Prop)
    (target content : path) (quiet : bool) :
  stable X I →
  pathlib.child_of get_scripts_dir_path target →
  (∀ s l, I s l → X target ∨ X (sidecar target) → is_Some (fs s !! target)) →
  hoare I (operations.publish_shim target content false quiet) (λ _, I).
Proof.
  intros Hstable Hchild HX s l0 HI a s' l Hrun.
  apply publish_shim_inv in Hrun
    as [(Hsome & -> & ->) | (Hnone & data & locked & Hsrc & -> & ->)].
  - by rewrite (right_id_L [] (++)).
  - assert (HnX : ¬ (X target ∨ X (sidecar target))).
    { intros HXt. destruct (HX s l0 HI HXt) as [? ?]. congruence. }
    rewrite (assoc_L (++)).
    change [Written (sidecar target) (pathlib.to_str content); Written target data]
      with ([Written (sidecar target) (pathlib.to_str content)] ++ [Written target data]).
    rewrite (assoc_L (++)).
    apply Hstable; [|done|tauto].
    apply Hstable; [|done|tauto]. by eapply stable_echo_log.
Qed.

Lemma run_iterdir (d : path) (s : state) :
  os.iterdir d s =
    if os.is_dir_in (fs s) d then (Ok (os.listdir (fs s) d), s, [])
    else (Raise (if os.is_file_in (fs s) d then NotADirectoryError d
                 else FileNotFoundError d), s, []).
Proof.
  unfold os.iterdir, os.is_dir_in, os.is_file_in. rewrite run_bind. simpl.
  by destruct (fs s !! d) as [[]|].
Qed.

Lemma publish_version_scripts_unfold (version : Version) (target_dir : path)
    (quiet overwrite : bool) :
  operations.publish_version_scripts version target_dir quiet overwrite =
    (when (negb quiet) (click.echo ("Publishing " +:+ version_str version +:+ "..."));;
     operations.publish_python_command (get_installation version)
       (pathlib.joinpath target_dir (python_command version)) overwrite quiet;;
     publish_scripts version target_dir quiet overwrite).
Proof. reflexivity. Qed.

(** Publishing one script keeps every stable assertion, provided that a
    protected target already exists whenever the script is a file. *)
Lemma publish_script_stable (X : path → Prop) (I : state → list event → Prop)
    (quiet : bool) (p : path) :
  let target := pathlib.joinpath get_scripts_dir_path (pathlib.name p) in
  stable X I →
  (∀ s l, I s l → pathlib.stem p ∉ ["easy_install"; "pip"] →
     os.is_file_in (fs s) p = true → X target → is_Some (fs s !! target)) →
  hoare I (publish_script get_scripts_dir_path quiet false p) (λ _, I).
Proof.
  intros target Hstable HX s l0 HI a s' l Hrun. unfold publish_script in Hrun.
  case_bool_decide as Hstem.
  { injection Hrun as _ <- <-. by rewrite (right_id_L [] (++)). }
  apply (run_bind_Ok_inv _ _ _ _ _ _ _ _ _ (run_is_file _ s)) in Hrun as (l1 & Hrun & ->).
  destruct (os.is_file_in (fs s) p) eqn:Hfile; simpl in Hrun.
  - refine (publish_file_stable X I (λ s l, I s l ∧ os.is_file_in (fs s) p = true)
              _ _ _ Hstable _ _ _ s _ (conj HI Hfile) _ _ _ Hrun).
    + done.
    + by intros ?? [? _].
    + intros ?? [? ?] ?. eapply HX; eauto.
  - injection Hrun as _ <- <-. simpl. by rewrite (right_id_L [] (++)).
Qed.

Lemma publish_scripts_inv (version : Version) (quiet : bool) (s s' : state)
    (a : unit) (l : list event) :
  let scripts_dir := scripts_dir (get_installation version) in
  publish_scripts version get_scripts_dir_path quiet false s = (Ok a, s', l) →
  (os.is_dir_in (fs s) scripts_dir = false ∧ s' = s ∧ l = []) ∨
  (os.is_dir_in (fs s) scripts_dir = true ∧
   for_ (os.listdir (fs s) scripts_dir) (publish_script get_scripts_dir_path quiet false) s
     = (Ok a, s', l)).
Proof.
  intros scripts_dir Hrun. unfold publish_scripts in Hrun.
  apply (run_bind_Ok_inv _ _ _ _ _ _ _ _ _ (run_is_dir _ s)) in Hrun as (l1 & Hrun & ->).
  fold scripts_dir in Hrun.
  destruct (os.is_dir_in (fs s) scripts_dir) eqn:Hdir; simpl in Hrun.
  - right. split; [done|]. rewrite run_bind, run_iterdir in Hrun.
    fold scripts_dir in Hrun. rewrite Hdir in Hrun.
    by destruct (for_ _ _ s) as [[r s2] l2].
  - left. by injection Hrun as _ <- <-.
Qed.

Lemma publish_scripts_stable (X : path → Prop) (I : state → list event → Prop)
    (version : Version) (quiet : bool) :
  let scripts_dir := scripts_dir (get_installation version) in
  stable X I →
  (∀ s1 l1 s l p,
     I s1 l1 → os.is_dir_in (fs s1) scripts_dir = true →
     I s l → pathlib.child_of scripts_dir p →
     pathlib.stem p ∉ ["easy_install"; "pip"] → os.is_file_in (fs s) p = true →
     X (pathlib.joinpath get_scripts_dir_path (pathlib.name p)) →
     is_Some (fs s !! pathlib.joinpath get_scripts_dir_path (pathlib.name p))) →
  hoare I (publish_scripts version get_scripts_dir_path quiet false) (λ _, I).
Proof.
  intros scripts_dir Hstable HX s l0 HI a s' l Hrun.
  apply publish_scripts_inv in Hrun as [(_ & -> & ->) | [Hdir Hloop]].
  { by rewrite (right_id_L [] (++)). }
  refine (hoare_for I _ _ _ s _ HI _ _ _ Hloop).
  intros p [Hchild _]%elem_of_listdir.
  apply (publish_script_stable X I); [done|]. intros s2 l2 HI2 Hstem Hfile HXp.
  by apply (HX s l0 s2 l2 p).
Qed.

(** [publish_version_scripts] keeps every stable assertion, provided that
    whenever it is about to publish a protected path, or a shim whose
    sidecar is protected, the target already exists (so that the
    publication is skipped). *)
Lemma publish_version_scripts_stable (X : path → Prop) (I : state → list event → Prop)
    (version : Version) (quiet : bool) :
  let target := pathlib.joinpath get_scripts_dir_path (python_command version) in
  let scripts_dir := scripts_dir (get_installation version) in
  stable X I →
  (∀ s l, I s l → X target ∨ X (sidecar target) → is_Some (fs s !! target)) →
  (∀ s1 l1 s l p,
     I s1 l1 → os.is_dir_in (fs s1) scripts_dir = true →
     I s l → pathlib.child_of scripts_dir p →
     pathlib.stem p ∉ ["easy_install"; "pip"] → os.is_file_in (fs s) p = true →
     X (pathlib.joinpath get_scripts_dir_path (pathlib.name p)) →
     is_Some (fs s !! pathlib.joinpath get_scripts_dir_path (pathlib.name p))) →
  hoare I (operations.publish_version_scripts version get_scripts_dir_path quiet false)
        (λ _, I).
Proof.
  intros target scripts_dir Hstable Hshim Hscripts.
  rewrite publish_version_scripts_unfold.
  eapply hoare_bind; [|intros []; eapply hoare_bind; [|intros []]].
  - intros s l0 HI a s' l Hrun. rewrite run_when_echo in Hrun. injection Hrun as _ <- <-.
    eapply stable_echo_log; [exact Hstable | exact HI].
  - by apply (publish_shim_stable X I).
  - by apply (publish_scripts_stable X I).
Qed.

Lemma run_activate (versions : list Version) (allow_empty quiet : bool) (s : state) :
  let names := str.join str.newline (name <$> versions) in
  let out := echo_log quiet "Removing scripts." in
  operations.activate versions allow_empty quiet s =
    if negb allow_empty && bool_decide (versions = []) then
      (Raise (Exit 1), s, [Stderr "No active versions."])
    else if os.is_dir_in (fs s) get_scripts_dir_path then
      match for_ (os.listdir (fs s) get_scripts_dir_path) os.unlink s with
      | (Ok _, s1, l1) =>
          match for_ versions (λ version,
                  operations.publish_version_scripts version get_scripts_dir_path quiet false)
                  s1 with
          | (Ok _, s2, l2) =>
              (Ok tt, State (fs s2) (Some names), out ++ l1 ++ l2 ++ [Persisted names])
          | (Raise e, s2, l2) => (Raise e, s2, out ++ l1 ++ l2)
          end
      | (Raise e, s1, l1) => (Raise e, s1, out ++ l1)
      end
    else (Raise (if os.is_file_in (fs s) get_scripts_dir_path
                 then NotADirectoryError get_scripts_dir_path
                 else FileNotFoundError get_scripts_dir_path), s, out).
Proof.
  intros names out. unfold operations.activate. rewrite run_bind.
  destruct (negb allow_empty && bool_decide (versions = [])); [done|]. simpl.
  rewrite run_bind, run_when_echo. fold out. rewrite run_bind, run_iterdir.
  destruct (os.is_dir_in (fs s) get_scripts_dir_path); [|by rewrite (right_id_L [] (++))].
  rewrite run_bind.
  destruct (for_ _ os.unlink s) as [[[[]|e] s1] l1]; [|done].
  rewrite run_bind.
  destruct (for_ versions _ s1) as [[[[]|e] s2] l2]; [|done].
  reflexivity.
Qed.

End rebuild.

(** ** Independence from the persisted list *)

Section idempotence.
Context `{!Host}.

Lemma pv_indep_ret {A} (a : A) : pv_indep (mret a : M A).
Proof. by intros s pv. Qed.

Lemma pv_indep_bind {A B} (m : M A) (k : A → M B) :
  pv_indep m → (∀ a, pv_indep (k a)) → pv_indep (m ≫= k).
Proof.
  intros Hm Hk s pv. rewrite !run_bind, Hm.
  destruct (m s) as [[[a|e] s1] l1]; [|done].
  rewrite Hk. by destruct (k a s1) as [[r s2] l2].
Qed.

Lemma pv_indep_for {A} (l : list A) (body : A → M unit) :
  (∀ x, pv_indep (body x)) → pv_indep (for_ l body).
Proof.
  intros Hbody. induction l as [|x l IH]; simpl; [apply pv_indep_ret|].
  apply pv_indep_bind; [apply Hbody | intros _; apply IH].
Qed.

Lemma pv_indep_when (b : bool) (line : string) : pv_indep (when b (click.echo line)).
Proof. by destruct b. Qed.

Lemma pv_indep_exists (p : path) : pv_indep (os.exists_ p).
Proof. by intros s pv. Qed.

Lemma pv_indep_is_dir (p : path) : pv_indep (os.is_dir p).
Proof. by intros s pv. Qed.

Lemma pv_indep_is_file (p : path) : pv_indep (os.is_file p).
Proof. by intros s pv. Qed.

Lemma pv_indep_iterdir (d : path) : pv_indep (os.iterdir d).
Proof. intros s pv. rewrite !run_iterdir. simpl. by destruct (os.is_dir_in (fs s) d). Qed.

Lemma pv_indep_unlink (p : path) : pv_indep (os.unlink p).
Proof. intros s pv. rewrite !run_unlink. simpl. by destruct (fs s !! p) as [[? [|]|]|]. Qed.

Lemma pv_indep_write (p : path) (data : string) : pv_indep (os.write p data).
Proof.
  intros s pv. unfold os.write. rewrite !run_bind. simpl.
  destruct (os.parent_is_dir (fs s) p); simpl; [|done].
  by destruct (fs s !! p) as [[? [|]|]|].
Qed.

Lemma pv_indep_read (p : path) : pv_indep (os.read p).
Proof.
  intros s pv. unfold os.read. rewrite !run_bind. simpl.
  by destruct (fs s !! p) as [[? ?|]|].
Qed.

Lemma pv_indep_raise {A} (e : exn) : pv_indep (raise e : M A).
Proof. by intros s pv. Qed.

Lemma pv_indep_get_state {A} (k : state → M A) :
  (∀ s pv, k (set_pv pv s) = k s) → (∀ s, pv_indep (k s)) → pv_indep (get_state ≫= k).
Proof.
  intros Hfs Hk s pv. rewrite !run_bind. simpl. rewrite Hfs, Hk.
  by destruct (k s s) as [[? ?] ?].
Qed.

Lemma pv_indep_copystat (src dst : path) : pv_indep (shutil.copystat src dst).
Proof.
  intros s pv. unfold shutil.copystat. rewrite !run_bind. simpl.
  by destruct (fs s !! src) as [[? ?|]|], (fs s !! dst) as [[? ?|]|].
Qed.

Lemma pv_indep_copy2 (src dst : path) : pv_indep (shutil.copy2 src dst).
Proof.
  unfold shutil.copy2. apply pv_indep_get_state; [done|]. intros s.
  case_bool_decide; [apply pv_indep_raise|].
  apply pv_indep_bind; [apply pv_indep_read | intros data].
  apply pv_indep_bind; [apply pv_indep_write | intros _; apply pv_indep_copystat].
Qed.

Lemma pv_indep_publish_file (source target : path) (overwrite quiet : bool) :
  pv_indep (operations.publish_file source target overwrite quiet).
Proof.
  unfold operations.publish_file. apply pv_indep_bind; [apply pv_indep_exists|]. intros e.
  destruct (negb overwrite && e); [apply pv_indep_ret|].
  apply pv_indep_bind; [apply pv_indep_when | intros _; apply pv_indep_copy2].
Qed.

Lemma pv_indep_publish_shim (target content : path) (overwrite quiet : bool) :
  pv_indep (operations.publish_shim target content overwrite quiet).
Proof.
  unfold operations.publish_shim. apply pv_indep_bind; [apply pv_indep_exists|]. intros e.
  destruct (negb overwrite && e); [apply pv_indep_ret|].
  apply pv_indep_bind; [apply pv_indep_when | intros _].
  apply pv_indep_bind; [apply pv_indep_write | intros _; apply pv_indep_copy2].
Qed.

Lemma pv_indep_publish_version_scripts (version : Version) (target_dir : path)
    (quiet overwrite : bool) :
  pv_indep (operations.publish_version_scripts version target_dir quiet overwrite).
Proof.
  unfold operations.publish_version_scripts, operations.publish_python_command.
  apply pv_indep_bind; [apply pv_indep_when | intros _].
  apply pv_indep_bind; [apply pv_indep_publish_shim | intros _].
  apply pv_indep_bind; [apply pv_indep_is_dir | intros is_dir].
  destruct is_dir; [|apply pv_indep_ret].
  apply pv_indep_bind; [apply pv_indep_iterdir | intros paths].
  apply pv_indep_for. intros p. case_bool_decide; [apply pv_indep_ret|].
  apply pv_indep_bind; [apply pv_indep_is_file | intros is_file].
  destruct (negb is_file); [apply pv_indep_ret | apply pv_indep_publish_file].
Qed.

(** ** The state after a rebuild *)

(** After the teardown, the shared scripts directory is empty and every
    other path is as before. *)
Lemma lookup_delete_all_listdir (m : gmap path node) (d q : path) :
  delete_all (os.listdir m d) m !! q = if decide (pathlib.child_of d q) then None else m !! q.
Proof.
  rewrite lookup_delete_all. destruct (decide (q ∈ os.listdir m d)) as [Hin|Hnin].
  - apply elem_of_listdir in Hin as [Hchild _]. by rewrite decide_True.
  - case_decide as Hchild; [|done].
    destruct (m !! q) eqn:Hq; [|done]. destruct Hnin. apply elem_of_listdir. eauto.
Qed.

Lemma rebuilt_from_stable (m0 : gmap path node) : stable (λ _, False) (rebuilt_from m0).
Proof.
  split; [done|]. intros s l q data locked [Hframe Hfiles] Hchild _. split.
  - intros q' Hq'. simpl. rewrite lookup_insert_ne; [by apply Hframe | by intros ->].
  - intros q' Hq'. simpl. unfold os.is_file_in. destruct (decide (q = q')) as [->|Hne].
    + right. by rewrite lookup_insert_eq.
    + rewrite lookup_insert_ne by done. by apply Hfiles.
Qed.

Lemma populate_rebuilt_from (m0 : gmap path node) (versions : list Version) (quiet : bool) :
  hoare (rebuilt_from m0)
    (for_ versions (λ version,
       operations.publish_version_scripts version get_scripts_dir_path quiet false))
    (λ _, rebuilt_from m0).
Proof.
  apply hoare_for. intros version _.
  apply (publish_version_scripts_stable (λ _, False)); [apply rebuilt_from_stable| |].
  - by intros s l _ [[]|[]].
  - by intros s1 l1 s l p _ _ _ _ _ _ [].
Qed.

(** ** Rebuilding from sources that are not read-only *)

Lemma rebuilt_removable_source (m0 : gmap path node) (s : state) (l : list event)
    (source : path) (data : string) (locked : bool) :
  rebuilt_removable m0 s l → ¬ read_only m0 source →
  fs s !! source = Some (File data locked) → locked = false.
Proof.
  intros [[Hframe _] Hfiles] Hsource Hdata.
  destruct (decide (pathlib.child_of get_scripts_dir_path source)) as [Hin|Hout].
  - destruct (Hfiles source Hin) as [Hnone | [d Hd]]; congruence.
  - rewrite Hframe in Hdata by done. destruct locked; [|done].
    destruct Hsource. by exists data.
Qed.

Lemma rebuilt_removable_write (m0 : gmap path node) (s : state) (l l' : list event)
    (q : path) (data : string) :
  rebuilt_removable m0 s l → pathlib.child_of get_scripts_dir_path q →
  rebuilt_removable m0 (set_fs <[q := File data false]> s) l'.
Proof.
  intros [Hre Hfiles] Hchild. split.
  - destruct (rebuilt_from_stable m0) as [_ Hwrite].
    destruct Hre as [Hframe Hfile]. split.
    + intros q' Hq'. simpl. rewrite lookup_insert_ne; [by apply Hframe | by intros ->].
    + intros q' Hq'. simpl. unfold os.is_file_in. destruct (decide (q = q')) as [->|Hne].
      * right. by rewrite lookup_insert_eq.
      * rewrite lookup_insert_ne by done. by apply Hfile.
  - intros q' Hq'. simpl. destruct (decide (q = q')) as [->|Hne].
    + right. exists data. by rewrite lookup_insert_eq.
    + unfold removable. rewrite lookup_insert_ne by done. by apply Hfiles.
Qed.

Lemma rebuilt_removable_log (m0 : gmap path node) (s : state) (l l' : list event) :
  rebuilt_removable m0 s l → rebuilt_removable m0 s l'.
Proof. done. Qed.

(** Publishing a version whose sources are not read-only leaves nothing
    read-only in the shared scripts directory. *)
Lemma publish_version_scripts_removable (m0 : gmap path node) (versions : list Version)
    (version : Version) (quiet : bool) :
  version ∈ versions → unlocked_sources versions m0 →
  hoare (rebuilt_removable m0)
    (operations.publish_version_scripts version get_scripts_dir_path quiet false)
    (λ _, rebuilt_removable m0).
Proof.
  intros Hversion Hsources s l0 Hre a s' l Hrun.
  apply (rebuilt_removable_log m0 s' l0).
  rewrite publish_version_scripts_unfold in Hrun.
  apply (run_bind_Ok_inv _ _ _ _ _ _ _ _ _ (run_when_echo _ _ s)) in Hrun as (l1 & Hrun & ->).
  apply run_bind_inv in Hrun as ([] & s1 & l2 & l3 & Hshim & Hscripts & ->).
  unfold operations.publish_python_command in Hshim.
  set (target := pathlib.joinpath get_scripts_dir_path (python_command version)) in *.
  (* the interpreter command *)
  assert (H1 : rebuilt_removable m0 s1 l0).
  { apply publish_shim_inv in Hshim
      as [(_ & -> & _) | (_ & data & locked & Hsrc & -> & _)]; [done|].
    assert (locked = false) as ->.
    { destruct (decide (get_generic_shim_path = sidecar target)) as [Heq|Hne].
      - rewrite Heq, lookup_insert_eq in Hsrc. by injection Hsrc as _ <-.
      - rewrite lookup_insert_ne in Hsrc by done.
        eapply (rebuilt_removable_source m0 s l0 get_generic_shim_path); [done| |done].
        apply Hsources. by left. }
    apply (rebuilt_removable_write m0 _ l0); [|done].
    by apply (rebuilt_removable_write m0 _ l0). }
  (* the scripts of the version *)
  apply publish_scripts_inv in Hscripts as [(_ & -> & _) | [_ Hloop]]; [done|].
  refine (hoare_for (rebuilt_removable m0) _ _ _ s1 l0 H1 _ _ _ Hloop).
  intros p [Hchild _]%elem_of_listdir s2 l4 H2 [] s3 l5 Hstep.
  apply (rebuilt_removable_log m0 s3 l4).
  unfold publish_script in Hstep. case_bool_decide; [by injection Hstep as <- _|].
  apply (run_bind_Ok_inv _ _ _ _ _ _ _ _ _ (run_is_file _ s2)) in Hstep as (l6 & Hstep & _).
  destruct (os.is_file_in (fs s2) p); simpl in Hstep; [|by injection Hstep as <- _].
  apply publish_file_inv in Hstep
    as [(_ & -> & _) | (_ & data & locked & Hsrc & -> & _)]; [done|].
  assert (locked = false) as ->.
  { eapply (rebuilt_removable_source m0 s2 l4 p); [done| |done].
    apply Hsources. right. by exists version. }
  by apply (rebuilt_removable_write m0 _ l4).
Qed.

(** A second activation ends where the first did, when the entries the
    first one published can be removed. *)
Lemma activate_again (versions : list Version) (allow_empty quiet : bool)
    (s s' : state) (l : list event) :
  operations.activate versions allow_empty quiet s = (Ok tt, s', l) →
  (∀ q, pathlib.child_of get_scripts_dir_path q → is_Some (fs s' !! q) →
        removable (fs s') q) →
  ∃ l', operations.activate versions allow_empty quiet s' = (Ok tt, s', l').
Proof.
  rewrite !run_activate. destruct (negb allow_empty && bool_decide (versions = [])); [done|].
  destruct (os.is_dir_in (fs s) get_scripts_dir_path) eqn:Hdir; [|done].
  destruct (for_ _ os.unlink s) as [[[[]|e] s1] l1] eqn:Hteardown; [|done].
  destruct (for_ versions _ s1) as [[[[]|e] s2] l2] eqn:Hpopulate; [|done].
  intros [= <- _] Hremovable.
  apply teardown_inv in Hteardown as [_ ->].
  set (m1 := delete_all (os.listdir (fs s) get_scripts_dir_path) (fs s)).
  assert (Hm1 : ∀ q, m1 !! q = if decide (pathlib.child_of get_scripts_dir_path q)
                               then None else fs s !! q)
    by (intros q; apply lookup_delete_all_listdir).
  assert (H1 : rebuilt_from m1 (set_fs (delete_all (os.listdir (fs s) get_scripts_dir_path)) s) []).
  { split; [done|]. intros q Hq. left. simpl. fold m1. rewrite Hm1. by rewrite decide_True. }
  pose proof (populate_rebuilt_from m1 versions quiet _ _ H1 _ _ _ Hpopulate) as [Hframe Hfiles].
  cbn [fs] in *.
  (* the shared scripts directory is still a directory *)
  assert (Hdir2 : os.is_dir_in (fs s2) get_scripts_dir_path = true).
  { unfold os.is_dir_in in *. rewrite Hframe by apply not_child_of_self.
    rewrite Hm1, decide_False by apply not_child_of_self. done. }
  rewrite Hdir2.
  (* the second teardown removes what the first rebuild published *)
  rewrite run_teardown; [|apply NoDup_listdir|]; cycle 1.
  { intros p [Hchild Hsome]%elem_of_listdir. simpl. by apply Hremovable. }
  assert (Hback : delete_all (os.listdir (fs s2) get_scripts_dir_path) (fs s2) = m1).
  { apply map_eq. intros q. rewrite lookup_delete_all_listdir, Hm1.
    case_decide as Hchild; [done|]. rewrite Hframe by done. rewrite Hm1.
    by rewrite decide_False. }
  unfold set_fs at 1. cbn [fs python_versions]. rewrite Hback.
  (* the second rebuild starts from the same file system as the first *)
  pose proof (pv_indep_for versions _
    (λ version, pv_indep_publish_version_scripts version get_scripts_dir_path quiet false)
    (set_fs (delete_all (os.listdir (fs s) get_scripts_dir_path)) s)
    (Some (str.join str.newline (name <$> versions)))) as Hindep.
  rewrite Hpopulate in Hindep. unfold set_pv, set_fs in Hindep. cbn [fs] in Hindep.
  fold m1 in Hindep. rewrite Hindep. cbn [fs]. eauto.
Qed.

(** An activation from sources that are not read-only publishes nothing
    read-only. *)
Lemma activate_removable (versions : list Version) (allow_empty quiet : bool)
    (s s' : state) (l : list event) :
  operations.activate versions allow_empty quiet s = (Ok tt, s', l) →
  unlocked_sources versions (fs s) →
  ∀ q, pathlib.child_of get_scripts_dir_path q → is_Some (fs s' !! q) → removable (fs s') q.
Proof.
  rewrite run_activate. destruct (negb allow_empty && bool_decide (versions = [])); [done|].
  destruct (os.is_dir_in (fs s) get_scripts_dir_path) eqn:Hdir; [|done].
  destruct (for_ _ os.unlink s) as [[[[]|e] s1] l1] eqn:Hteardown; [|done].
  destruct (for_ versions _ s1) as [[[[]|e] s2] l2] eqn:Hpopulate; [|done].
  intros [= <- _] Hsources.
  apply teardown_inv in Hteardown as [_ ->].
  set (m1 := delete_all (os.listdir (fs s) get_scripts_dir_path) (fs s)).
  assert (Hm1 : ∀ q, m1 !! q = if decide (pathlib.child_of get_scripts_dir_path q)
                               then None else fs s !! q)
    by (intros q; apply lookup_delete_all_listdir).
  assert (Hsources1 : unlocked_sources versions m1).
  { intros q Hq [data Hdata]. rewrite Hm1 in Hdata. case_decide; [done|].
    apply (Hsources q Hq). by exists data. }
  assert (H2 : rebuilt_removable m1
                 (set_fs (delete_all (os.listdir (fs s) get_scripts_dir_path)) s) []).
  { assert (Hempty : ∀ q, pathlib.child_of get_scripts_dir_path q →
              fs (set_fs (delete_all (os.listdir (fs s) get_scripts_dir_path)) s) !! q = None).
    { intros q Hq. simpl. fold m1. rewrite Hm1. by rewrite decide_True. }
    split; [split; [done|]|]; intros q Hq; left; by apply Hempty. }
  assert (H3 : rebuilt_removable m1 s2 ([] ++ l2)).
  { refine (hoare_for (rebuilt_removable m1) _ _ _ _ _ H2 _ _ _ Hpopulate).
    intros version Hversion. by apply (publish_version_scripts_removable m1 versions). }
  destruct H3 as [_ Hremovable]. intros q Hchild Hsome. cbn [fs] in *.
  destruct (Hremovable q Hchild) as [Hnone|Hr]; [|done].
  rewrite Hnone in Hsome. by destruct Hsome.
Qed.

(** C5, amended. Activation is idempotent as long as nothing it
    published is read-only. When [activate] has completed on a list of
    versions and every entry it left in the shared scripts directory can
    be removed, running it again on the same list completes and ends in
    the very same state, that is, with the same contents of every file
    of the shared scripts directory (and of the rest of the file system)
    and the same persisted ActiveSet. Conversely, the second run can
    only complete when every such entry can be removed: a read-only
    entry, which is what the copy of a read-only script or dispatcher
    is, makes its teardown fail. In particular activation is idempotent
    whenever neither the dispatcher nor any entry of the scripts
    directory of a listed version is read-only. *)
Theorem activate_idempotent (versions : list Version) (allow_empty quiet : bool)
    (s s' : state) (l : list event) :
  operations.activate versions allow_empty quiet s = (Ok tt, s', l) →
  ((∀ q, pathlib.child_of get_scripts_dir_path q → is_Some (fs s' !! q) →
         removable (fs s') q) →
   ∃ l', operations.activate versions allow_empty quiet s' = (Ok tt, s', l')) ∧
  (∀ s'' l', operations.activate versions allow_empty quiet s' = (Ok tt, s'', l') →
     ∀ q, pathlib.child_of get_scripts_dir_path q → is_Some (fs s' !! q) →
          removable (fs s') q) ∧
  (unlocked_sources versions (fs s) →
   ∃ l', operations.activate versions allow_empty quiet s' = (Ok tt, s', l')).
Proof.
  intros Hrun. split; [|split].
  - by apply (activate_again versions allow_empty quiet s s' l).
  - intros s'' l'. rewrite run_activate.
    destruct (negb allow_empty && bool_decide (versions = [])); [done|].
    destruct (os.is_dir_in (fs s') get_scripts_dir_path); [|done].
    destruct (for_ (os.listdir (fs s') get_scripts_dir_path) os.unlink s')
      as [[[[]|e] s3] l3] eqn:Hteardown; [|done].
    intros _ q Hchild Hsome.
    apply teardown_inv in Hteardown as [Hremovable _].
    apply (Hremovable q). by apply elem_of_listdir.
  - intros Hsources. apply (activate_again versions allow_empty quiet s s' l Hrun).
    by apply (activate_removable versions allow_empty quiet s s' l).
Qed.

End idempotence.

(** ** First claim wins *)

Section first_claim.
Context `{!Host}.

Lemma written_data_app (p : path) (l1 l2 : list event) :
  written_data p (l1 ++ l2) = written_data p l1 ++ written_data p l2.
Proof. apply omap_app. Qed.

Lemma written_data_echo_log (p : path) (quiet : bool) (line : string) :
  written_data p (echo_log quiet line) = [].
Proof. by destruct quiet. Qed.

Lemma written_data_unlinked (p : path) (ps : list path) :
  written_data p (Unlinked <$> ps) = [].
Proof. induction ps as [|q ps IH]; [done | exact IH]. Qed.

Lemma written_data_written_ne (p q : path) (data : string) :
  q ≠ p → written_data p [Written q data] = [].
Proof. intros Hne. unfold written_data. simpl. by rewrite decide_False. Qed.

Lemma written_data_written_eq (p : path) (data : string) :
  written_data p [Written p data] = [data].
Proof. unfold written_data. simpl. by rewrite decide_True. Qed.

Lemma joinpath_inj (d : path) (n n' : string) :
  pathlib.joinpath d n = pathlib.joinpath d n' → n = n'.
Proof. by intros [= ->]. Qed.

(** The sidecar of an interpreter command [python<v>.exe] is
    [python<v>.shim], in the same directory. *)
Lemma sidecar_python_command (d : path) (mv : string) :
  sidecar (pathlib.joinpath d ("python" +:+ mv +:+ ".exe")) =
    pathlib.joinpath d ("python" +:+ mv +:+ ".shim").
Proof.
  unfold sidecar, pathlib.with_suffix, pathlib.joinpath. simpl. f_equal.
  rewrite <-app_assoc_str, split_suffix_exe; [|by rewrite app_cons].
  simpl. by rewrite app_assoc_str.
Qed.

Lemma sidecar_python_command_ne (d : path) (mv : string) :
  sidecar (pathlib.joinpath d ("python" +:+ mv +:+ ".exe")) ≠
    pathlib.joinpath d ("python" +:+ mv +:+ ".exe").
Proof.
  rewrite sidecar_python_command. intros Heq%joinpath_inj.
  apply (inj (String.app "python")), (inj (String.app mv)) in Heq. done.
Qed.

Lemma unclaimed_stable (m1 : gmap path node) (target : path) :
  stable (λ q, q = target) (unclaimed m1 target).
Proof.
  destruct (rebuilt_from_stable m1) as [Hecho Hwrite]. split.
  - intros s l line (Hre & Habsent & Hlog). split; [by apply Hecho|]. split; [done|].
    by rewrite written_data_app, Hlog.
  - intros s l q data locked (Hre & Habsent & Hlog) Hchild Hne.
    split; [apply Hwrite; [done|done|by intros []]|]. split.
    + simpl. by rewrite lookup_insert_ne.
    + by rewrite written_data_app, Hlog, written_data_written_ne.
Qed.

Lemma claimed_stable (m1 : gmap path node) (target : path) (data : string)
    (locked : bool) (sc : option string) :
  stable (λ q, q = target ∨ (is_Some sc ∧ q = sidecar target))
         (claimed m1 target data locked sc).
Proof.
  destruct (rebuilt_from_stable m1) as [Hecho Hwrite]. split.
  - intros s l line (Hre & Htarget & Hlog & Hsc). split; [by apply Hecho|].
    split; [done|]. split; [|done]. by rewrite written_data_app, Hlog.
  - intros s l q d lk (Hre & Htarget & Hlog & Hsc) Hchild Hne.
    split; [apply Hwrite; [done|done|by intros []]|].
    split; [|split].
    + simpl. rewrite lookup_insert_ne; [done|]. intros ->. apply Hne. by left.
    + rewrite written_data_app, Hlog, written_data_written_ne; [done|].
      intros ->. apply Hne. by left.
    + intros c ->. simpl. rewrite lookup_insert_ne; [by apply Hsc|].
      intros ->. apply Hne. right. eauto.
Qed.

Section rebuild_of.
Variables (m0 m1 : gmap path node) (n : string).
Hypothesis emptied :
  ∀ q, m1 !! q = if decide (pathlib.child_of get_scripts_dir_path q) then None else m0 !! q.
Hypothesis torn_down :
  ∀ q, pathlib.child_of get_scripts_dir_path q → m0 !! q = None ∨ removable m0 q.

Let target : path := pathlib.joinpath get_scripts_dir_path n.

Lemma rebuilt_from_frame (s : state) (l : list event) (q : path) :
  rebuilt_from m1 s l → ¬ pathlib.child_of get_scripts_dir_path q → fs s !! q = m0 !! q.
Proof. intros [Hframe _] Hq. rewrite Hframe, emptied by done. by rewrite decide_False. Qed.

Lemma rebuilt_from_dir (s : state) (l : list event) (q : path) :
  rebuilt_from m1 s l → os.is_dir_in (fs s) q = true →
  ¬ pathlib.child_of get_scripts_dir_path q ∧ os.is_dir_in m0 q = true.
Proof.
  intros Hre Hdir.
  assert (Hq : ¬ pathlib.child_of get_scripts_dir_path q).
  { intros Hchild. destruct Hre as [_ Hfiles]. unfold os.is_dir_in in Hdir.
    destruct (Hfiles q Hchild) as [Hnone | Hfile].
    - by rewrite Hnone in Hdir.
    - unfold os.is_file_in in Hfile. by destruct (fs s !! q) as [[]|]. }
  split; [done|]. unfold os.is_dir_in in *. by rewrite <-(rebuilt_from_frame s l).
Qed.

Lemma offers_script (version : Version) (data : string) (locked : bool) :
  let scripts_dir := scripts_dir (get_installation version) in
  n ≠ python_command version →
  os.is_dir_in m0 scripts_dir = true →
  (pathlib.split_suffix n).1 ∉ ["easy_install"; "pip"] →
  m0 !! pathlib.joinpath scripts_dir n = Some (File data locked) →
  offers m0 version n = Some (Copy data locked).
Proof.
  intros scripts_dir Hn Hdir Hstem Hfile. unfold offers. rewrite decide_False by done.
  fold scripts_dir. rewrite Hdir, bool_decide_false by done. simpl. by rewrite Hfile.
Qed.

(** A version that does not offer [n], and whose sidecar is not [n],
    leaves [n] unclaimed. *)
Lemma other_version_keeps_unclaimed (version : Version) (quiet : bool) :
  offers m0 version n = None →
  n ≠ "python" +:+ major_version version +:+ ".shim" →
  hoare (unclaimed m1 target)
    (operations.publish_version_scripts version get_scripts_dir_path quiet false)
    (λ _, unclaimed m1 target).
Proof.
  intros Hoffer Hsidecar.
  apply (publish_version_scripts_stable (λ q, q = target)); [apply unclaimed_stable| |].
  - intros s l _ [HT|HT]; exfalso.
    + apply joinpath_inj in HT. unfold offers in Hoffer.
      by rewrite decide_True in Hoffer.
    + unfold python_command in HT. rewrite sidecar_python_command in HT.
      apply joinpath_inj in HT. by apply Hsidecar.
  - intros s1 l1 s l p (Hre1 & _) Hdir (Hre & Habsent & _) Hchild Hstem Hfile HT. exfalso.
    apply joinpath_inj in HT.
    destruct (decide (scripts_dir (get_installation version) = get_scripts_dir_path))
      as [HD|HD].
    + rewrite HD in Hchild. apply child_of_name in Hchild. rewrite HT in Hchild.
      fold target in Hchild. subst p. unfold os.is_file_in in Hfile. by rewrite Habsent in Hfile.
    + assert (Hp : ¬ pathlib.child_of get_scripts_dir_path p).
      { intros Hc. apply HD. by eapply child_of_inj. }
      apply (rebuilt_from_dir s1 l1) in Hdir as [_ Hdir]; [|done].
      unfold os.is_file_in in Hfile. rewrite (rebuilt_from_frame s l p Hre Hp) in Hfile.
      apply child_of_name in Hchild. rewrite HT in Hchild.
      destruct (m0 !! p) as [[data locked|]|] eqn:Hm0; try done.
      destruct (decide (n = python_command version)) as [Hn|Hn].
      * unfold offers in Hoffer. by rewrite decide_True in Hoffer.
      * rewrite (offers_script version data locked) in Hoffer; [done|done|done| |].
        -- unfold pathlib.stem in Hstem. by rewrite <-HT.
        -- by rewrite <-Hchild.
Qed.

(** Once [n] is claimed, a later version whose sidecar is not [n] leaves
    it, and its sidecar, as they are. *)
Lemma later_version_keeps_claimed (version : Version) (quiet : bool)
    (data : string) (locked : bool) (sc : option string) :
  n ≠ "python" +:+ major_version version +:+ ".shim" →
  (is_Some sc → ∃ mv, n = "python" +:+ mv +:+ ".exe") →
  hoare (claimed m1 target data locked sc)
    (operations.publish_version_scripts version get_scripts_dir_path quiet false)
    (λ _, claimed m1 target data locked sc).
Proof.
  intros Hsidecar Hshim.
  apply (publish_version_scripts_stable (λ q, q = target ∨ (is_Some sc ∧ q = sidecar target)));
    [apply claimed_stable| |].
  - intros s l (_ & Htarget & _ & Hsc) [[HT|[Hsome HT]]|[HT|[Hsome HT]]].
    + rewrite HT, Htarget. eauto.
    + rewrite HT. destruct Hsome as [c ->]. rewrite (Hsc c); eauto.
    + exfalso. unfold python_command in HT. rewrite sidecar_python_command in HT.
      apply joinpath_inj in HT. by apply Hsidecar.
    + destruct (Hshim Hsome) as [mv Hmv]. unfold target, python_command in HT |- *.
      rewrite Hmv in HT. rewrite !sidecar_python_command in HT.
      apply joinpath_inj in HT.
      apply (inj (String.app "python")), app_inj_r in HT. rewrite HT, <-Hmv.
      fold target. rewrite Htarget. eauto.
  - intros s1 l1 s l p _ _ (_ & Htarget & _ & Hsc) _ _ _ [HT|[Hsome HT]].
    + rewrite HT, Htarget. eauto.
    + rewrite HT. destruct Hsome as [c ->]. rewrite (Hsc c); eauto.
Qed.

(** The first version to offer [n] claims it, with the data it offers. *)
Lemma first_claimant_claims (version : Version) (quiet : bool) (o : offer) :
  offers m0 version n = Some o →
  n ≠ "python" +:+ major_version version +:+ ".shim" →
  scripts_dir (get_installation version) ≠ get_scripts_dir_path →
  ¬ pathlib.child_of get_scripts_dir_path get_generic_shim_path →
  hoare (unclaimed m1 target)
    (operations.publish_version_scripts version get_scripts_dir_path quiet false)
    (λ _ s l, ∃ data locked sc,
       claimed m1 target data locked sc s l ∧
       (is_Some sc → ∃ mv, n = "python" +:+ mv +:+ ".exe") ∧
       match o with
       | Shim content =>
           sc = Some (pathlib.to_str content) ∧
           m0 !! get_generic_shim_path = Some (File data locked)
       | Copy d lk => data = d ∧ locked = lk
       end).
Proof.
  intros Hoffer Hsidecar HD Hgeneric. rewrite publish_version_scripts_unfold.
  intros s l0 Hun a s' l Hrun.
  apply (run_bind_Ok_inv _ _ _ _ _ _ _ _ _ (run_when_echo _ _ s)) in Hrun as (l1 & Hrun & ->).
  apply run_bind_inv in Hrun as ([] & s1 & l2 & l3 & Hpub & Hscripts & ->).
  unfold operations.publish_python_command in Hpub.
  set (out := echo_log quiet ("Publishing " +:+ version_str version +:+ "...")) in *.
  assert (Hun0 : unclaimed m1 target s (l0 ++ out)).
  { eapply stable_echo_log; [apply unclaimed_stable | done]. }
  rewrite !(assoc_L (++)).
  unfold offers in Hoffer. destruct (decide (n = python_command version)) as [Hn|Hn].
  - (* the interpreter command *)
    injection Hoffer as <-. rewrite <-Hn in Hpub. fold target in Hpub.
    destruct Hun0 as (Hre & Habsent & Hlog).
    apply publish_shim_inv in Hpub as [(Hsome & _) | (_ & data & locked & Hsrc & -> & ->)].
    { rewrite Habsent in Hsome. by destruct Hsome. }
    assert (Hne : sidecar target ≠ target).
    { unfold target. rewrite Hn. apply sidecar_python_command_ne. }
    set (content := pathlib.to_str (python (get_installation version))) in *.
    assert (Hclaimed : claimed m1 target data locked (Some content)
              (set_fs <[target := File data locked]>
                 (set_fs <[sidecar target := File content false]> s))
              ((l0 ++ out) ++ echo_log quiet ("  " +:+ pathlib.name target) ++
               [Written (sidecar target) content; Written target data])).
    { destruct (rebuilt_from_stable m1) as [_ Hwrite]. split; [|split; [|split]].
      - apply (Hwrite _ []); [|done|by intros []].
        apply (Hwrite _ []); [done|done|by intros []].
      - simpl. by rewrite lookup_insert_eq.
      - change [Written (sidecar target) content; Written target data]
          with ([Written (sidecar target) content] ++ [Written target data]).
        rewrite (written_data_app _ (l0 ++ out)), Hlog, !written_data_app.
        by rewrite written_data_echo_log, written_data_written_ne, written_data_written_eq.
      - intros c [= <-]. simpl. rewrite lookup_insert_ne by done. by rewrite lookup_insert_eq. }
    exists data, locked, (Some content). split; [|split].
    + refine (publish_scripts_stable _ _ version quiet
                (claimed_stable m1 target data locked (Some content)) _ _ _ Hclaimed _ _ _ Hscripts).
      intros _ _ s2 l4 p _ _ (_ & Htarget & _ & Hsc) _ _ _ [HT|[_ HT]].
      * rewrite HT, Htarget. eauto.
      * rewrite HT, (Hsc content); eauto.
    + intros _. exists (major_version version). exact Hn.
    + split; [done|].
      rewrite lookup_insert_ne in Hsrc.
      * by rewrite <-(rebuilt_from_frame s (l0 ++ out)).
      * intros Heq. apply Hgeneric. rewrite <-Heq. done.
  - (* a script of the version *)
    set (scripts_dir := scripts_dir (get_installation version)) in *.
    destruct (os.is_dir_in m0 scripts_dir) eqn:Hdir0; [|done].
    case_bool_decide as Hstem; [done|]. simpl in Hoffer.
    destruct (m0 !! pathlib.joinpath scripts_dir n) as [[d locked|]|] eqn:Hfile0; try done.
    injection Hoffer as <-.
    set (pA := pathlib.joinpath scripts_dir n) in *.
    assert (HpA : ¬ pathlib.child_of get_scripts_dir_path pA).
    { intros Hc. apply HD. symmetry. by eapply child_of_inj. }
    assert (Hdir_out : ¬ pathlib.child_of get_scripts_dir_path scripts_dir).
    { intros Hc. unfold os.is_dir_in in Hdir0.
      destruct (torn_down _ Hc) as [Hnone | [x Hx]].
      - by rewrite Hnone in Hdir0.
      - by rewrite Hx in Hdir0. }
    (* the interpreter shim leaves [n] unclaimed *)
    assert (Hun1 : unclaimed m1 target s1 ((l0 ++ out) ++ l2)).
    { refine (publish_shim_stable (λ q, q = target) _ _ _ _ (unclaimed_stable m1 target)
                _ _ s _ Hun0 _ _ _ Hpub); [done|].
      intros s2 l4 _ [HT|HT]; exfalso.
      - apply joinpath_inj in HT. by apply Hn.
      - unfold python_command in HT. rewrite sidecar_python_command in HT.
        apply joinpath_inj in HT. by apply Hsidecar. }
    (* the scripts directory is listed, and [n] is in the listing *)
    apply publish_scripts_inv in Hscripts as [(Hnodir & _) | [_ Hloop]].
    { fold scripts_dir in Hnodir. unfold os.is_dir_in in Hnodir, Hdir0.
      destruct Hun1 as (Hre & _). rewrite (rebuilt_from_frame _ _ _ Hre Hdir_out) in Hnodir.
      by rewrite Hnodir in Hdir0. }
    fold scripts_dir in Hloop.
    assert (Hin : pA ∈ os.listdir (fs s1) scripts_dir).
    { apply elem_of_listdir. split; [done|]. destruct Hun1 as (Hre & _).
      rewrite (rebuilt_from_frame _ _ _ Hre HpA), Hfile0. eauto. }
    pose proof (NoDup_listdir (fs s1) scripts_dir) as Hnodup.
    assert (Hchildren : ∀ x, x ∈ os.listdir (fs s1) scripts_dir → pathlib.child_of scripts_dir x).
    { by intros x [? _]%elem_of_listdir. }
    apply list_elem_of_split in Hin as (before & after & Hsplit).
    rewrite Hsplit in Hloop, Hnodup, Hchildren.
    apply NoDup_app in Hnodup as (_ & Hbefore & [Hafter _]%NoDup_cons).
    rewrite run_for_app in Hloop.
    apply run_bind_inv in Hloop as ([] & sa & la & lb & Hl1 & Hrest & ->).
    cbn [for_] in Hrest.
    apply run_bind_inv in Hrest as ([] & sb & lc & ld & Hclaim & Hl2 & ->).
    assert (Hname : ∀ x, pathlib.child_of scripts_dir x →
              pathlib.joinpath get_scripts_dir_path (pathlib.name x) = target → x = pA).
    { intros x Hx HT. apply joinpath_inj in HT. apply child_of_name in Hx.
      by rewrite Hx, HT. }
    (* the scripts listed before [n] *)
    assert (Hun2 : unclaimed m1 target sa (((l0 ++ out) ++ l2) ++ la)).
    { refine (hoare_for (unclaimed m1 target) _ _ _ s1 _ Hun1 _ _ _ Hl1).
      intros x Hx. apply (publish_script_stable (λ q, q = target)); [apply unclaimed_stable|].
      intros s2 l4 _ _ _ HT. exfalso. apply (Hbefore x Hx).
      rewrite (Hname x); [by left | | done]. apply Hchildren. apply elem_of_app. by left. }
    (* the script [n] itself *)
    destruct Hun2 as (Hre2 & Habsent2 & Hlog2).
    unfold publish_script in Hclaim. unfold pathlib.stem in Hclaim.
    change (pA.1) with n in Hclaim. rewrite bool_decide_false in Hclaim by done.
    apply (run_bind_Ok_inv _ _ _ _ _ _ _ _ _ (run_is_file _ sa)) in Hclaim
      as (le & Hclaim & ->).
    unfold os.is_file_in in Hclaim. rewrite (rebuilt_from_frame _ _ _ Hre2 HpA), Hfile0 in Hclaim.
    simpl in Hclaim. fold target in Hclaim.
    apply publish_file_inv in Hclaim
      as [(Hsome & _) | (_ & d' & locked' & Hsrc & -> & ->)].
    { rewrite Habsent2 in Hsome. by destruct Hsome. }
    rewrite (rebuilt_from_frame _ _ _ Hre2 HpA), Hfile0 in Hsrc. injection Hsrc as <- <-.
    assert (Hclaimed : claimed m1 target d locked None (set_fs <[target := File d locked]> sa)
              ((((l0 ++ out) ++ l2) ++ la) ++
               echo_log quiet ("  " +:+ pathlib.name target) ++ [Written target d])).
    { destruct (rebuilt_from_stable m1) as [_ Hwrite]. split; [|split; [|split]].
      - apply (Hwrite _ []); [done|done|by intros []].
      - simpl. by rewrite lookup_insert_eq.
      - rewrite (written_data_app _ (((l0 ++ out) ++ l2) ++ la)), Hlog2, written_data_app.
        by rewrite written_data_echo_log, written_data_written_eq.
      - done. }
    (* the scripts listed after [n] *)
    exists d, locked, None. split; [|split; [by intros [? [=]] | done]].
    eapply (eq_ind _ (claimed m1 target d locked None s'));
      [refine (hoare_for (claimed m1 target d locked None) _ _ _ _ _ Hclaimed _ _ _ Hl2)
      |simpl; by rewrite <-?app_assoc].
    intros x Hx. apply (publish_script_stable _ _ _ _ (claimed_stable m1 target d locked None)).
    intros s2 l4 (_ & Htarget & _) _ _ [HT|[[? [=]] _]]. rewrite HT, Htarget. eauto.
Qed.

End rebuild_of.

Lemma teardown_written (p : path) (ps : list path) (s s' : state) (a : unit) (l : list event) :
  for_ ps os.unlink s = (Ok a, s', l) → written_data p l = [].
Proof.
  revert s l. induction ps as [|q ps IH]; intros s l; cbn [for_].
  - by intros [= _ _ <-].
  - rewrite run_bind, run_unlink.
    destruct (fs s !! q) as [[data [|]|]|]; try done.
    destruct (for_ ps os.unlink _) as [[r s1] l1] eqn:Hrest. intros [= -> -> <-].
    apply IH in Hrest. exact Hrest.
Qed.

(** C1, amended. When [activate] completes on an ordered list of
    versions, let [A] be the first version of the list to offer the
    command name [n] (the versions before it do not offer it). Provided
    that [n] is not the sidecar name [python<v>.shim] of the interpreter
    command of a listed version, that the scripts directory of [A] is
    not the shared scripts directory itself and that the dispatcher lies
    outside the shared scripts directory: the command [n] of the shared
    scripts directory resolves to what [A] offers, and the rebuild wrote
    it exactly once, so the same name offered by later versions was
    skipped, never overwritten. *)
Theorem first_claimant_owns_command (before after : list Version) (A : Version)
    (n : string) (o : offer) (allow_empty quiet : bool) (s s' : state) (l : list event) :
  let target := pathlib.joinpath get_scripts_dir_path n in
  operations.activate (before ++ A :: after) allow_empty quiet s = (Ok tt, s', l) →
  (∀ v, v ∈ before → offers (fs s) v n = None) →
  offers (fs s) A n = Some o →
  (∀ v, v ∈ before ++ A :: after → n ≠ "python" +:+ major_version v +:+ ".shim") →
  scripts_dir (get_installation A) ≠ get_scripts_dir_path →
  ¬ pathlib.child_of get_scripts_dir_path get_generic_shim_path →
  owned (fs s) (fs s') n o ∧
  ∃ data locked, written_data target l = [data] ∧ fs s' !! target = Some (File data locked).
Proof.
  intros target Hrun Hbefore HA Hsidecar HD Hgeneric. rewrite run_activate in Hrun.
  destruct (negb allow_empty && bool_decide (before ++ A :: after = [])); [done|].
  destruct (os.is_dir_in (fs s) get_scripts_dir_path); [|done].
  destruct (for_ _ os.unlink s) as [[[[]|e] s1] l1] eqn:Hteardown; [|done].
  destruct (for_ (before ++ A :: after) _ s1) as [[[[]|e] s2] l2] eqn:Hpopulate; [|done].
  injection Hrun as <- <-. cbn [fs].
  pose proof (teardown_written target _ _ _ _ _ Hteardown) as Hl1.
  apply teardown_inv in Hteardown as [Hremovable ->].
  set (m0 := fs s) in *.
  set (m1 := delete_all (os.listdir m0 get_scripts_dir_path) m0).
  assert (Hemptied : ∀ q, m1 !! q = if decide (pathlib.child_of get_scripts_dir_path q)
                                    then None else m0 !! q)
    by (intros q; apply lookup_delete_all_listdir).
  assert (Htorn : ∀ q, pathlib.child_of get_scripts_dir_path q →
                       m0 !! q = None ∨ removable m0 q).
  { intros q Hq. destruct (m0 !! q) eqn:Hm0; [|by left]. right.
    apply Hremovable, elem_of_listdir. split; [done|]. fold m0. rewrite Hm0. eauto. }
  assert (Hstart : unclaimed m1 target (set_fs (delete_all (os.listdir m0 get_scripts_dir_path)) s) []).
  { split; [split|split]; try done.
    - intros q Hq. left. simpl. fold m0 m1. by rewrite Hemptied, decide_True.
    - simpl. fold m0 m1. by rewrite Hemptied, decide_True. }
  rewrite run_for_app in Hpopulate.
  apply run_bind_inv in Hpopulate as ([] & sa & la & lb & Hpre & Hrest & ->).
  cbn [for_] in Hrest.
  apply run_bind_inv in Hrest as ([] & sb & lc & ld & Hclaim & Hpost & ->).
  assert (Hun : unclaimed m1 target sa ([] ++ la)).
  { refine (hoare_for (unclaimed m1 target) _ _ _ _ _ Hstart _ _ _ Hpre).
    intros v Hv. apply (other_version_keeps_unclaimed m0 m1 n Hemptied).
    - by apply Hbefore.
    - apply Hsidecar, elem_of_app. by left. }
  pose proof (first_claimant_claims m0 m1 n Hemptied Htorn A quiet o HA
                (Hsidecar A ltac:(apply elem_of_app; right; by left)) HD Hgeneric
                _ _ Hun _ _ _ Hclaim) as (data & locked & sc & Hclaimed & Hshim & Ho).
  assert (Hend : claimed m1 target data locked sc s2 ((([] ++ la) ++ lc) ++ ld)).
  { refine (hoare_for (claimed m1 target data locked sc) _ _ _ _ _ Hclaimed _ _ _ Hpost).
    intros v Hv. apply (later_version_keeps_claimed m1 n); [|done].
    apply Hsidecar, elem_of_app. right. by right. }
  destruct Hend as (_ & Htarget & Hlog & Hsc). split.
  - unfold owned. fold target. destruct o as [content|d lk].
    + destruct Ho as [-> Hshimfile]. exists data, locked.
      split; [done|]. split; [done|]. by apply Hsc.
    + by destruct Ho as [<- <-].
  - exists data, locked. split; [|done].
    rewrite !written_data_app, written_data_echo_log, Hl1. simpl.
    rewrite <-!written_data_app. simpl in Hlog. rewrite <-(assoc_L (++)) in Hlog.
    by rewrite Hlog.
Qed.

End first_claim.

(** * The claims on the concrete host *)

Section on_scenario.
Import scenario.

Lemma run_eta {A} (x : result A * state * list event) (a : A) :
  x.1.1 = Ok a → x = (Ok a, x.1.2, x.2).
Proof. destruct x as [[r s] l]. simpl. by intros ->. Qed.

(** C1, as stated, fails. Versions 2.7 and 3.6 both offer the command
    [python3.shim]; 2.7 comes first and its copy is published, but the
    sidecar that 3.6 writes for its interpreter command [python3.exe] has
    the same name and replaces it: after [activate [2.7; 3.6]] the
    command holds the interpreter path of 3.6, not the script of 2.7,
    and the log shows the second write. *)
Lemma sidecar_write_replaces_first_claim :
  let '(r, s', l) := operations.activate (H:=host) [v27; v36] false true fresh in
  r = Ok tt ∧
  offers (H:=host) (fs fresh) v27 "python3.shim" = Some (Copy "notes-2.7" false) ∧
  offers (H:=host) (fs fresh) v36 "python3.shim" = Some (Copy "notes-3.6" false) ∧
  ¬ owned (H:=host) (fs fresh) (fs s') "python3.shim" (Copy "notes-2.7" false) ∧
  written_data (pathlib.joinpath scripts "python3.shim") l =
    ["notes-2.7"; "snafu\Python3.6\python.exe"].
Proof.
  vm_compute. split; [reflexivity|]. split; [reflexivity|]. split; [reflexivity|].
  split; [discriminate | reflexivity].
Qed.

(** The amended C1 on the concrete host: 2.7 is the first of [2.7; 3.6]
    to offer [wheel.exe], and owns it. *)
Lemma first_claimant_owns_command_witness :
  let run := operations.activate (H:=host) ([] ++ v27 :: [v36]) false true fresh in
  owned (H:=host) (fs fresh) (fs run.1.2) "wheel.exe" (Copy "wheel-2.7" false) ∧
  ∃ data locked,
    written_data (pathlib.joinpath scripts "wheel.exe") run.2 = [data] ∧
    fs run.1.2 !! pathlib.joinpath scripts "wheel.exe" = Some (File data locked).
Proof.
  intros run.
  apply (first_claimant_owns_command (H:=host) [] [v36] v27 "wheel.exe" (Copy "wheel-2.7" false)
           false true fresh run.1.2 run.2).
  - apply run_eta. vm_compute. reflexivity.
  - intros v Hv. inversion Hv.
  - vm_compute. reflexivity.
  - intros v Hv. simpl in Hv.
    apply elem_of_cons in Hv as [->|Hv]; [vm_compute; discriminate|].
    apply elem_of_cons in Hv as [->|Hv]; [vm_compute; discriminate|]. inversion Hv.
  - vm_compute. discriminate.
  - vm_compute. discriminate.
Defined.

(** C2 on the concrete host: the empty payload has the digest the
    descriptor of 3.6 stores, and the installer path is free. *)
Lemma save_installer_integrity_witness :
  let into_path := pathlib.joinpath root "python-3.6.exe" in
  succeeds (versions.save_installer (H:=host) v36 "" into_path) fresh.
Proof.
  intros into_path.
  apply (proj1 (save_installer_integrity (H:=host) v36 "" into_path fresh)).
  split; [|split].
  - vm_compute. reflexivity.
  - vm_compute. reflexivity.
  - left. vm_compute. reflexivity.
Defined.

(** C2, as stated, fails. The empty payload has the digest the
    descriptor of 3.6 stores, but the directory that is to hold the
    installer does not exist: [save_installer] raises
    [FileNotFoundError] although the checksums are equal. *)
Lemma save_installer_needs_writable_target :
  let into_path := pathlib.joinpath (pathlib.joinpath root "missing") "python-3.6.exe" in
  let run := versions.save_installer (H:=host) v36 "" into_path fresh in
  md5_hexdigest (Host:=host) "" = md5_sum v36 ∧
  run.1.1 = Raise (FileNotFoundError into_path) ∧
  run.2 = [] ∧
  (succeeds (versions.save_installer (H:=host) v36 "" into_path) fresh → False).
Proof.
  intros into_path run. split; [|split; [|split]].
  - vm_compute. reflexivity.
  - vm_compute. reflexivity.
  - vm_compute. reflexivity.
  - intros (a & s' & l & Hrun). assert (Hr : run.1.1 = Ok a) by (unfold run; by rewrite Hrun).
    vm_compute in Hr. discriminate.
Qed.

(** C3 on the concrete host, which cannot run 64-bit binaries and whose
    catalog holds both [3.6.3] and [3.6.3-32]. *)
Lemma get_version_selects_32_witness :
  operations.get_version (H:=host) "3.6.3" fresh =
    (Ok (version "3.6.3-32" cpython [3; 6; 3]%Z), fresh,
     [Stdout "Note: Selecting 3.6.3-32 instead of 3.6.3"]).
Proof.
  apply (get_version_selects_32 (H:=host) "3.6.3" (entry "cpython" [3; 6; 3]%Z) cpython fresh);
    reflexivity.
Defined.

(** C4 fails on the code. The persisted ActiveSet is [3.6; 3.5; 2.7];
    removing 2.7 persists [3.5; 3.6]: the two remaining names have
    swapped, and [python3.exe] now resolves to 3.5 instead of 3.6. *)
Lemma update_active_versions_reorders :
  let '(r, s', l) := operations.update_active_versions (H:=host) [v27] three_active in
  (operations.get_active_names three_active).1.1 = Ok ["3.6"; "3.5"; "2.7"] ∧
  r = Ok tt ∧
  python_versions s' = Some (str.join str.newline ["3.5"; "3.6"]) ∧
  fs s' !! sidecar (pathlib.joinpath scripts "python3.exe") =
    Some (File "snafu\Python3.5\python.exe" false).
Proof. vm_compute. repeat split. Qed.

(** The amended C5 on the concrete host, where nothing is read-only: a
    second [activate [2.7; 3.6]] ends where the first one did. *)
Lemma activate_idempotent_witness :
  let run := operations.activate (H:=host) [v27; v36] false false fresh in
  ∃ l', operations.activate (H:=host) [v27; v36] false false run.1.2 = (Ok tt, run.1.2, l').
Proof.
  intros run.
  apply (proj1 (activate_idempotent (H:=host) [v27; v36] false false fresh run.1.2 run.2
                  (run_eta run tt ltac:(vm_compute; reflexivity)))).
  intros q Hchild Hsome.
  assert (Hq : q ∈ os.listdir (fs run.1.2) scripts) by (by apply elem_of_listdir).
  vm_compute in Hq.
  repeat (apply elem_of_cons in Hq as [->|Hq]); try (by inversion Hq);
    eexists; vm_compute; reflexivity.
Defined.

(** C5, as stated, fails. The script [pip3.6.exe] of 3.6 is read-only.
    [activate [3.6]] completes and publishes a copy of it, which
    [shutil.copy2] leaves read-only as well. The second [activate [3.6]]
    removes the other entries, [wheel.exe] among them, cannot remove
    that copy and fails in its teardown with [PermissionError]: it
    leaves the shared scripts directory without the commands the first
    run had published. *)
Lemma read_only_copy_blocks_second_activate :
  let target := pathlib.joinpath scripts "pip3.6.exe" in
  let other := pathlib.joinpath scripts "wheel.exe" in
  let run := operations.activate (H:=host) [v36] false true read_only_script in
  let again := operations.activate (H:=host) [v36] false true run.1.2 in
  run.1.1 = Ok tt ∧
  fs run.1.2 !! target = Some (File "pip-3.6" true) ∧
  fs run.1.2 !! other = Some (File "wheel-3.6" false) ∧
  again.1.1 = Raise (PermissionError target) ∧
  fs again.1.2 !! other = None.
Proof. vm_compute. repeat split. Qed.

(** C7 on the concrete host: 3.5 is not among the active versions
    [3.6; 2.7]. *)
Lemma update_active_versions_noop_witness :
  operations.update_active_versions (H:=host) [v35] two_active = (Ok tt, two_active, []).
Proof.
  apply (update_active_versions_noop (H:=host) [v35] ["3.6"; "2.7"] two_active).
  - reflexivity.
  - intros v Hv. apply elem_of_cons in Hv as [->|Hv]; [|inversion Hv].
    vm_compute. intros Hin. apply elem_of_cons in Hin as [[=]|Hin].
    apply elem_of_cons in Hin as [[=]|Hin]. inversion Hin.
Defined.



End on_scenario.

(** * Further properties of the operations *)

(** ** Splitting and joining lines *)

Lemma rev_app_rev_app (a b c : string) :
  String.rev_app (String.rev_app a b) c = String.rev_app b (a +:+ c).
Proof.
  revert b c. induction a as [|x a IH]; intros b c; [done|].
  simpl. by rewrite IH.
Qed.

Lemma app_nil_r_str (a : string) : a +:+ "" = a.
Proof. induction a as [|x a IH]; [done|]. by rewrite app_cons, IH. Qed.

Lemma rev_rev_app (w : string) : String.rev (String.rev_app w "") = w.
Proof. unfold String.rev. rewrite rev_app_rev_app. simpl. apply app_nil_r_str. Qed.

Lemma has_space_rev_app (a b : string) :
  has_space (String.rev_app a b) = has_space a || has_space b.
Proof.
  revert b. induction a as [|x a IH]; intros b; [done|]. simpl. rewrite IH. simpl.
  by destruct (str.isspace x), (has_space a), (has_space b).
Qed.

Lemma rev_app_ne (a b : string) : b ≠ "" → String.rev_app a b ≠ "".
Proof.
  revert b. induction a as [|x a IH]; intros b Hb; [done|]. simpl. by apply IH.
Qed.

(** Reading a run of non-blank characters extends the current word. *)
Lemma split_go_word (cur : option string) (w s : string) :
  has_space w = false →
  str.split_go cur (w +:+ s) =
    str.split_go (match w with
                  | "" => cur
                  | _ => Some (String.rev_app w (default "" cur))
                  end) s.
Proof.
  revert cur. induction w as [|a w IH]; intros cur Hw; [done|].
  simpl in Hw. apply orb_false_iff in Hw as [Ha Hw].
  rewrite app_cons. simpl. rewrite Ha, IH by done. by destruct w.
Qed.

Lemma split_join (names : list string) :
  Forall word names → str.split (str.join str.newline names) = names.
Proof.
  unfold str.split. induction 1 as [|x names [Hx Hsp] Hnames IH]; [done|].
  destruct names as [|y names].
  - simpl. rewrite <-(app_nil_r_str x) at 1. rewrite split_go_word by done.
    destruct x; [done|]. simpl. change (String.rev_app x (String a "")) with
      (String.rev_app (String a x) ""). by rewrite rev_rev_app.
  - change (str.join str.newline (x :: y :: names))
      with (x +:+ str.newline +:+ str.join str.newline (y :: names)).
    rewrite split_go_word by done. unfold str.newline at 1. rewrite app_cons, app_nil_l.
    destruct x as [|a x]; [done|]. cbn [str.split_go str.isspace]. rewrite IH.
    simpl. change (String.rev_app x (String a "")) with
      (String.rev_app (String a x) ""). by rewrite rev_rev_app.
Qed.

(** Every piece that [split] returns is a word. *)
Lemma split_go_words (cur : option string) (s : string) :
  (∀ c, cur = Some c → c ≠ "" ∧ has_space c = false) →
  Forall word (str.split_go cur s).
Proof.
  revert cur. induction s as [|a s IH]; intros cur Hcur; simpl.
  - destruct cur as [c|]; [|constructor]. destruct (Hcur c eq_refl) as [Hne Hsp].
    constructor; [|constructor]. split.
    + unfold String.rev. destruct c; [done|]. simpl. by apply rev_app_ne.
    + unfold String.rev. rewrite has_space_rev_app, Hsp. done.
  - destruct (str.isspace a) eqn:Ha.
    + apply Forall_app. split; [|by apply IH].
      destruct cur as [c|]; [|constructor]. destruct (Hcur c eq_refl) as [Hne Hsp].
      constructor; [|constructor]. split.
      * unfold String.rev. destruct c; [done|]. simpl. by apply rev_app_ne.
      * unfold String.rev. rewrite has_space_rev_app, Hsp. done.
    + apply IH. intros c [= <-]. split; [done|]. simpl. rewrite Ha. simpl.
      destruct cur as [c|]; [|done]. by destruct (Hcur c eq_refl).
Qed.

Lemma split_words (s : string) : Forall word (str.split s).
Proof. apply split_go_words. by intros c [=]. Qed.

Lemma filter_words (names : list string) :
  Forall word names → filter (λ v, v ≠ "") names = names.
Proof.
  induction 1 as [|x names [Hx _] _ IH]; [done|].
  rewrite filter_cons_True by done. by rewrite IH.
Qed.

(** ** The persisted list of active versions *)

Section persisted.
Context `{!Host}.

Lemma run_get_active_names (s : state) :
  operations.get_active_names s =
    (Ok match python_versions s with
        | None => []
        | Some content => filter (λ v, v ≠ "") (str.split content)
        end, s, []).
Proof.
  unfold operations.get_active_names. rewrite run_bind. simpl.
  by destruct (python_versions s).
Qed.

Lemma active_names_words (s : state) (names : list string) :
  operations.get_active_names s = (Ok names, s, []) → Forall word names.
Proof.
  rewrite run_get_active_names. intros [= <-]. destruct (python_versions s) as [c|]; [|done].
  apply Forall_forall. intros x [_ Hx]%list_elem_of_filter.
  revert x Hx. apply Forall_forall, split_words.
Qed.

(** X1. The persisted ActiveSet round-trips: once [activate] has
    completed on versions whose names are words (non-empty, without blank
    characters), [get_active_names] reads back exactly their names, in
    the order given, whatever the list was before. *)
Theorem activate_then_get_active_names (versions : list Version) (allow_empty quiet : bool)
    (s s' : state) (l : list event) :
  Forall word (name <$> versions) →
  operations.activate versions allow_empty quiet s = (Ok tt, s', l) →
  operations.get_active_names s' = (Ok (name <$> versions), s', []).
Proof.
  intros Hwords. rewrite run_activate.
  destruct (negb allow_empty && bool_decide (versions = [])); [done|].
  destruct (os.is_dir_in (fs s) get_scripts_dir_path); [|done].
  destruct (for_ _ os.unlink s) as [[[[]|e] s1] l1]; [|done].
  destruct (for_ versions _ s1) as [[[[]|e] s2] l2]; [|done].
  intros [= <- _]. rewrite run_get_active_names. simpl.
  by rewrite split_join, filter_words.
Qed.

Lemma list_remove_Some (x : string) (l l' : list string) :
  operations.list_remove x l = Some l' →
  ∃ l1 l2, l = l1 ++ x :: l2 ∧ l' = l1 ++ l2.
Proof.
  revert l'. induction l as [|y l IH]; intros l'; simpl; [done|].
  case_decide as Hy.
  - intros [= <-]. exists [], l. by rewrite Hy.
  - destruct (operations.list_remove x l) as [l0|]; [|done]. intros [= <-].
    destruct (IH l0 eq_refl) as (l1 & l2 & -> & ->). by exists (y :: l1), l2.
Qed.

Lemma list_remove_None (x : string) (l : list string) :
  operations.list_remove x l = None → x ∉ l.
Proof.
  induction l as [|y l IH]; simpl; [intros _; apply not_elem_of_nil|].
  case_decide as Hy; [done|].
  destruct (operations.list_remove x l) as [l0|]; [done|]. intros _.
  apply not_elem_of_cons. split; [done | by apply IH].
Qed.

(** The loop of [update_active_versions] drops from a duplicate-free list
    exactly the names of the versions to remove. *)
Lemma remove_loop_spec (remove : list Version) (active_names : list string) (s : state) :
  NoDup active_names →
  ∃ names l,
    operations.remove_loop remove active_names s = (Ok names, s, l) ∧
    NoDup names ∧
    ∀ x, x ∈ names ↔ x ∈ active_names ∧ x ∉ name <$> remove.
Proof.
  revert active_names. induction remove as [|v remove IH]; intros active_names Hnodup.
  - exists active_names, []. split; [done|]. split; [done|]. intros x. split; [|by intros [? _]].
    intros Hx. split; [done | apply not_elem_of_nil].
  - simpl. destruct (operations.list_remove (name v) active_names) as [names0|] eqn:Hrem.
    + apply list_remove_Some in Hrem as (l1 & l2 & -> & ->).
      apply NoDup_app in Hnodup as (H1 & H12 & [Hv H2]%NoDup_cons).
      assert (Hnodup' : NoDup (l1 ++ l2)).
      { apply NoDup_app. split; [done|]. split; [|done].
        intros x Hx Hx2. apply (H12 x Hx). by right. }
      destruct (IH (l1 ++ l2) Hnodup') as (names & l & Hrun & Hnd & Hmem).
      exists names, (Stdout ("Deactivating " +:+ version_str v) :: l).
      split; [by rewrite run_bind; simpl; rewrite Hrun|]. split; [done|].
      intros x. rewrite Hmem. rewrite ?fmap_cons, not_elem_of_cons.
      rewrite !elem_of_app, elem_of_cons. split.
      * intros [[Hx|Hx] Hnot]; (split; [tauto|]); (split; [|done]); intros ->.
        -- apply (H12 (name v) Hx). by left.
        -- done.
      * intros [[Hx|[Hx|Hx]] [Hne Hnot]]; (split; [|done]); tauto.
    + apply list_remove_None in Hrem.
      destruct (IH active_names Hnodup) as (names & l & Hrun & Hnd & Hmem).
      exists names, l. split; [done|]. split; [done|].
      intros x. rewrite Hmem, ?fmap_cons, not_elem_of_cons. split; [|tauto].
      intros [Hx Hnot]. split; [done|]. split; [|done]. by intros ->.
Qed.

(** On a host that can install 64-bit builds, the lookup is exact. *)
Lemma run_get_version_exact (requested : string) (s : state) :
  can_install_64bit = true →
  operations.get_version requested s =
    match versions_dir !! requested with
    | None => (Raise (Exit 1), s, [Stderr ("No such version: " +:+ requested)])
    | Some d =>
        match InstallerType_of (installer_type d) with
        | None => (Raise (ValueError (installer_type d)), s, [])
        | Some ty =>
            (Ok {| name := requested; url := json_url d; md5_sum := json_md5_sum d;
                   version_info := json_version_info d; klass := ty |}, s, [])
        end
    end.
Proof.
  intros H64. unfold operations.get_version, versions.get_version_force_32, versions.get_version.
  rewrite H64. simpl. rewrite run_bind. unfold try_except.
  destruct (versions_dir !! requested) as [d|]; [|done].
  destruct (InstallerType_of (installer_type d)) as [ty|]; [|done].
  simpl. by rewrite bool_decide_false by (by intros ?).
Qed.

Lemma for_list_get_version_names (names : list string) (versions : list Version)
    (s s' : state) (l : list event) :
  can_install_64bit = true →
  for_list names operations.get_version s = (Ok versions, s', l) →
  name <$> versions = names ∧ s' = s.
Proof.
  intros H64. revert versions s' l. induction names as [|n names IH]; intros versions s' l; simpl.
  - by intros [= <- <-].
  - rewrite run_bind, run_get_version_exact by done.
    destruct (versions_dir !! n) as [d|]; [|done].
    destruct (InstallerType_of (installer_type d)) as [ty|]; [|done].
    rewrite run_bind.
    destruct (for_list names operations.get_version s) as [[[vs|e] s1] l1] eqn:Hrest; [|done].
    intros [= <- <- _]. destruct (IH _ _ _ eq_refl) as [<- ->]. done.
Qed.

Lemma NoDup_set_iter (X : gset string) : NoDup (set_iter X).
Proof. rewrite set_iter_perm. apply NoDup_elements. Qed.

Lemma activate_python_versions (versions : list Version) (allow_empty quiet : bool)
    (s s' : state) (l : list event) :
  operations.activate versions allow_empty quiet s = (Ok tt, s', l) →
  python_versions s' = Some (str.join str.newline (name <$> versions)).
Proof.
  rewrite run_activate.
  destruct (negb allow_empty && bool_decide (versions = [])); [done|].
  destruct (os.is_dir_in (fs s) get_scripts_dir_path); [|done].
  destruct (for_ _ os.unlink s) as [[[[]|e] s1] l1]; [|done].
  destruct (for_ versions _ s1) as [[[[]|e] s2] l2]; [|done].
  by intros [= <- _].
Qed.

(** What a completed [update_active_versions] does to the active names. *)
Lemma update_active_versions_names (remove : list Version)
    (s s' : state) (l : list event) :
  can_install_64bit = true →
  operations.update_active_versions remove s = (Ok tt, s', l) →
  ∃ names names',
    operations.get_active_names s = (Ok names, s, []) ∧
    operations.get_active_names s' = (Ok names', s', []) ∧
    ∀ x, x ∈ names' ↔ x ∈ names ∧ x ∉ name <$> remove.
Proof.
  intros H64. unfold operations.update_active_versions.
  rewrite run_bind. pose proof (run_get_active_names s) as Hnames. rewrite Hnames.
  set (names := match python_versions s with None => [] | Some c => _ end) in *.
  destruct (remove_loop_spec remove (set_iter (list_to_set names)) s (NoDup_set_iter _))
    as (kept & l1 & Hloop & Hnodup & Hmem).
  rewrite run_bind, Hloop.
  assert (Hkept : ∀ x, x ∈ kept ↔ x ∈ names ∧ x ∉ name <$> remove).
  { intros x. by rewrite Hmem, elem_of_set_iter, elem_of_list_to_set. }
  case_bool_decide as Hsize.
  - rewrite run_bind.
    destruct (for_list kept operations.get_version s) as [[[versions|e] s1] l2] eqn:Hlookup;
      [|done].
    apply for_list_get_version_names in Hlookup as [Hversions ->]; [|done].
    destruct (operations.activate versions true false s) as [[r s2] l3] eqn:Hact.
    intros [= -> -> _]. apply activate_python_versions in Hact. rewrite Hversions in Hact.
    exists names, kept. split; [done|]. split; [|done].
    rewrite run_get_active_names, Hact.
    assert (Hwords : Forall word kept).
    { apply Forall_forall. intros x [Hx _]%Hkept.
      revert x Hx. apply Forall_forall. by eapply active_names_words. }
    by rewrite split_join, filter_words.
  - intros [= <- _]. exists names, names. split; [done|]. split; [done|].
    intros x. split; [|by intros [? _]]. intros Hx. split; [done|].
    assert (Hperm : kept ≡ₚ set_iter (list_to_set names)).
    { apply submseteq_length_Permutation.
      - apply NoDup_submseteq; [done|]. by intros y [? _]%Hmem.
      - rewrite set_iter_length. lia. }
    assert (Hin : x ∈ kept).
    { rewrite Hperm, elem_of_set_iter, elem_of_list_to_set. done. }
    by apply Hkept in Hin as [_ ?].
Qed.

(** X2. On a host that can install 64-bit builds, a completed
    [update_active_versions] removes from the ActiveSet exactly the names
    of the versions given: a name is active afterwards if and only if it
    was active before and is not the name of a version to remove. *)
Theorem update_active_versions_membership (remove : list Version)
    (s s' : state) (l : list event) :
  can_install_64bit = true →
  operations.update_active_versions remove s = (Ok tt, s', l) →
  ∃ names names',
    operations.get_active_names s = (Ok names, s, []) ∧
    operations.get_active_names s' = (Ok names', s', []) ∧
    ∀ x, x ∈ names' ↔ x ∈ names ∧ x ∉ name <$> remove.
Proof. apply update_active_versions_names. Qed.

(** X16. On a host that can install 64-bit builds,
    [update_active_versions] is idempotent: once a removal has
    completed, asking for the same removal again changes nothing and
    prints nothing. *)
Theorem update_active_versions_idempotent (remove : list Version)
    (s s' : state) (l : list event) :
  can_install_64bit = true →
  operations.update_active_versions remove s = (Ok tt, s', l) →
  operations.update_active_versions remove s' = (Ok tt, s', []).
Proof.
  intros H64 Hrun.
  destruct (update_active_versions_names remove s s' l H64 Hrun)
    as (names & names' & _ & Hnames' & Hmem).
  unfold operations.update_active_versions.
  rewrite (run_bind_Ok _ _ _ _ _ _ Hnames').
  rewrite run_bind, remove_loop_absent.
  - rewrite set_iter_length, bool_decide_false by (intros Hne; by apply Hne). done.
  - intros v Hv. rewrite elem_of_set_iter, elem_of_list_to_set. intros [_ Hnot]%Hmem.
    apply Hnot. apply list_elem_of_fmap. by exists v.
Qed.

(** X17. When the persisted file is missing or holds ASCII text (which
    [read_text] decodes as it is, and whose blanks are the ASCII ones),
    [get_active_names] returns the blank-separated pieces of the file
    (none when the file is missing) and leaves the state alone; each
    piece is a non-empty name without blank characters, so that the
    filter on empty names never drops anything. *)
Theorem get_active_names_words (s : state) :
  (∀ content, python_versions s = Some content → is_ascii content = true) →
  ∃ names,
    operations.get_active_names s = (Ok names, s, []) ∧
    Forall word names ∧
    names = match python_versions s with
            | None => []
            | Some content => str.split content
            end.
Proof.
  intros _. eexists. split; [apply run_get_active_names|]. split.
  - eapply active_names_words, run_get_active_names.
  - destruct (python_versions s) as [content|]; [|done].
    apply filter_words, split_words.
Qed.

(** X3. On a host that can install 64-bit builds, [get_version] never
    substitutes: when it returns, the version carries the requested name
    and the fields of the catalog entry of that name, nothing is printed
    and the state is as before; when the catalog has no entry of that
    name, it exits with code 1 after one line on standard error, again
    without touching the state. *)
Theorem get_version_exact_on_64bit (requested : string) (s : state) :
  can_install_64bit = true →
  (∀ version s' l,
     operations.get_version requested s = (Ok version, s', l) →
     s' = s ∧ l = [] ∧ name version = requested ∧
     ∃ d, versions_dir !! requested = Some d ∧
          url version = json_url d ∧ md5_sum version = json_md5_sum d ∧
          version_info version = json_version_info d ∧
          InstallerType_of (installer_type d) = Some (klass version)) ∧
  (versions_dir !! requested = None →
     operations.get_version requested s =
       (Raise (Exit 1), s, [Stderr ("No such version: " +:+ requested)])).
Proof.
  intros H64. rewrite run_get_version_exact by done. split.
  - intros version s' l. destruct (versions_dir !! requested) as [d|]; [|done].
    destruct (InstallerType_of (installer_type d)) as [ty|] eqn:Hty; [|done].
    intros [= <- <- <-]. simpl. eauto 10.
  - by intros ->.
Qed.

End persisted.

(** ** What a completed activation leaves behind *)

Section activation.
Context `{!Host}.

Lemma written_entries_stable (m0 : gmap path node) :
  stable (λ _, False) (written_entries m0).
Proof.
  split.
  - intros s l line [Hframe Hfiles]. split; [done|]. intros q Hq.
    destruct (Hfiles q Hq) as [Hnone | (data & locked & Hdata & Hlast)]; [by left | right].
    exists data, locked. split; [done|]. rewrite written_data_app. simpl.
    by rewrite (right_id_L [] (++)).
  - intros s l q data locked [Hframe Hfiles] Hchild _. split.
    + intros q' Hq'. simpl. rewrite lookup_insert_ne; [by apply Hframe | by intros ->].
    + intros q' Hq'. simpl. destruct (decide (q = q')) as [->|Hne].
      * right. exists data, locked. rewrite lookup_insert_eq. split; [done|].
        by rewrite written_data_app, written_data_written_eq, last_snoc.
      * rewrite lookup_insert_ne by done.
        rewrite written_data_app, written_data_written_ne by done.
        rewrite (right_id_L [] (++)). by apply Hfiles.
Qed.

Lemma published_stable (m0 : gmap path node) (target : path) :
  stable (λ _, False) (published m0 target).
Proof.
  destruct (rebuilt_from_stable m0) as [Hecho Hwrite]. split.
  - intros s l line [Hre Hsome]. split; [by apply Hecho | done].
  - intros s l q data locked [Hre Hsome] Hchild _.
    split; [apply Hwrite; [done | done | by intros []]|].
    simpl. destruct (decide (q = target)) as [->|Hne].
    + rewrite lookup_insert_eq. eauto.
    + by rewrite lookup_insert_ne.
Qed.

(** The rebuild loop keeps every assertion that survives console output
    and writes of files into the shared scripts directory. *)
Lemma populate_stable (I : state → list event → Prop) (versions : list Version)
    (quiet : bool) :
  stable (λ _, False) I →
  hoare I
    (for_ versions (λ version,
       operations.publish_version_scripts version get_scripts_dir_path quiet false))
    (λ _, I).
Proof.
  intros Hstable. apply hoare_for. intros version _.
  apply (publish_version_scripts_stable (λ _, False)); [done| |].
  - by intros s l _ [[]|[]].
  - by intros s1 l1 s l p _ _ _ _ _ _ [].
Qed.

(** A completed [activate], split into its teardown and its rebuild. *)
Lemma activate_inv (versions : list Version) (allow_empty quiet : bool)
    (s s' : state) (l : list event) :
  let m1 := delete_all (os.listdir (fs s) get_scripts_dir_path) (fs s) in
  let names := str.join str.newline (name <$> versions) in
  operations.activate versions allow_empty quiet s = (Ok tt, s', l) →
  ∃ s2 l1 l2,
    for_ (os.listdir (fs s) get_scripts_dir_path) os.unlink s
      = (Ok tt, set_fs (λ _, m1) s, l1) ∧
    for_ versions (λ version,
      operations.publish_version_scripts version get_scripts_dir_path quiet false)
      (set_fs (λ _, m1) s) = (Ok tt, s2, l2) ∧
    s' = State (fs s2) (Some names) ∧
    l = ((echo_log quiet "Removing scripts." ++ l1) ++ l2) ++ [Persisted names] ∧
    (∀ q, written_data q l1 = []).
Proof.
  intros m1 names. rewrite run_activate.
  destruct (negb allow_empty && bool_decide (versions = [])); [done|].
  destruct (os.is_dir_in (fs s) get_scripts_dir_path); [|done].
  destruct (for_ _ os.unlink s) as [[[[]|e] s1] l1] eqn:Hteardown; [|done].
  destruct (for_ versions _ s1) as [[[[]|e] s2] l2] eqn:Hpopulate; [|done].
  intros [= <- <-]. pose proof Hteardown as Hrun.
  apply teardown_inv in Hteardown as [Hrem ->].
  rewrite run_teardown in Hrun; [|apply NoDup_listdir|done]. injection Hrun as <-.
  exists s2, (Unlinked <$> os.listdir (fs s) get_scripts_dir_path), l2.
  split; [done|]. split; [exact Hpopulate|]. split; [done|].
  split; [by rewrite <-!(assoc_L (++))|]. intros q. apply written_data_unlinked.
Qed.

Lemma emptied_lookup (m : gmap path node) (q : path) :
  delete_all (os.listdir m get_scripts_dir_path) m !! q =
    if decide (pathlib.child_of get_scripts_dir_path q) then None else m !! q.
Proof. apply lookup_delete_all_listdir. Qed.

(** X4. A completed [activate] rebuilds the shared scripts directory
    from scratch and touches nothing else: every path outside the
    directory is as before, and every entry of the directory is a file
    that this very run wrote, holding the data of the last write to it
    in the log. In particular no entry survives from before the run. *)
Theorem activate_rebuilds_from_scratch (versions : list Version) (allow_empty quiet : bool)
    (s s' : state) (l : list event) :
  operations.activate versions allow_empty quiet s = (Ok tt, s', l) →
  (∀ q, ¬ pathlib.child_of get_scripts_dir_path q → fs s' !! q = fs s !! q) ∧
  (∀ q n, pathlib.child_of get_scripts_dir_path q → fs s' !! q = Some n →
     ∃ data locked, n = File data locked ∧ last (written_data q l) = Some data).
Proof.
  intros (s2 & l1 & l2 & _ & Hpopulate & -> & -> & Hl1)%activate_inv.
  set (m1 := delete_all _ _) in *.
  assert (H1 : written_entries m1 (set_fs (λ _, m1) s)
                 (echo_log quiet "Removing scripts." ++ l1)).
  { split; [done|]. intros q Hq. left. simpl. unfold m1.
    by rewrite emptied_lookup, decide_True. }
  destruct (populate_stable _ versions quiet (written_entries_stable m1) _ _ H1 _ _ _ Hpopulate)
    as [Hframe Hfiles].
  split.
  - intros q Hq. simpl. rewrite Hframe by done. unfold m1.
    by rewrite emptied_lookup, decide_False.
  - intros q n Hq Hn. simpl in Hn.
    destruct (Hfiles q Hq) as [Hnone | (data & locked & Hdata & Hlast)]; [congruence|].
    exists data, locked. split; [congruence|].
    rewrite written_data_app. simpl. by rewrite (right_id_L [] (++)).
Qed.

(** X5. After a completed [activate], the interpreter command
    [python<major>.exe] of every listed version is present in the shared
    scripts directory, as a file. *)
Theorem activate_publishes_python_commands (versions : list Version)
    (allow_empty quiet : bool) (s s' : state) (l : list event) (version : Version) :
  operations.activate versions allow_empty quiet s = (Ok tt, s', l) →
  version ∈ versions →
  ∃ data locked,
    fs s' !! pathlib.joinpath get_scripts_dir_path (python_command version)
      = Some (File data locked).
Proof.
  intros (s2 & l1 & l2 & _ & Hpopulate & -> & _ & _)%activate_inv Hin.
  set (m1 := delete_all _ _) in *.
  set (target := pathlib.joinpath get_scripts_dir_path (python_command version)).
  assert (H1 : rebuilt_from m1 (set_fs (λ _, m1) s) []).
  { split; [done|]. intros q Hq. left. simpl. unfold m1.
    by rewrite emptied_lookup, decide_True. }
  apply list_elem_of_split in Hin as (before & after & ->).
  rewrite run_for_app in Hpopulate.
  apply run_bind_inv in Hpopulate as ([] & sa & la & lb & Hbefore & Hrest & ->).
  cbn [for_] in Hrest.
  apply run_bind_inv in Hrest as ([] & sb & lc & ld & Hversion & Hafter & ->).
  pose proof (populate_stable _ before quiet (rebuilt_from_stable m1) _ _ H1 _ _ _ Hbefore)
    as Hre.
  rewrite publish_version_scripts_unfold in Hversion.
  apply (run_bind_Ok_inv _ _ _ _ _ _ _ _ _ (run_when_echo _ _ sa)) in Hversion
    as (le & Hversion & ->).
  apply run_bind_inv in Hversion as ([] & sc & lf & lg & Hshim & Hscripts & ->).
  assert (Hpub : published m1 target sc (([] ++ la) ++
            echo_log quiet ("Publishing " +:+ version_str version +:+ "...") ++ lf)).
  { split.
    - rewrite (assoc_L (++)).
      refine (publish_shim_stable (λ _, False) _ _ _ _ (rebuilt_from_stable m1) _ _ sa _ _ _ _ _
                Hshim); [done | by intros ?? _ [[]|[]] |].
      eapply stable_echo_log; [apply rebuilt_from_stable | done].
    - apply publish_shim_inv in Hshim
        as [(Hsome & -> & ->) | (_ & data & locked & _ & -> & _)]; [done|].
      simpl. fold target. rewrite lookup_insert_eq. eauto. }
  assert (Hpub2 : published m1 target sb ((([] ++ la) ++
            echo_log quiet ("Publishing " +:+ version_str version +:+ "...") ++ lf) ++ lg)).
  { refine (publish_scripts_stable (λ _, False) _ _ _ (published_stable m1 target) _
              sc _ Hpub _ _ _ Hscripts). by intros ?????? _ _ _ _ _ []. }
  destruct (populate_stable _ after quiet (published_stable m1 target) _ _ Hpub2 _ _ _ Hafter)
    as [[_ Hfiles] [n Hn]].
  simpl. destruct (Hfiles target) as [Hnone | Hfile]; [done | congruence |].
  unfold os.is_file_in in Hfile.
  destruct (fs s2 !! target) as [[data locked|]|] eqn:Htarget; [|done|done].
  by exists data, locked.
Qed.



End activation.

(** ** Pinned commands *)

Section pinned.
Context `{!Host}.

Lemma elem_of_unlink_targets (version : Version) (q : path) :
  q ∈ unlink_targets version ↔
  ∃ p, p ∈ python_commands version ++ pip_commands version ∧ (q = p ∨ q = sidecar p).
Proof.
  unfold unlink_targets. rewrite list_elem_of_bind. split.
  - intros (p & Hq & Hp). exists p. split; [done|].
    apply elem_of_cons in Hq as [->|Hq]; [by left|].
    apply list_elem_of_singleton in Hq as ->. by right.
  - intros (p & Hp & [->| ->]); exists p; (split; [|done]); [by left | right; by left].
Qed.

(** What [unlink_commands] logs as removed was a removable declared
    path. *)
Lemma unlink_loop_unlinked (cmds : list path) (s s' : state) (a : unit) (l : list event) (q : path) :
  for_ cmds (λ p,
    click.echo ("Unlinking " +:+ pathlib.name p);;
    operations.safe_unlink p;;
    operations.safe_unlink (pathlib.with_suffix p ".shim")) s = (Ok a, s', l) →
  Unlinked q ∈ l →
  q ∈ (p ← cmds; [p; pathlib.with_suffix p ".shim"]) ∧ removable (fs s) q.
Proof.
  revert s l. induction cmds as [|p cmds IH]; intros s l; cbn [for_].
  - intros [= _ _ <-] Hq. by apply not_elem_of_nil in Hq.
  - rewrite run_bind, (run_bind (click.echo _)).
    unfold click.echo at 1, emit at 1. cbn iota beta.
    rewrite run_bind, run_safe_unlink, run_safe_unlink. cbn iota beta.
    set (s1 := set_fs (unlink_if_removable p) s).
    set (s2 := set_fs (unlink_if_removable _) s1).
    destruct (for_ cmds _ s2) as [[r s3] l3] eqn:Hrest. intros [= -> -> <-] Hq.
    assert (Hlog : ∀ m x, Unlinked q ∈ safe_unlink_log x m → q = x ∧ removable m q).
    { intros m x. unfold safe_unlink_log. destruct (m !! x) as [[d [|]|]|] eqn:Hx.
      - intros [=]%list_elem_of_singleton.
      - intros [= ->]%list_elem_of_singleton. split; [done | by exists d].
      - intros [=]%list_elem_of_singleton.
      - by intros ?%not_elem_of_nil. }
    cbn [mbind list_bind]. rewrite ?elem_of_cons, ?elem_of_app in Hq.
    rewrite elem_of_app, !elem_of_cons. destruct Hq as [Hq|[[Hq|Hq]|Hq]].
    + done.
    + apply Hlog in Hq as [-> Hq]. split; [tauto | done].
    + apply Hlog in Hq as [-> Hq]. split; [tauto|].
      by apply removable_unlink_if_removable in Hq as [? _].
    + apply (IH _ _ Hrest) in Hq as [Hin Hq]. split; [tauto|]. simpl in Hq.
      apply removable_unlink_if_removable in Hq as [Hq _].
      by apply removable_unlink_if_removable in Hq as [? _].
Qed.

Lemma set_fs_fixed (f : gmap path node → gmap path node) (s : state) :
  f (fs s) = fs s → set_fs f s = s.
Proof. destruct s as [m pv]. unfold set_fs. simpl. by intros ->. Qed.

(** X7. [unlink_commands] is idempotent: run again right after itself,
    it completes, leaves the state as the first run left it and removes
    nothing. *)
Theorem unlink_commands_idempotent (version : Version) (s : state) :
  ∃ s1 l1 l2,
    operations.unlink_commands version s = (Ok tt, s1, l1) ∧
    operations.unlink_commands version s1 = (Ok tt, s1, l2) ∧
    ∀ q, Unlinked q ∉ l2.
Proof.
  set (cmds := python_commands version ++ pip_commands version).
  destruct (run_unlink_loop cmds s) as (l1 & Hrun1 & _).
  set (s1 := set_fs (unlink_all (p ← cmds; [p; pathlib.with_suffix p ".shim"])) s) in *.
  destruct (run_unlink_loop cmds s1) as (l2 & Hrun2 & _).
  assert (Hstuck : ∀ q, q ∈ (p ← cmds; [p; pathlib.with_suffix p ".shim"]) →
            ¬ removable (fs s1) q).
  { intros q Hq [d Hd]. simpl in Hd. rewrite lookup_unlink_all in Hd.
    case_decide as Hdec; [done|]. apply Hdec. split; [done | by exists d]. }
  assert (Hsame : set_fs (unlink_all (p ← cmds; [p; pathlib.with_suffix p ".shim"])) s1 = s1).
  { apply set_fs_fixed. apply map_eq. intros q. rewrite lookup_unlink_all.
    case_decide as Hdec; [|done]. destruct Hdec as [Hq Hr]. by destruct (Hstuck q Hq). }
  rewrite Hsame in Hrun2.
  exists s1, l1, l2. split; [exact Hrun1|]. split; [exact Hrun2|].
  intros q Hq. destruct (unlink_loop_unlinked _ _ _ _ _ _ Hrun2 Hq) as [Hin Hr].
  by destruct (Hstuck q Hin).
Qed.

Lemma publish_file_force_inv (source target : path) (quiet : bool) (s s' : state)
    (a : unit) (l : list event) :
  operations.publish_file source target true quiet s = (Ok a, s', l) →
  fs s !! target ≠ Some Dir →
  ∃ data locked,
    fs s !! source = Some (File data locked) ∧
    s' = set_fs <[target := File data locked]> s.
Proof.
  unfold operations.publish_file. intros Hrun Hnodir.
  apply (run_bind_Ok_inv _ _ _ _ _ _ _ _ _ (run_exists target s)) in Hrun as (l0 & Hrun & ->).
  simpl in Hrun.
  apply (run_bind_Ok_inv _ _ _ _ _ _ _ _ _ (run_when_echo _ _ s)) in Hrun as (l1 & Hrun & ->).
  apply copy2_inv in Hrun as (data & locked & dst' & Hdst' & Hsrc & -> & ->).
  assert (dst' = target) as ->.
  { rewrite Hdst'. unfold os.is_dir_in. by destruct (fs s !! target) as [[]|]. }
  eauto.
Qed.

Lemma publish_shim_force_inv (target content : path) (quiet : bool) (s s' : state)
    (a : unit) (l : list event) :
  operations.publish_shim target content true quiet s = (Ok a, s', l) →
  fs s !! target ≠ Some Dir →
  ∃ data locked,
    <[sidecar target := File (pathlib.to_str content) false]> (fs s)
      !! get_generic_shim_path = Some (File data locked) ∧
    s' = set_fs <[target := File data locked]>
           (set_fs <[sidecar target := File (pathlib.to_str content) false]> s).
Proof.
  unfold operations.publish_shim. intros Hrun Hnodir.
  apply (run_bind_Ok_inv _ _ _ _ _ _ _ _ _ (run_exists target s)) in Hrun as (l0 & Hrun & ->).
  simpl in Hrun.
  apply (run_bind_Ok_inv _ _ _ _ _ _ _ _ _ (run_when_echo _ _ s)) in Hrun as (l1 & Hrun & ->).
  apply run_bind_inv in Hrun as ([] & s1 & l2 & l3 & Hwrite & Hcopy & ->).
  apply write_inv in Hwrite as (-> & -> & _).
  apply copy2_inv in Hcopy as (data & locked & dst' & Hdst' & Hsrc & -> & ->).
  assert (dst' = target) as ->.
  { rewrite Hdst'. unfold os.is_dir_in. simpl.
    destruct (decide (pathlib.with_suffix target ".shim" = target)) as [->|Hne].
    - by rewrite lookup_insert_eq.
    - rewrite lookup_insert_ne by done. by destruct (fs s !! target) as [[]|]. }
  exists data, locked. done.
Qed.

Lemma linking_not_dir (version : Version) (s0 s : state) (l : list event) (q : path) :
  linking version s0 s l → q ∈ unlink_targets version → fs s !! q ≠ Some Dir.
Proof. intros (_ & _ & Hfiles) Hq. by apply Hfiles. Qed.

(** Writing a file at a declared command or sidecar keeps [linking]. *)
Lemma linking_write (version : Version) (s0 s : state) (l l' : list event)
    (q : path) (data : string) (locked : bool) :
  linking version s0 s l → q ∈ unlink_targets version →
  linking version s0 (set_fs <[q := File data locked]> s) l'.
Proof.
  intros (Hpv & Hframe & Hfiles) Hq. split; [done|]. split.
  - intros q' Hq'. simpl. rewrite lookup_insert_ne; [by apply Hframe | by intros ->].
  - intros q' Hq'. simpl. destruct (decide (q = q')) as [->|Hne].
    + by rewrite lookup_insert_eq.
    + rewrite lookup_insert_ne by done. by apply Hfiles.
Qed.

(** One turn of the first loop of [link_commands]. *)
Lemma link_python_step (version : Version) (s0 s s' : state) (p : path)
    (a : unit) (l0 l l' : list event) :
  let content := pathlib.to_str (python (get_installation version)) in
  p ∈ python_commands version → linking version s0 s l0 →
  (click.echo ("Publishing " +:+ pathlib.name p);;
   operations.publish_python_command (get_installation version) p true true) s
    = (Ok a, s', l) →
  linking version s0 s' l' ∧
  ∃ data locked,
    <[sidecar p := File content false]> (fs s) !! get_generic_shim_path
      = Some (File data locked) ∧
    fs s' = <[p := File data locked]> (<[sidecar p := File content false]> (fs s)).
Proof.
  intros content Hp Hlink Hrun.
  assert (Hin : p ∈ unlink_targets version ∧ sidecar p ∈ unlink_targets version).
  { split; apply elem_of_unlink_targets; exists p; (split; [apply elem_of_app|]); eauto. }
  destruct Hin as [Hin Hsc].
  rewrite run_bind in Hrun. unfold click.echo at 1, emit at 1 in Hrun. cbn iota beta in Hrun.
  destruct (operations.publish_python_command _ _ _ _ s) as [[r s1] l1] eqn:Hpub.
  injection Hrun as -> -> _. unfold operations.publish_python_command in Hpub.
  apply publish_shim_force_inv in Hpub as (data & locked & Hsrc & ->);
    [|by eapply linking_not_dir].
  split; [|by exists data, locked].
  apply (linking_write _ _ _ l0); [|done]. by apply (linking_write _ _ _ l0).
Qed.

(** One turn of the second loop of [link_commands]. *)
Lemma link_pip_step (version : Version) (s0 s s' : state) (p : path)
    (a : unit) (l0 l l' : list event) :
  p ∈ pip_commands version → linking version s0 s l0 →
  (click.echo ("Publishing " +:+ pathlib.name p);;
   operations.publish_pip_command (get_installation version) p true true) s
    = (Ok a, s', l) →
  linking version s0 s' l' ∧
  ∃ data locked,
    fs s !! pip (get_installation version) = Some (File data locked) ∧
    fs s' = <[p := File data locked]> (fs s).
Proof.
  intros Hp Hlink Hrun.
  assert (Hin : p ∈ unlink_targets version).
  { apply elem_of_unlink_targets; exists p; (split; [apply elem_of_app|]); eauto. }
  rewrite run_bind in Hrun. unfold click.echo at 1, emit at 1 in Hrun. cbn iota beta in Hrun.
  destruct (operations.publish_pip_command _ _ _ _ s) as [[r s1] l1] eqn:Hpub.
  injection Hrun as -> -> _. unfold operations.publish_pip_command in Hpub.
  apply publish_file_force_inv in Hpub as (data & locked & Hsrc & ->);
    [|by eapply linking_not_dir].
  split; [|by exists data, locked]. by apply (linking_write _ _ _ l0).
Qed.

Lemma linking_start (version : Version) (s : state) :
  (∀ q, q ∈ unlink_targets version → fs s !! q = None ∨ removable (fs s) q) →
  linking_unlocked version s s [].
Proof.
  intros Hfiles. split; [|done]. split; [done|]. split; [done|].
  intros q Hq. destruct (Hfiles q Hq) as [-> | [d ->]]; done.
Qed.

(** While linking, a file that was not read-only at the start is not
    read-only now. *)
Lemma linking_unlocked_source (version : Version) (s0 s : state) (l : list event)
    (source : path) (data : string) (locked : bool) :
  linking_unlocked version s0 s l → ¬ read_only (fs s0) source →
  fs s !! source = Some (File data locked) → locked = false.
Proof.
  intros [(_ & Hframe & _) Hfiles] Hsource Hdata.
  destruct (decide (source ∈ unlink_targets version)) as [Hin|Hout].
  - destruct (Hfiles source Hin) as [Hnone | [d Hd]]; congruence.
  - rewrite Hframe in Hdata by done. destruct locked; [|done].
    destruct Hsource. by exists data.
Qed.

Lemma linking_unlocked_write (version : Version) (s0 s : state) (l l' : list event)
    (q : path) (data : string) :
  linking_unlocked version s0 s l → q ∈ unlink_targets version →
  linking_unlocked version s0 (set_fs <[q := File data false]> s) l'.
Proof.
  intros [Hlink Hfiles] Hq. split; [by apply (linking_write _ _ _ l)|].
  intros q' Hq'. simpl. destruct (decide (q = q')) as [->|Hne].
  - right. exists data. by rewrite lookup_insert_eq.
  - unfold removable. rewrite lookup_insert_ne by done. by apply Hfiles.
Qed.

Lemma link_python_step_unlocked (version : Version) (s0 : state) (p : path) :
  p ∈ python_commands version → ¬ read_only (fs s0) get_generic_shim_path →
  hoare (linking_unlocked version s0)
    (click.echo ("Publishing " +:+ pathlib.name p);;
     operations.publish_python_command (get_installation version) p true true)
    (λ _, linking_unlocked version s0).
Proof.
  intros Hp Hshim s l0 Hlink a s' l Hrun.
  assert (Hin : p ∈ unlink_targets version ∧ sidecar p ∈ unlink_targets version).
  { split; apply elem_of_unlink_targets; exists p; (split; [apply elem_of_app|]); eauto. }
  destruct Hin as [Hin Hsc].
  rewrite run_bind in Hrun. unfold click.echo at 1, emit at 1 in Hrun. cbn iota beta in Hrun.
  destruct (operations.publish_python_command _ _ _ _ s) as [[r s1] l1] eqn:Hpub.
  injection Hrun as -> -> _. unfold operations.publish_python_command in Hpub.
  apply publish_shim_force_inv in Hpub as (data & locked & Hsrc & ->);
    [|eapply linking_not_dir; [apply Hlink | done]].
  assert (locked = false) as ->.
  { destruct (decide (get_generic_shim_path = sidecar p)) as [Heq|Hne].
    - rewrite Heq, lookup_insert_eq in Hsrc. by injection Hsrc as _ <-.
    - rewrite lookup_insert_ne in Hsrc by done.
      by eapply linking_unlocked_source. }
  apply (linking_unlocked_write _ _ _ l0); [|done].
  by apply (linking_unlocked_write _ _ _ l0).
Qed.

Lemma link_pip_step_unlocked (version : Version) (s0 : state) (p : path) :
  p ∈ pip_commands version → ¬ read_only (fs s0) (pip (get_installation version)) →
  hoare (linking_unlocked version s0)
    (click.echo ("Publishing " +:+ pathlib.name p);;
     operations.publish_pip_command (get_installation version) p true true)
    (λ _, linking_unlocked version s0).
Proof.
  intros Hp Hpip s l0 Hlink a s' l Hrun.
  assert (Hin : p ∈ unlink_targets version).
  { apply elem_of_unlink_targets; exists p; (split; [apply elem_of_app|]); eauto. }
  rewrite run_bind in Hrun. unfold click.echo at 1, emit at 1 in Hrun. cbn iota beta in Hrun.
  destruct (operations.publish_pip_command _ _ _ _ s) as [[r s1] l1] eqn:Hpub.
  injection Hrun as -> -> _. unfold operations.publish_pip_command in Hpub.
  apply publish_file_force_inv in Hpub as (data & locked & Hsrc & ->);
    [|eapply linking_not_dir; [apply Hlink | done]].
  assert (locked = false) as -> by (by eapply linking_unlocked_source).
  by apply (linking_unlocked_write _ _ _ l0).
Qed.

Lemma link_commands_linking (version : Version) (s s' : state) (l : list event) :
  (∀ q, q ∈ unlink_targets version → fs s !! q = None ∨ removable (fs s) q) →
  ¬ read_only (fs s) get_generic_shim_path →
  ¬ read_only (fs s) (pip (get_installation version)) →
  operations.link_commands version s = (Ok tt, s', l) →
  linking_unlocked version s s' l.
Proof.
  intros Hfiles Hshim Hpipsrc Hrun. unfold operations.link_commands in Hrun.
  apply run_bind_inv in Hrun as ([] & s1 & l1 & l2 & Hpython & Hpip & ->).
  pose proof (linking_start version s Hfiles) as H0.
  assert (H1 : linking_unlocked version s s1 ([] ++ l1)).
  { refine (hoare_for (linking_unlocked version s) _ _ _ s _ H0 _ _ _ Hpython).
    intros p Hp. by apply link_python_step_unlocked. }
  refine (hoare_for (linking_unlocked version s) _ _ _ s1 _ H1 _ _ _ Hpip).
  intros p Hp. by apply link_pip_step_unlocked.
Qed.

(** X8. [unlink_commands] undoes [link_commands], as long as nothing
    is read-only. When no declared command or sidecar of a version is a
    directory or a read-only file, neither the dispatcher nor the
    version's own [pip] is read-only (so that their copies are not
    either) and [link_commands] completes, a following
    [unlink_commands] leaves no declared command or sidecar behind, and
    every other path and the persisted ActiveSet are as they were before
    the commands were linked; if none of the declared paths existed
    beforehand, the state is back to the initial one. *)
Theorem link_then_unlink_commands (version : Version) (s s1 : state) (l1 : list event) :
  (∀ q, q ∈ unlink_targets version → fs s !! q = None ∨ removable (fs s) q) →
  ¬ read_only (fs s) get_generic_shim_path →
  ¬ read_only (fs s) (pip (get_installation version)) →
  operations.link_commands version s = (Ok tt, s1, l1) →
  ∃ s2 l2,
    operations.unlink_commands version s1 = (Ok tt, s2, l2) ∧
    python_versions s2 = python_versions s ∧
    (∀ q, fs s2 !! q = if decide (q ∈ unlink_targets version) then None else fs s !! q) ∧
    ((∀ q, q ∈ unlink_targets version → fs s !! q = None) → s2 = s).
Proof.
  intros Hfiles Hshim Hpipsrc Hlink.
  destruct (link_commands_linking _ _ _ _ Hfiles Hshim Hpipsrc Hlink)
    as ((Hpv & Hframe & _) & Hfiles1).
  destruct (run_unlink_loop (python_commands version ++ pip_commands version) s1)
    as (l2 & Hrun & _).
  assert (Hfs : ∀ q, unlink_all (unlink_targets version) (fs s1) !! q =
                  if decide (q ∈ unlink_targets version) then None else fs s !! q).
  { intros q. rewrite lookup_unlink_all.
    destruct (decide (q ∈ unlink_targets version)) as [Hin|Hin].
    - case_decide as Hr; [done|]. destruct (Hfiles1 q Hin) as [Hnone|Hr']; [done|].
      destruct Hr. by split.
    - rewrite decide_False by (by intros [? _]). by apply Hframe. }
  eexists _, l2. split; [exact Hrun|]. split; [done|]. split; [exact Hfs|].
  intros Habsent. destruct s as [m pv], s1 as [m1 pv1]. unfold set_fs. simpl in *.
  f_equal; [|done]. apply map_eq. intros q. unfold unlink_targets in Hfs. rewrite Hfs.
  case_decide as Hin; [|done]. symmetry. by apply Habsent.
Qed.

Lemma linked_python_step (version : Version) (s0 : state) (q : path) (n : node) (p : path) :
  p ∈ python_commands version → q ≠ p → q ≠ sidecar p →
  hoare (linked version s0 q n)
    (click.echo ("Publishing " +:+ pathlib.name p);;
     operations.publish_python_command (get_installation version) p true true)
    (λ _, linked version s0 q n).
Proof.
  intros Hp Hne Hsc s l0 [Hlink Hq] a s' l Hrun.
  destruct (link_python_step version s0 _ _ p _ l0 _ (l0 ++ l) Hp Hlink Hrun)
    as (Hlink' & data & locked & _ & Hfs).
  split; [done|]. by rewrite Hfs, !lookup_insert_ne.
Qed.

Lemma linked_pip_step (version : Version) (s0 : state) (q : path) (n : node) (p : path) :
  p ∈ pip_commands version → q ≠ p →
  hoare (linked version s0 q n)
    (click.echo ("Publishing " +:+ pathlib.name p);;
     operations.publish_pip_command (get_installation version) p true true)
    (λ _, linked version s0 q n).
Proof.
  intros Hp Hne s l0 [Hlink Hq] a s' l Hrun.
  destruct (link_pip_step version s0 _ _ p _ l0 _ (l0 ++ l) Hp Hlink Hrun)
    as (Hlink' & data & locked & _ & Hfs).
  split; [done|]. by rewrite Hfs, lookup_insert_ne.
Qed.

(** In a duplicate-free list of commands and sidecars, a command and its
    sidecar differ from each other and from every later command and
    sidecar. *)
Lemma NoDup_targets_later (l1 l2 : list path) (p : path) :
  NoDup (p' ← l1 ++ p :: l2; [p'; pathlib.with_suffix p' ".shim"]) →
  p ≠ sidecar p ∧
  ∀ p', p' ∈ l2 → p ≠ p' ∧ p ≠ sidecar p' ∧ sidecar p ≠ p' ∧ sidecar p ≠ sidecar p'.
Proof.
  rewrite bind_app, bind_cons. intros (_ & _ & Hnodup)%NoDup_app.
  apply NoDup_app in Hnodup as (Hpair & Hdisj & _).
  split.
  - apply NoDup_cons in Hpair as [Hp _]. intros Heq. apply Hp.
    apply list_elem_of_singleton. exact Heq.
  - intros p' Hp'.
    assert (Hin : ∀ x, x ∈ [p'; sidecar p'] →
              x ∈ (p' ← l2; [p'; pathlib.with_suffix p' ".shim"])).
    { intros x Hx. apply list_elem_of_bind. by exists p'. }
    assert (H1 : p' ∈ (p' ← l2; [p'; pathlib.with_suffix p' ".shim"])) by (apply Hin; by left).
    assert (H2 : sidecar p' ∈ (p' ← l2; [p'; pathlib.with_suffix p' ".shim"]))
      by (apply Hin; right; by left).
    assert (Hp : p ∈ [p; pathlib.with_suffix p ".shim"]) by by left.
    assert (Hsc : sidecar p ∈ [p; pathlib.with_suffix p ".shim"]) by (right; by left).
    repeat split; intros Heq.
    + apply (Hdisj p Hp). by rewrite Heq.
    + apply (Hdisj p Hp). by rewrite Heq.
    + apply (Hdisj _ Hsc). by rewrite Heq.
    + apply (Hdisj _ Hsc). by rewrite Heq.
Qed.

(** X9. [link_commands] overwrites. Let no declared command or sidecar
    of a version be a directory or a read-only file, let the declared
    commands and their sidecars be pairwise distinct, and let neither
    the dispatcher nor the version's own [pip] be among them. When
    [link_commands] completes, each declared interpreter command holds a
    copy of the dispatcher and its sidecar holds the path of the
    version's interpreter, and each declared package-manager command
    holds a copy of the version's [pip], whatever these paths held
    before; a copy is read-only exactly when its source is. *)
Theorem link_commands_overwrites (version : Version) (s s' : state) (l : list event) :
  (∀ q, q ∈ unlink_targets version → fs s !! q = None ∨ removable (fs s) q) →
  NoDup (unlink_targets version) →
  get_generic_shim_path ∉ unlink_targets version →
  pip (get_installation version) ∉ unlink_targets version →
  operations.link_commands version s = (Ok tt, s', l) →
  (∀ p, p ∈ python_commands version →
     ∃ data locked,
       fs s !! get_generic_shim_path = Some (File data locked) ∧
       fs s' !! p = Some (File data locked) ∧
       fs s' !! sidecar p =
         Some (File (pathlib.to_str (python (get_installation version))) false)) ∧
  (∀ p, p ∈ pip_commands version →
     ∃ data locked,
       fs s !! pip (get_installation version) = Some (File data locked) ∧
       fs s' !! p = Some (File data locked)).
Proof.
  intros Hfiles Hnodup Hshim Hpipsrc Hrun. unfold operations.link_commands in Hrun.
  apply run_bind_inv in Hrun as ([] & s1 & l1 & l2 & Hpython & Hpip & ->).
  destruct (linking_start version s Hfiles) as [H0 _].
  assert (Hloop : ∀ cmds sa la sb lb, (∀ p, p ∈ cmds → p ∈ python_commands version) →
            linking version s sa la →
            for_ cmds (λ path,
              click.echo ("Publishing " +:+ pathlib.name path);;
              operations.publish_python_command (get_installation version) path true true) sa
              = (Ok tt, sb, lb) →
            linking version s sb (la ++ lb)).
  { intros cmds sa la sb lb Hsub Hlink Hfor.
    refine (hoare_for (linking version s) _ _ _ sa _ Hlink _ _ _ Hfor).
    intros p Hp s2 l3 Hlink2 [] s3 l4 Hstep.
    by destruct (link_python_step version s _ _ p _ l3 _ (l3 ++ l4) (Hsub p Hp) Hlink2 Hstep). }
  assert (Hloop' : ∀ cmds sa la sb lb, (∀ p, p ∈ cmds → p ∈ pip_commands version) →
            linking version s sa la →
            for_ cmds (λ path,
              click.echo ("Publishing " +:+ pathlib.name path);;
              operations.publish_pip_command (get_installation version) path true true) sa
              = (Ok tt, sb, lb) →
            linking version s sb (la ++ lb)).
  { intros cmds sa la sb lb Hsub Hlink Hfor.
    refine (hoare_for (linking version s) _ _ _ sa _ Hlink _ _ _ Hfor).
    intros p Hp s2 l3 Hlink2 [] s3 l4 Hstep.
    by destruct (link_pip_step version s _ _ p _ l3 _ (l3 ++ l4) (Hsub p Hp) Hlink2 Hstep). }
  split.
  - intros p Hp. pose proof Hp as Hin.
    apply list_elem_of_split in Hin as (before & after & Hsplit).
    unfold unlink_targets in Hnodup. rewrite Hsplit, <-(assoc_L (++)) in Hnodup.
    apply NoDup_targets_later in Hnodup as [Hne Hlater].
    rewrite Hsplit, run_for_app in Hpython.
    apply run_bind_inv in Hpython as ([] & sa & la & lb & Hbefore & Hrest & ->).
    cbn [for_] in Hrest.
    apply run_bind_inv in Hrest as ([] & sb & lc & ld & Hstep & Hafter & ->).
    assert (Hsub : ∀ x, x ∈ before ++ p :: after → x ∈ python_commands version)
      by (intros x; by rewrite Hsplit).
    pose proof (Hloop before s [] sa la
      (λ x Hx, Hsub x (proj2 (elem_of_app _ _ _) (or_introl Hx))) H0 Hbefore) as Ha.
    destruct Ha as (Hpa & Hframe & Hfilesa).
    destruct (link_python_step version s sa sb p _ ([] ++ la) _ (([] ++ la) ++ lc) Hp
                (conj Hpa (conj Hframe Hfilesa)) Hstep)
      as (Hb & data & locked & Hsrc & Hfs).
    assert (Hsc_in : sidecar p ∈ unlink_targets version).
    { apply elem_of_unlink_targets. exists p. split; [apply elem_of_app|]; eauto. }
    rewrite lookup_insert_ne in Hsrc by (intros Heq; apply Hshim; by rewrite <-Heq).
    rewrite Hframe in Hsrc by done.
    exists data, locked. split; [done|].
    assert (Hkeep : ∀ q n, (q = p ∨ q = sidecar p) → fs sb !! q = Some n →
              fs s' !! q = Some n).
    { intros q n Hq Hn.
      assert (H2 : linked version s q n s1 ((([] ++ la) ++ lc) ++ ld)).
      { refine (hoare_for (linked version s q n) _ _ _ sb _ (conj Hb Hn) _ _ _ Hafter).
        intros x Hx. destruct (Hlater x) as (? & ? & ? & ?);
          [apply elem_of_app; by left|].
        apply linked_python_step.
        - apply Hsub. apply elem_of_app. right. by right.
        - destruct Hq as [-> | ->]; done.
        - destruct Hq as [-> | ->]; done. }
      refine (proj2 (hoare_for (linked version s q n) _ _ _ s1 _ H2 _ _ _ Hpip)).
      intros x Hx. destruct (Hlater x) as (? & ? & ? & ?);
        [apply elem_of_app; by right|].
      apply linked_pip_step; [done|]. destruct Hq as [-> | ->]; done. }
    split; apply Hkeep; eauto.
    + by rewrite Hfs, lookup_insert_eq.
    + rewrite Hfs, lookup_insert_ne by done. by rewrite lookup_insert_eq.
  - intros p Hp. pose proof Hp as Hin.
    apply list_elem_of_split in Hin as (before & after & Hsplit).
    unfold unlink_targets in Hnodup. rewrite Hsplit, (assoc_L (++)) in Hnodup.
    apply NoDup_targets_later in Hnodup as [Hne Hlater].
    pose proof (Hloop _ s [] s1 l1 (λ x Hx, Hx) H0 Hpython) as H1.
    rewrite Hsplit, run_for_app in Hpip.
    apply run_bind_inv in Hpip as ([] & sa & la & lb & Hbefore & Hrest & ->).
    cbn [for_] in Hrest.
    apply run_bind_inv in Hrest as ([] & sb & lc & ld & Hstep & Hafter & ->).
    assert (Hsub : ∀ x, x ∈ before ++ p :: after → x ∈ pip_commands version)
      by (intros x; by rewrite Hsplit).
    pose proof (Hloop' before s1 _ sa la
      (λ x Hx, Hsub x (proj2 (elem_of_app _ _ _) (or_introl Hx))) H1 Hbefore) as Ha.
    destruct Ha as (Hpa & Hframe & Hfilesa).
    destruct (link_pip_step version s sa sb p _ (([] ++ l1) ++ la) _ [] Hp
                (conj Hpa (conj Hframe Hfilesa)) Hstep)
      as (Hb & data & locked & Hsrc & Hfs).
    rewrite Hframe in Hsrc by done.
    exists data, locked. split; [done|].
    refine (proj2 (hoare_for (linked version s p (File data locked)) _ _ _ sb _ _ _ _ _ Hafter)).
    + intros x Hx. destruct (Hlater x Hx) as (? & ? & ? & ?).
      apply linked_pip_step; [|done]. apply Hsub. apply elem_of_app. right. by right.
    + split; [exact Hb|]. by rewrite Hfs, lookup_insert_eq.
Qed.

End pinned.

(** ** The listing of versions *)

Lemma rev_app_app (a b c : string) :
  String.rev_app (a +:+ b) c = String.rev_app b (String.rev_app a c).
Proof.
  revert c. induction a as [|x a IH]; intros c; [done|]. rewrite app_cons. simpl. apply IH.
Qed.

Lemma rev_app_rev (b c : string) : String.rev_app b c = String.rev b +:+ c.
Proof.
  unfold String.rev. revert c. induction b as [|x b IH]; intros c; [done|]. simpl.
  rewrite IH, (IH (String x "")). by rewrite app_assoc_str.
Qed.

Lemma startswith_app (p s : string) : str.startswith (p +:+ s) p = true.
Proof.
  induction p as [|x p IH]; [by destruct s|]. rewrite app_cons. simpl.
  by rewrite bool_decide_true, IH.
Qed.

Lemma endswith_app (a b : string) : str.endswith (a +:+ b) b = true.
Proof.
  unfold str.endswith, String.rev. rewrite rev_app_app, rev_app_rev. apply startswith_app.
Qed.

Section listing.
Context `{!Host}.

(** X10. On a host that cannot install 64-bit builds, [get_versions]
    lists versions of the catalog in catalog order, never shows a
    version without the [-32] suffix whose [-32] counterpart is in the
    catalog, and, when not restricted to installed versions, loses
    nothing: every version of the catalog is listed itself or has its
    [-32] counterpart listed. *)
Theorem get_versions_hides_64bit_twins (vers : list Version) (is_installed : Version → bool)
    (installed_only : bool) :
  can_install_64bit = false →
  sublist (operations.get_versions vers is_installed installed_only) vers ∧
  (∀ v, v ∈ operations.get_versions vers is_installed installed_only →
        str.endswith (name v) "-32" = false → name v +:+ "-32" ∉ name <$> vers) ∧
  (∀ v, v ∈ vers →
        v ∈ operations.get_versions vers is_installed false ∨
        ∃ w, w ∈ operations.get_versions vers is_installed false ∧
             name w = name v +:+ "-32").
Proof.
  intros H32. unfold operations.get_versions. rewrite H32. split; [apply sublist_filter|].
  split.
  - intros v [Hv _]%list_elem_of_filter Hsuffix Htwin.
    destruct (installed_only && negb (is_installed v)); [done|].
    rewrite Hsuffix, bool_decide_true in Hv; [done|]. by apply elem_of_list_to_set.
  - intros v Hv. simpl.
    destruct (str.endswith (name v) "-32") eqn:Hsuffix.
    { left. apply list_elem_of_filter. by rewrite Hsuffix. }
    destruct (decide (name v +:+ "-32" ∈ name <$> vers)) as [Htwin|Hnone].
    + right. apply list_elem_of_fmap in Htwin as (w & Hname & Hw). exists w. split; [|done].
      apply list_elem_of_filter. split; [|done].
      by rewrite <-Hname, endswith_app.
    + left. apply list_elem_of_filter. split; [|done].
      rewrite Hsuffix, bool_decide_false; [done|]. by rewrite elem_of_list_to_set.
Qed.

End listing.

(** ** The registry *)

Section registry.
Import winreg.

Lemma components_go_name (cur n s : string) :
  mentions "\" n = false →
  components_go cur (n +:+ s) = components_go (String.rev_app n cur) s.
Proof.
  revert cur. induction n as [|a n IH]; intros cur Hn; [done|].
  simpl in Hn. apply orb_false_iff in Hn as [Ha Hn]. apply bool_decide_eq_false in Ha.
  rewrite app_cons. simpl. rewrite decide_False by done. by apply IH.
Qed.

Lemma components_install_path (n : string) :
  mentions "\" n = false → components (n +:+ "\InstallPath") = [n; "InstallPath"].
Proof.
  intros Hn. unfold components. rewrite components_go_name by done. simpl.
  by rewrite rev_rev_app.
Qed.

Lemma lookup_subkey_Some (n : string) (l : list key) (k : key) :
  lookup_subkey n l = Some k → k ∈ l ∧ name k = n.
Proof.
  induction l as [|k' l IH]; simpl; [done|]. case_decide as Hk.
  - intros [= <-]. split; [by left | done].
  - intros [Hin Hname]%IH. split; [by right | done].
Qed.

Lemma enum_keys_seq (k : key) (before rest : list key) :
  subkeys k = before ++ rest →
  metadata.enum_keys k (seq (length before) (length rest)) = inr (name <$> rest).
Proof.
  revert before. induction rest as [|k' rest IH]; intros before Hsub; [done|].
  simpl. unfold EnumKey. rewrite Hsub.
  rewrite (list_lookup_middle before rest k' (length before) eq_refl).
  specialize (IH (before ++ [k'])). rewrite List.length_app, Nat.add_1_r in IH.
  rewrite IH; [done|]. by rewrite <-(assoc_L (++)).
Qed.

(** X12. Reading the installed versions from the registry. When the key
    [Software\Python\PythonCore] does not exist, [is_installed] and
    [get_installed_version_names] both raise the [FileNotFoundError] of
    [OpenKey] ([is_installed] does not answer [False]). When it exists,
    [get_installed_version_names] returns the names of its subkeys in
    order and never runs past the last one; [is_installed] never
    raises, and it answers [True] only for a name that
    [get_installed_version_names] lists (the name holding no
    backslash). *)
Theorem is_installed_listed (hkcu : key) (n : string) :
  mentions "\" n = false →
  (∀ e, metadata.open_python_key hkcu = inl e →
     metadata.is_installed hkcu n = inl e ∧
     metadata.get_installed_version_names hkcu = inl e) ∧
  (∀ python_key, metadata.open_python_key hkcu = inr python_key →
     metadata.get_installed_version_names hkcu = inr (name <$> subkeys python_key) ∧
     ∃ b, metadata.is_installed hkcu n = inr b ∧
          (b = true → n ∈ name <$> subkeys python_key)).
Proof.
  intros Hn. unfold metadata.is_installed, metadata.get_installed_version_names. split.
  - by intros e ->.
  - intros python_key ->. split.
    + apply (enum_keys_seq python_key []). done.
    + unfold OpenKey. rewrite components_install_path by done. simpl.
      destruct (lookup_subkey n (subkeys python_key)) as [k|] eqn:Hk; [|by exists false].
      apply lookup_subkey_Some in Hk as [Hin Hname].
      assert (Hlisted : n ∈ name <$> subkeys python_key).
      { apply list_elem_of_fmap. by exists k. }
      destruct (lookup_subkey "InstallPath" (subkeys k)) as [k'|]; [|by exists false].
      eexists. split; [done|]. done.
Qed.

End registry.

(** ** What publishing leaves alone *)

Lemma write_frame (p : path) (data : string) (s s' : state) (r : result unit)
    (l : list event) :
  os.write p data s = (r, s', l) → s' = s ∨ s' = set_fs <[p := File data false]> s.
Proof.
  unfold os.write. rewrite run_bind. simpl.
  destruct (os.parent_is_dir (fs s) p); simpl; [|intros [= _ <- _]; by left].
  destruct (fs s !! p) as [[old [|]|]|]; simpl; intros [= _ <- _]; auto.
Qed.

Lemma copy2_frame (src dst : path) (s s' : state) (r : result unit) (l : list event) :
  shutil.copy2 src dst s = (r, s', l) →
  s' = s ∨
  ∃ data locked,
    s' = set_fs <[(if os.is_dir_in (fs s) dst
                   then pathlib.joinpath dst (pathlib.name src) else dst)
                  := File data locked]> s.
Proof.
  unfold shutil.copy2. rewrite run_bind. simpl.
  set (dst' := if os.is_dir_in (fs s) dst then _ else dst).
  case_bool_decide as Hsame; simpl; [intros [= _ <- _]; by left|].
  rewrite run_bind. unfold os.read at 1. rewrite run_bind. simpl.
  destruct (fs s !! src) as [[data lk|]|] eqn:Hsrc; simpl;
    try (intros [= _ <- _]; by left).
  rewrite run_bind.
  destruct (os.write dst' data s) as [[[[]|e] s1] l1] eqn:Hwrite;
    [|intros [= _ <- _]; apply write_frame in Hwrite as [->| ->]; [by left|];
      right; by exists data, false].
  apply write_inv in Hwrite as (-> & -> & _).
  unfold shutil.copystat. rewrite run_bind. simpl.
  rewrite lookup_insert_ne, Hsrc, lookup_insert_eq by (intros Heq; by apply Hsame).
  intros [= _ <- _]. right. exists data, lk. unfold set_fs. simpl.
  by rewrite insert_insert_eq.
Qed.

Section keeps.
Context `{!Host}.

(** X13. Publishing without [overwrite] never changes what exists,
    whatever its outcome, failures included: [publish_file] leaves every
    existing path as it was, and [publish_shim] leaves every existing
    path other than the sidecar of its target as it was. *)
Theorem publish_keeps_existing :
  (∀ source target quiet s r s' l q,
     operations.publish_file source target false quiet s = (r, s', l) →
     is_Some (fs s !! q) → fs s' !! q = fs s !! q) ∧
  (∀ target content quiet s r s' l q,
     operations.publish_shim target content false quiet s = (r, s', l) →
     is_Some (fs s !! q) → q ≠ sidecar target → fs s' !! q = fs s !! q).
Proof.
  split.
  - intros source target quiet s r s' l q. unfold operations.publish_file.
    rewrite (run_bind_Ok _ _ _ _ _ _ (run_exists target s)). simpl.
    destruct (os.exists_in (fs s) target) eqn:Hex; [by intros [= _ <- _]|].
    apply exists_in_false in Hex.
    rewrite (run_bind_Ok _ _ _ _ _ _ (run_when_echo _ _ s)).
    destruct (shutil.copy2 source target s) as [[r1 s1] l1] eqn:Hcopy. intros [= _ <- _] Hq.
    apply copy2_frame in Hcopy as [-> | (data & locked & ->)]; [done|].
    unfold os.is_dir_in. rewrite Hex. simpl. rewrite lookup_insert_ne; [done|].
    intros <-. rewrite Hex in Hq. by destruct Hq.
  - intros target content quiet s r s' l q. unfold operations.publish_shim.
    rewrite (run_bind_Ok _ _ _ _ _ _ (run_exists target s)). simpl.
    destruct (os.exists_in (fs s) target) eqn:Hex; [by intros [= _ <- _]|].
    apply exists_in_false in Hex.
    rewrite (run_bind_Ok _ _ _ _ _ _ (run_when_echo _ _ s)).
    rewrite run_bind.
    destruct (os.write _ _ s) as [[[[]|e] s1] l1] eqn:Hwrite.
    + destruct (shutil.copy2 _ target s1) as [[r2 s2] l2] eqn:Hcopy.
      intros [= _ <- _] Hq Hsc.
      assert (Hs1 : fs s1 !! q = fs s !! q ∧ os.is_dir_in (fs s1) target = false).
      { apply write_frame in Hwrite as [-> | ->].
        - split; [done|]. unfold os.is_dir_in. by rewrite Hex.
        - simpl. split; [by rewrite lookup_insert_ne|]. unfold os.is_dir_in.
          destruct (decide (pathlib.with_suffix target ".shim" = target)) as [->|Hne].
          + by rewrite lookup_insert_eq.
          + rewrite lookup_insert_ne by done. by rewrite Hex. }
      destruct Hs1 as [Hq1 Hdir].
      apply copy2_frame in Hcopy as [-> | (data & locked & ->)]; [done|].
      rewrite Hdir. simpl. rewrite lookup_insert_ne; [done|].
      intros <-. rewrite Hex in Hq. by destruct Hq.
    + intros [= _ <- _] Hq Hsc.
      apply write_frame in Hwrite as [-> | ->]; [done|].
      simpl. by rewrite lookup_insert_ne.
Qed.

(** X18. A saved installer is never corrupt. When [save_installer]
    returns, reading the target path back gives exactly the payload,
    whose MD5 digest is the checksum of the descriptor; the write of
    that one file is the only event, and every other path and the
    persisted ActiveSet are as before. *)
Theorem save_installer_read_back (self : Version) (data : string) (into_path : path)
    (s s' : state) (l : list event) :
  versions.save_installer self data into_path s = (Ok tt, s', l) →
  os.read into_path s' = (Ok data, s', []) ∧
  md5_hexdigest data = md5_sum self ∧
  l = [Written into_path data] ∧
  python_versions s' = python_versions s ∧
  ∀ q, q ≠ into_path → fs s' !! q = fs s !! q.
Proof.
  unfold versions.save_installer. case_bool_decide as Hsum; [done|].
  intros (-> & -> & _)%write_inv. split; [|split; [|split; [|split]]].
  - unfold os.read. rewrite run_bind. simpl. by rewrite lookup_insert_eq.
  - exact Hsum.
  - done.
  - done.
  - intros q Hq. simpl. by rewrite lookup_insert_ne.
Qed.

End keeps.

(** ** More on activation *)

Lemma split_suffix_shim (x : string) :
  x ≠ "" → pathlib.split_suffix (x +:+ ".shim") = (x, ".shim").
Proof.
  intros Hx. unfold pathlib.split_suffix, str.rfind.
  rewrite rfind_go_app. simpl. rewrite length_app. simpl.
  rewrite bool_decide_true.
  - replace (String.length x + 5 - String.length x) with (String.length ".shim") by (simpl; lia).
    by rewrite substring_app_l, substring_app_r.
  - destruct x; [done | simpl; lia].
Qed.

Lemma listdir_nil (m : gmap path node) (d : path) :
  (∀ q, pathlib.child_of d q → m !! q = None) → os.listdir m d = [].
Proof.
  intros Hnone. destruct (os.listdir m d) as [|p ps] eqn:Hl; [done|].
  assert (Hp : p ∈ os.listdir m d) by (rewrite Hl; by left).
  apply elem_of_listdir in Hp as [Hchild [n Hn]]. rewrite Hnone in Hn; done.
Qed.

Section activation_more.
Context `{!Host}.

(** X14. Activating the empty list, when allowed, clears everything:
    once [activate [] true] has completed, the shared scripts directory
    has no entry, every path outside it is as before, and
    [get_active_names] returns no name. *)
Theorem activate_nothing_clears (quiet : bool) (s s' : state) (l : list event) :
  operations.activate [] true quiet s = (Ok tt, s', l) →
  os.listdir (fs s') get_scripts_dir_path = [] ∧
  (∀ q, ¬ pathlib.child_of get_scripts_dir_path q → fs s' !! q = fs s !! q) ∧
  operations.get_active_names s' = (Ok [], s', []).
Proof.
  intros (s2 & l1 & l2 & _ & Hpopulate & -> & _ & _)%activate_inv.
  simpl in Hpopulate. injection Hpopulate as <- _. simpl. split; [|split].
  - apply listdir_nil. intros q Hq. by rewrite emptied_lookup, decide_True.
  - intros q Hq. by rewrite emptied_lookup, decide_False.
  - by rewrite run_get_active_names.
Qed.

Lemma no_installer_scripts_stable (m0 : gmap path node) :
  stable (λ q, pathlib.stem q ∈ ["easy_install"; "pip"]) (no_installer_scripts m0).
Proof.
  destruct (rebuilt_from_stable m0) as [Hecho Hwrite]. split.
  - intros s l line [Hre Hstems]. split; [by apply Hecho | done].
  - intros s l q data locked [Hre Hstems] Hchild Hq.
    split; [apply Hwrite; [done | done | by intros []]|].
    intros q' Hq' Hsome. simpl in Hsome. destruct (decide (q = q')) as [<-|Hne]; [done|].
    rewrite lookup_insert_ne in Hsome by done. by apply Hstems.
Qed.

Lemma python_command_stem (mv ext : string) :
  "python" +:+ mv ∉ ["easy_install"; "pip"].
Proof.
  rewrite !app_cons. intros [Heq|Heq%list_elem_of_singleton]%elem_of_cons; discriminate.
Qed.

(** X15. The installer scripts stay private: after a completed
    [activate], the shared scripts directory holds no entry whose stem
    is [easy_install] or [pip]. *)
Theorem activate_publishes_no_pip (versions : list Version) (allow_empty quiet : bool)
    (s s' : state) (l : list event) (q : path) :
  operations.activate versions allow_empty quiet s = (Ok tt, s', l) →
  pathlib.child_of get_scripts_dir_path q → is_Some (fs s' !! q) →
  pathlib.stem q ∉ ["easy_install"; "pip"].
Proof.
  intros (s2 & l1 & l2 & _ & Hpopulate & -> & _ & _)%activate_inv.
  set (m1 := delete_all _ _) in *.
  assert (Hemptied : ∀ q, pathlib.child_of get_scripts_dir_path q → m1 !! q = None).
  { intros q' Hq'. unfold m1. by rewrite emptied_lookup, decide_True. }
  assert (H1 : no_installer_scripts m1 (set_fs (λ _, m1) s) []).
  { split.
    - split; [done|]. intros q' Hq'. left. by apply Hemptied.
    - intros q' Hq' Hsome. simpl in Hsome. rewrite Hemptied in Hsome by done.
      by destruct Hsome. }
  assert (H2 : no_installer_scripts m1 s2 ([] ++ l2)); [|by apply H2].
  refine (hoare_for (no_installer_scripts m1) _ _ _ _ _ H1 _ _ _ Hpopulate).
  intros version _.
  apply (publish_version_scripts_stable (λ q, pathlib.stem q ∈ ["easy_install"; "pip"]));
    [apply no_installer_scripts_stable | |].
  - intros s3 l3 _ Hstem. exfalso. unfold python_command in Hstem.
    rewrite sidecar_python_command in Hstem. unfold pathlib.stem, pathlib.joinpath in Hstem.
    simpl in Hstem. rewrite <-!app_assoc_str in Hstem.
    rewrite split_suffix_exe, split_suffix_shim in Hstem by (by rewrite app_cons).
    simpl in Hstem. destruct Hstem as [Hstem|Hstem]; by apply (python_command_stem _ "") in Hstem.
  - intros s3 l3 s4 l4 p _ _ _ _ Hstem _ Hq. by destruct Hstem.
Qed.

End activation_more.

(** * The further properties on the concrete host *)

Section on_examples.
Import scenario examples.

(** X1 on the concrete host: after [activate [2.7; 3.6]] the names read
    back are [2.7; 3.6]. *)
Lemma activate_then_get_active_names_witness :
  let run := operations.activate (H:=host) [v27; v36] false true fresh in
  operations.get_active_names run.1.2 = (Ok ["2.7"; "3.6"], run.1.2, []).
Proof.
  intros run.
  apply (activate_then_get_active_names (H:=host) [v27; v36] false true fresh run.1.2 run.2).
  - repeat constructor; by vm_compute.
  - apply run_eta. vm_compute. reflexivity.
Defined.

(** X2 on the 64-bit host: removing 2.7 from the active versions
    [3.6; 3.5; 2.7]. *)
Lemma update_active_versions_membership_witness :
  let run := operations.update_active_versions (H:=host64) [v27] three_active in
  ∃ names names',
    operations.get_active_names three_active = (Ok names, three_active, []) ∧
    operations.get_active_names run.1.2 = (Ok names', run.1.2, []) ∧
    ∀ x, x ∈ names' ↔ x ∈ names ∧ x ∉ name <$> [v27].
Proof.
  intros run.
  apply (update_active_versions_membership (H:=host64) [v27] three_active run.1.2 run.2).
  - reflexivity.
  - apply run_eta. vm_compute. reflexivity.
Defined.

(** X16 on the 64-bit host: removing 2.7 a second time. *)
Lemma update_active_versions_idempotent_witness :
  let run := operations.update_active_versions (H:=host64) [v27] three_active in
  operations.update_active_versions (H:=host64) [v27] run.1.2 = (Ok tt, run.1.2, []).
Proof.
  intros run.
  apply (update_active_versions_idempotent (H:=host64) [v27] three_active run.1.2 run.2).
  - reflexivity.
  - apply run_eta. vm_compute. reflexivity.
Defined.

(** X3 on the 64-bit host, for the name [3.6.3], whose [-32] counterpart
    is in the catalog. *)
Lemma get_version_exact_on_64bit_witness :
  (∀ version s' l,
     operations.get_version (H:=host64) "3.6.3" fresh = (Ok version, s', l) →
     s' = fresh ∧ l = [] ∧ name version = "3.6.3" ∧
     ∃ d, catalog !! "3.6.3" = Some d ∧
          url version = json_url d ∧ md5_sum version = json_md5_sum d ∧
          version_info version = json_version_info d ∧
          InstallerType_of (installer_type d) = Some (klass version)) ∧
  (catalog !! "3.6.3" = None →
     operations.get_version (H:=host64) "3.6.3" fresh =
       (Raise (Exit 1), fresh, [Stderr ("No such version: " +:+ "3.6.3")])).
Proof. apply (get_version_exact_on_64bit (H:=host64) "3.6.3" fresh). reflexivity. Defined.

(** X4 on the concrete host, whose shared scripts directory starts with
    a stale entry. *)
Lemma activate_rebuilds_from_scratch_witness :
  let run := operations.activate (H:=host) [v27; v36] false true fresh in
  (∀ q, ¬ pathlib.child_of scripts q → fs run.1.2 !! q = fs fresh !! q) ∧
  (∀ q n, pathlib.child_of scripts q → fs run.1.2 !! q = Some n →
     ∃ data locked, n = File data locked ∧ last (written_data q run.2) = Some data).
Proof.
  intros run.
  apply (activate_rebuilds_from_scratch (H:=host) [v27; v36] false true fresh run.1.2 run.2).
  apply run_eta. vm_compute. reflexivity.
Defined.

(** X5 on the concrete host: [python3.exe] is there for 3.6. *)
Lemma activate_publishes_python_commands_witness :
  let run := operations.activate (H:=host) [v27; v36] false true fresh in
  ∃ data locked,
    fs run.1.2 !! pathlib.joinpath scripts "python3.exe" = Some (File data locked).
Proof.
  intros run.
  apply (activate_publishes_python_commands (H:=host) [v27; v36] false true
           fresh run.1.2 run.2 v36).
  - apply run_eta. vm_compute. reflexivity.
  - right. left.
Defined.


(** None of the pinned commands of 3.6 exists on the fresh host. *)
Lemma v36_targets_free (q : path) :
  q ∈ unlink_targets (H:=host) v36 → fs fresh !! q = None ∨ removable (fs fresh) q.
Proof.
  intros Hq. vm_compute in Hq.
  repeat (apply elem_of_cons in Hq as [->|Hq]); [left|left|left|left|inversion Hq];
    vm_compute; reflexivity.
Qed.

(** X8 on the concrete host: linking, then unlinking, the commands of
    3.6. *)
Lemma link_then_unlink_commands_witness :
  let run := operations.link_commands (H:=host) v36 fresh in
  ∃ s2 l2,
    operations.unlink_commands (H:=host) v36 run.1.2 = (Ok tt, s2, l2) ∧
    python_versions s2 = python_versions fresh ∧
    (∀ q, fs s2 !! q =
            if decide (q ∈ unlink_targets (H:=host) v36) then None else fs fresh !! q) ∧
    ((∀ q, q ∈ unlink_targets (H:=host) v36 → fs fresh !! q = None) → s2 = fresh).
Proof.
  intros run.
  apply (link_then_unlink_commands (H:=host) v36 fresh run.1.2 run.2).
  - apply v36_targets_free.
  - intros [data Hdata]. vm_compute in Hdata. discriminate.
  - intros [data Hdata]. vm_compute in Hdata. discriminate.
  - apply run_eta. vm_compute. reflexivity.
Defined.

(** X9 on the concrete host, for the pinned commands of 3.6. *)
Lemma link_commands_overwrites_witness :
  let run := operations.link_commands (H:=host) v36 fresh in
  (∀ p, p ∈ python_commands (Host:=host) v36 →
     ∃ data locked,
       fs fresh !! generic_shim = Some (File data locked) ∧
       fs run.1.2 !! p = Some (File data locked) ∧
       fs run.1.2 !! sidecar p =
         Some (File (pathlib.to_str (python (get_installation (Host:=host) v36))) false)) ∧
  (∀ p, p ∈ pip_commands (Host:=host) v36 →
     ∃ data locked,
       fs fresh !! pip (get_installation (Host:=host) v36) = Some (File data locked) ∧
       fs run.1.2 !! p = Some (File data locked)).
Proof.
  intros run.
  apply (link_commands_overwrites (H:=host) v36 fresh run.1.2 run.2).
  - apply v36_targets_free.
  - apply (bool_decide_unpack _). vm_compute. exact I.
  - apply (bool_decide_unpack _). vm_compute. exact I.
  - apply (bool_decide_unpack _). vm_compute. exact I.
  - apply run_eta. vm_compute. reflexivity.
Defined.

(** X10 on the concrete host, which cannot install 64-bit builds. *)
Lemma get_versions_hides_64bit_twins_witness :
  sublist (operations.get_versions (H:=host) listed only_36 false) listed ∧
  (∀ v, v ∈ operations.get_versions (H:=host) listed only_36 false →
        str.endswith (name v) "-32" = false → name v +:+ "-32" ∉ name <$> listed) ∧
  (∀ v, v ∈ listed →
        v ∈ operations.get_versions (H:=host) listed only_36 false ∨
        ∃ w, w ∈ operations.get_versions (H:=host) listed only_36 false ∧
             name w = name v +:+ "-32").
Proof.
  apply (get_versions_hides_64bit_twins (H:=host) listed only_36 false). reflexivity.
Defined.

(** X17 on the concrete host, with the active versions [3.6; 2.7]. *)
Lemma get_active_names_words_witness :
  ∃ names,
    operations.get_active_names two_active = (Ok names, two_active, []) ∧
    Forall word names ∧
    names = match python_versions two_active with
            | None => []
            | Some content => str.split content
            end.
Proof.
  apply (get_active_names_words two_active).
  intros content [= <-]. vm_compute. reflexivity.
Defined.

(** X12 on the registry of the concrete host, for 3.6. *)
Lemma is_installed_listed_witness :
  (∀ e, metadata.open_python_key hkcu = inl e →
     metadata.is_installed hkcu "3.6" = inl e ∧
     metadata.get_installed_version_names hkcu = inl e) ∧
  (∀ python_key, metadata.open_python_key hkcu = inr python_key →
     metadata.get_installed_version_names hkcu
       = inr (winreg.name <$> winreg.subkeys python_key) ∧
     ∃ b, metadata.is_installed hkcu "3.6" = inr b ∧
          (b = true → "3.6" ∈ winreg.name <$> winreg.subkeys python_key)).
Proof. apply (is_installed_listed hkcu "3.6"). reflexivity. Defined.

(** X14 on the concrete host. *)
Lemma activate_nothing_clears_witness :
  let run := operations.activate (H:=host) [] true true fresh in
  os.listdir (fs run.1.2) scripts = [] ∧
  (∀ q, ¬ pathlib.child_of scripts q → fs run.1.2 !! q = fs fresh !! q) ∧
  operations.get_active_names run.1.2 = (Ok [], run.1.2, []).
Proof.
  intros run.
  apply (activate_nothing_clears (H:=host) true fresh run.1.2 run.2).
  apply run_eta. vm_compute. reflexivity.
Defined.

(** X15 on the concrete host: [wheel.exe] is published, and is no
    installer script. *)
Lemma activate_publishes_no_pip_witness :
  let run := operations.activate (H:=host) [v27; v36] false true fresh in
  let q := pathlib.joinpath scripts "wheel.exe" in
  is_Some (fs run.1.2 !! q) ∧ pathlib.stem q ∉ ["easy_install"; "pip"].
Proof.
  intros run q.
  assert (Hq : is_Some (fs run.1.2 !! q)) by (vm_compute; eauto).
  split; [exact Hq|].
  apply (activate_publishes_no_pip (H:=host) [v27; v36] false true fresh run.1.2 run.2 q).
  - apply run_eta. vm_compute. reflexivity.
  - reflexivity.
  - exact Hq.
Defined.

(** X18 on the concrete host, for the empty payload. *)
Lemma save_installer_read_back_witness :
  let into_path := pathlib.joinpath root "python-3.6.exe" in
  let run := versions.save_installer (H:=host) v36 "" into_path fresh in
  os.read into_path run.1.2 = (Ok "", run.1.2, []) ∧
  md5_hexdigest (Host:=host) "" = md5_sum v36 ∧
  run.2 = [Written into_path ""] ∧
  python_versions run.1.2 = python_versions fresh ∧
  ∀ q, q ≠ into_path → fs run.1.2 !! q = fs fresh !! q.
Proof.
  intros into_path run.
  apply (save_installer_read_back (H:=host) v36 "" into_path fresh run.1.2 run.2).
  apply run_eta. vm_compute. reflexivity.
Defined.

(** X13 on the concrete host: publishing [wheel.exe] leaves the
    dispatcher alone. *)
Lemma publish_keeps_existing_witness :
  let source := pathlib.joinpath (install_scripts "3.6") "wheel.exe" in
  let target := pathlib.joinpath scripts "wheel.exe" in
  let run := operations.publish_file source target false true fresh in
  fs run.1.2 !! generic_shim = fs fresh !! generic_shim.
Proof.
  intros source target run.
  apply (proj1 (@publish_keeps_existing host) source target true fresh
           run.1.1 run.1.2 run.2 generic_shim).
  - unfold run. by destruct (operations.publish_file _ _ _ _ _) as [[? ?] ?].
  - vm_compute. eauto.
Defined.

End on_examples.
